(** * Lead evaluation and deduplication pipeline

    A shallow embedding of the lead pipeline of the repository
    ([main.py], [scrapers/company_scraper.py], [embeddings/vector_store.py],
    [database/supabase_client.py], [notifications/notifier.py], [app.py],
    [config.py]) and the properties its specification states about it.

    Python dictionaries that the code uses as structs are records whose
    fields are options ([None]: the key is absent, so that [d["k"]] raises
    [KeyError] and [d.get("k", x)] yields [x]).  The two stores and the
    webhook are explicit state; what the remote services answer is read from
    an environment [Env].  Every function that the source wraps in
    [try ... except] is written with [try_except], so a handler that itself
    raises is visible. *)

From Stdlib Require Import String Ascii List ZArith QArith Bool Lia.
Import ListNotations.
Close Scope Q_scope.
Open Scope string_scope.

Set Implicit Arguments.
Set Warnings "-register-all".

(** ** Python results: a value or a raised exception *)

Inductive exn : Type :=
| KeyError
| ValueError
| NameError
| TypeError
| AttributeError
| IndexError
| DuplicateKeyError
| ServiceError.

Inductive result (A : Type) : Type :=
| Ok (a : A)
| Raise (e : exn).

Arguments Ok {A} a.
Arguments Raise {A} e.

(** [d["k"]] on a dictionary whose key may be absent. *)
Definition getitem {A : Type} (field : option A) : result A :=
  match field with
  | Some a => Ok a
  | None => Raise KeyError
  end.

(** [d.get("k", default)]. *)
Definition get {A : Type} (field : option A) (default : A) : A :=
  match field with
  | Some a => a
  | None => default
  end.

(** ** Strings as Python sees them (ASCII part) *)

Module Str.

(** [str.isspace] on the ASCII range: TAB, LF, VT, FF, CR, FS, GS, RS, US
    and the space. *)
Definition is_space (c : ascii) : bool :=
  let n := nat_of_ascii c in
  ((9 <=? n)%nat && (n <=? 13)%nat) || ((28 <=? n)%nat && (n <=? 32)%nat).

Fixpoint lstrip (s : string) : string :=
  match s with
  | EmptyString => EmptyString
  | String c rest => if is_space c then lstrip rest else s
  end.

Fixpoint all_space (s : string) : bool :=
  match s with
  | EmptyString => true
  | String c rest => is_space c && all_space rest
  end.

Fixpoint rstrip (s : string) : string :=
  match s with
  | EmptyString => EmptyString
  | String c rest => if all_space s then EmptyString else String c (rstrip rest)
  end.

(** [s.strip()]. *)
Definition strip (s : string) : string := rstrip (lstrip s).

(** Python truthiness of a string: [not s] holds for the empty string. *)
Definition is_empty (s : string) : bool :=
  match s with
  | EmptyString => true
  | String _ _ => false
  end.

(** [sep.join(parts)]. *)
Fixpoint join (sep : string) (parts : list string) : string :=
  match parts with
  | [] => EmptyString
  | [p] => p
  | p :: rest => p ++ sep ++ join sep rest
  end.

(** Line boundaries of [str.splitlines] in the ASCII range:
    LF, VT, FF, CR, FS, GS, RS (CR LF counts once). *)
Definition is_linebreak (c : ascii) : bool :=
  let n := nat_of_ascii c in
  ((10 <=? n)%nat && (n <=? 13)%nat) || ((28 <=? n)%nat && (n <=? 30)%nat).

(** [splitlines_aux cur s]: [cur] is the line read so far. *)
Fixpoint splitlines_aux (cur : string) (s : string) : list string :=
  match s with
  | EmptyString =>
      if is_empty cur then [] else [cur]
  | String c rest =>
      if is_linebreak c then
        match nat_of_ascii c, rest with
        | 13, String c' rest' =>
            if (nat_of_ascii c' =? 10)%nat
            then cur :: splitlines_aux EmptyString rest'
            else cur :: splitlines_aux EmptyString rest
        | _, _ => cur :: splitlines_aux EmptyString rest
        end
      else splitlines_aux (cur ++ String c EmptyString) rest
  end.

(** [s.splitlines()]. *)
Definition splitlines (s : string) : list string := splitlines_aux EmptyString s.

(** [s.split("  ")]: cut at each non-overlapping pair of spaces, from the
    left; always at least one piece. *)
Fixpoint split2_aux (cur : string) (s : string) : list string :=
  match s with
  | EmptyString => [cur]
  | String c rest =>
      match rest with
      | String c' rest' =>
          if (nat_of_ascii c =? 32)%nat && (nat_of_ascii c' =? 32)%nat
          then cur :: split2_aux EmptyString rest'
          else split2_aux (cur ++ String c EmptyString) rest
      | EmptyString => [cur ++ String c EmptyString]
      end
  end.

Definition split_two_spaces (s : string) : list string := split2_aux EmptyString s.

(** Does [s] start with [p]? *)
Fixpoint startswith (p s : string) : bool :=
  match p, s with
  | EmptyString, _ => true
  | String a p', String b s' => (nat_of_ascii a =? nat_of_ascii b)%nat && startswith p' s'
  | String _ _, EmptyString => false
  end.

(** [nth_is_nonspace n s]: [s] has a character at offset [n] and it is not
    white space. *)
Fixpoint nth_is_nonspace (n : nat) (s : string) : bool :=
  match n, s with
  | _, EmptyString => false
  | O, String c _ => negb (is_space c)
  | S n', String _ rest => nth_is_nonspace n' rest
  end.

(** Length of the prefix [http[s]?://] when the regular expression
    [http[s]?://\S+] matches at the head of [s], 0 otherwise. *)
Definition url_prefix (s : string) : nat :=
  if startswith "https://" s && nth_is_nonspace 8 s then 8
  else if startswith "http://" s && nth_is_nonspace 7 s then 7
  else 0.

(** [re.sub(r'http[s]?://\S+', '', s)].  [skip] characters of a matched
    prefix are still to be dropped; [in_url] says that the greedy [\S+]
    is being consumed. *)
Fixpoint remove_urls_aux (skip : nat) (in_url : bool) (s : string) : string :=
  match s with
  | EmptyString => EmptyString
  | String c rest =>
      match skip with
      | S k => remove_urls_aux k in_url rest
      | O =>
          if in_url && negb (is_space c) then remove_urls_aux 0 true rest
          else
            match url_prefix s with
            | O => String c (remove_urls_aux 0 false rest)
            | S k => remove_urls_aux k true rest
            end
      end
  end.

Definition remove_urls (s : string) : string := remove_urls_aux 0 false s.

(** [re.sub(r'\s+', ' ', s)]: [prev] says that the previous character was
    white space (its run has already produced one space). *)
Fixpoint collapse_aux (prev : bool) (s : string) : string :=
  match s with
  | EmptyString => EmptyString
  | String c rest =>
      if is_space c then
        if prev then collapse_aux true rest
        else String " "%char (collapse_aux true rest)
      else String c (collapse_aux false rest)
  end.

Definition collapse_spaces (s : string) : string := collapse_aux false s.

(** [needle in haystack] on strings. *)
Fixpoint contains (needle haystack : string) : bool :=
  startswith needle haystack ||
  match haystack with
  | EmptyString => false
  | String _ rest => contains needle rest
  end.

Definition is_upper (c : ascii) : bool :=
  let n := nat_of_ascii c in (65 <=? n)%nat && (n <=? 90)%nat.

Definition is_lower (c : ascii) : bool :=
  let n := nat_of_ascii c in (97 <=? n)%nat && (n <=? 122)%nat.

Definition to_upper (c : ascii) : ascii :=
  if is_lower c then ascii_of_nat (nat_of_ascii c - 32) else c.

Definition to_lower (c : ascii) : ascii :=
  if is_upper c then ascii_of_nat (nat_of_ascii c + 32) else c.

(** [s.title()]: a letter that follows a letter is lowered, any other
    letter is raised. *)
Fixpoint title_aux (prev_cased : bool) (s : string) : string :=
  match s with
  | EmptyString => EmptyString
  | String c rest =>
      if is_upper c || is_lower c
      then String (if prev_cased then to_lower c else to_upper c) (title_aux true rest)
      else String c (title_aux false rest)
  end.

Definition title (s : string) : string := title_aux false s.

(** The characters of [s], one string each (iterating over a string). *)
Fixpoint chars (s : string) : list string :=
  match s with
  | EmptyString => []
  | String c rest => String c EmptyString :: chars rest
  end.

End Str.

(** ** [config.py] *)

Definition VECTOR_DIMENSION : nat := 1536.

(** [SIMILARITY_THRESHOLD = 0.85]; scores are rationals here. *)
Definition SIMILARITY_THRESHOLD : Q := (85 # 100)%Q.

Definition ENABLE_SLACK_NOTIFICATIONS : bool := true.

(** ** Data model *)

(** A lead dictionary.  A document of the [leads] collection is such a
    dictionary too (with [vector_embedding] and [created_at]); the [_id]
    that the document store adds is left out. *)
Record Lead : Type := mkLead {
  lead_id : option string;
  lead_title : option string;
  lead_url : option string;
  lead_description : option string;
  lead_raw_description : option string;
  lead_source : option string;
  lead_company : option string;
  lead_category : option string;
  lead_timestamp : option string;
  lead_relevance_score : option Z;
  lead_relevance_explanation : option string;
  lead_value_types : option string;
  lead_action_items : option string;
  lead_csm_value_explanation : option string;
  lead_vector_embedding : option (list Q);
  lead_created_at : option string
}.

(** A value of a metadata dictionary sent to the vector index. *)
Inductive meta_value : Type :=
| MStr (s : string)
| MInt (z : Z)
| MList (l : list string).

Definition Metadata : Type := list (string * meta_value).

(** An entry of the vector index: [(id, vector, metadata)]. *)
Record Vector : Type := mkVector {
  vec_id : string;
  vec_values : list Q;
  vec_metadata : Metadata
}.

(** A match returned by a nearest-neighbour query. *)
Record Match : Type := mkMatch {
  match_id : string;
  match_score : Q;
  match_metadata : Metadata
}.

(** Result of the relevance evaluation: the arguments of the tool call,
    which carry the three fields that the tool's schema requires. *)
Record Relevance : Type := mkRelevance {
  is_relevant : bool;
  relevance_score : Z;
  relevance_explanation : string
}.

(** Result of the value evaluation: the arguments of the tool call, with
    the four fields that the tool's schema requires. *)
Record CsmValue : Type := mkCsmValue {
  is_valuable : bool;
  value_type : list string;
  action_items : list string;
  value_explanation : string
}.

(** A decoded JSON value. *)
Inductive json : Type :=
| JNull
| JBool (b : bool)
| JInt (z : Z)
| JStr (s : string)
| JArr (items : list json)
| JObj (members : list (string * json)).

(** What the message-generation call of the notifier comes back with. *)
Inductive Completion : Type :=
| CompletionRaises                     (* building the prompt or the API call raises *)
| CompletionNoToolCalls                (* no response, choices, message or tool calls *)
| CompletionNoArguments                (* a tool call without arguments *)
| CompletionBadJson                    (* [json.loads] raises [JSONDecodeError] *)
| CompletionPayload (payload : json).  (* the decoded arguments *)

(** An entry of the news feed. *)
Record FeedEntry : Type := mkFeedEntry {
  entry_title : string;
  entry_description : option string;
  entry_link : string
}.

(** ** The two stores, and the calls that were made *)

(** Calls that write to a store or to the webhook, with their outcome. *)
Inductive Event : Type :=
| MongoInsert (doc : Lead) (ok : bool)
| MongoDelete (id : string) (ok : bool)
| PineconeUpsert (id : string) (ok : bool)
| SlackPost (text : string) (status : option Z).

Record Store : Type := mkStore {
  leads : list Lead;      (* the [leads] collection, in insertion order *)
  index : list Vector;    (* the vector index *)
  drawn : nat             (* how many identifiers [uuid4] has handed out *)
}.

Definition set_leads (st : Store) (docs : list Lead) : Store :=
  mkStore docs (index st) (drawn st).

Definition set_index (st : Store) (idx : list Vector) : Store :=
  mkStore (leads st) idx (drawn st).

(** ** The environment: what the services outside the program answer

    One run of a function sees one state of each service: a kind of call
    that goes through once in a run goes through every time in that run,
    and the embedding and generation services answer the same request the
    same way.  Between two runs the environment may change. *)

Record Env : Type := mkEnv {
  (* embedding service: [None] when the call raises *)
  embeddings_create : string -> option (list Q);
  (* text generation: the content of the first choice for the summary, the
     decoded arguments of the tool call for the two evaluations; [None] when
     the call raises or the answer cannot be read *)
  chat_summary : string -> option string;
  chat_relevance : string -> string -> string -> option Relevance;
  chat_csm_value : string -> string -> string -> option CsmValue;
  chat_message : Lead -> Completion;
  (* vector index: its metric, and whether a call goes through *)
  similarity : list Q -> list Q -> Q;
  pinecone_query_ok : bool;
  pinecone_upsert_ok : bool;
  (* document store: whether a call goes through *)
  mongo_find_ok : bool;
  mongo_insert_ok : bool;
  mongo_delete_ok : bool;
  (* webhook: the status code, [None] when the request raises *)
  requests_post : string -> string -> option Z;
  (* configuration read from the process environment *)
  SLACK_WEBHOOK_URL : option string;
  (* library functions; [uuid4 n] is the n-th identifier handed out *)
  uuid4 : nat -> string;
  now : string;
  json_dumps : list string -> string;
  py_repr : json -> string;
  html_unescape : string -> string;
  soup_get_text : string -> option string;
  feed_entries : string -> string -> option (list FeedEntry)
}.

(** ** Computations: state passing with exceptions and a log of calls *)

Definition M (A : Type) : Type := Store -> result A * Store * list Event.

Definition ret {A : Type} (a : A) : M A := fun st => (Ok a, st, []).

Definition raise {A : Type} (e : exn) : M A := fun st => (Raise e, st, []).

Definition bind {A B : Type} (m : M A) (k : A -> M B) : M B :=
  fun st =>
    match m st with
    | (Ok a, st1, ev1) =>
        match k a st1 with
        | (r, st2, ev2) => (r, st2, (ev1 ++ ev2)%list)
        end
    | (Raise e, st1, ev1) => (Raise e, st1, ev1)
    end.

(** [try: m except Exception as e: handler e]. *)
Definition try_except {A : Type} (m : M A) (handler : exn -> M A) : M A :=
  fun st =>
    match m st with
    | (Ok a, st1, ev1) => (Ok a, st1, ev1)
    | (Raise e, st1, ev1) =>
        match handler e st1 with
        | (r, st2, ev2) => (r, st2, (ev1 ++ ev2)%list)
        end
    end.

(** A step that touches no store. *)
Definition lift {A : Type} (r : result A) : M A := fun st => (r, st, []).

(** [str(uuid.uuid4())]. *)
Definition new_uuid (env : Env) : M string :=
  fun st => (Ok (uuid4 env (drawn st)), mkStore (leads st) (index st) (S (drawn st)), []).

(** [try ... except] around code that touches no store. *)
Definition try_result {A : Type} (r : result A) (handler : exn -> result A) : result A :=
  match r with
  | Ok a => Ok a
  | Raise e => handler e
  end.

Definition bind_result {A B : Type} (r : result A) (k : A -> result B) : result B :=
  match r with
  | Ok a => k a
  | Raise e => Raise e
  end.

Declare Scope py_scope.
Delimit Scope py_scope with py.
Notation "x <- m ;; k" := (bind m (fun x => k))
  (at level 100, m at next level, right associativity) : py_scope.
Notation "m ;;; k" := (bind m (fun _ => k))
  (at level 100, right associativity) : py_scope.
Open Scope py_scope.

(** Projections of a run. *)
Definition value_of {A : Type} (run : result A * Store * list Event) : result A :=
  fst (fst run).
Definition store_of {A : Type} (run : result A * Store * list Event) : Store :=
  snd (fst run).
Definition events_of {A : Type} (run : result A * Store * list Event) : list Event :=
  snd run.

(** Python's [a > b] on scores. *)
Definition Qgtb (a b : Q) : bool := negb (Qle_bool a b).

Definition option_string_eqb (a b : option string) : bool :=
  match a, b with
  | Some x, Some y => String.eqb x y
  | None, None => true
  | _, _ => false
  end.

(** ** The vector index as the program sees it (the client library) *)

Module Pinecone.

Definition to_match (env : Env) (query : list Q) (v : Vector) : Match :=
  mkMatch (vec_id v) (similarity env query (vec_values v)) (vec_metadata v).

(** Matches come back best first. *)
Fixpoint insert_by_score (m : Match) (ms : list Match) : list Match :=
  match ms with
  | [] => [m]
  | m' :: rest =>
      if Qle_bool (match_score m') (match_score m)
      then m :: m' :: rest
      else m' :: insert_by_score m rest
  end.

Definition ranked (env : Env) (query : list Q) (idx : list Vector) : list Match :=
  fold_right (fun v acc => insert_by_score (to_match env query v) acc) [] idx.

(** [index.query(vector=..., top_k=..., include_metadata=True)["matches"]]. *)
Definition query (env : Env) (vector : list Q) (top_k : nat) : M (list Match) :=
  fun st =>
    if pinecone_query_ok env
    then (Ok (firstn top_k (ranked env vector (index st))), st, [])
    else (Raise ServiceError, st, []).

(** An upsert replaces the entry that has the same id, or adds one. *)
Fixpoint put (v : Vector) (idx : list Vector) : list Vector :=
  match idx with
  | [] => [v]
  | w :: rest =>
      if String.eqb (vec_id w) (vec_id v) then v :: rest else w :: put v rest
  end.

(** [index.upsert(vectors=[(id, vector, metadata)])]. *)
Definition upsert (env : Env) (v : Vector) : M unit :=
  fun st =>
    if pinecone_upsert_ok env
    then (Ok tt, set_index st (put v (index st)), [PineconeUpsert (vec_id v) true])
    else (Raise ServiceError, st, [PineconeUpsert (vec_id v) false]).

End Pinecone.

(** ** The [leads] collection as the program sees it (the client library) *)

Module Mongo.

Definition has_url (url : option string) (d : Lead) : bool :=
  option_string_eqb (lead_url d) url.

Definition has_id (id : string) (d : Lead) : bool :=
  option_string_eqb (lead_id d) (Some id).

(** [leads.find_one({"url": url})]. *)
Definition find_one_by_url (env : Env) (url : string) : M (option Lead) :=
  fun st =>
    if mongo_find_ok env
    then (Ok (find (has_url (Some url)) (leads st)), st, [])
    else (Raise ServiceError, st, []).

(** [leads.insert_one(doc)] under the unique index on [url] that
    [MongoDBManager.__init__] creates. *)
Definition insert_one (env : Env) (doc : Lead) : M unit :=
  fun st =>
    if negb (mongo_insert_ok env) then (Raise ServiceError, st, [MongoInsert doc false])
    else if existsb (has_url (lead_url doc)) (leads st)
    then (Raise DuplicateKeyError, st, [MongoInsert doc false])
    else (Ok tt, set_leads st (leads st ++ [doc])%list, [MongoInsert doc true]).

(** [leads.find_one({"_id": result.inserted_id})] right after the insert
    of [doc]. *)
Definition find_one_inserted (env : Env) (doc : Lead) : M (option Lead) :=
  fun st =>
    if mongo_find_ok env
    then (Ok (Some doc), st, [])
    else (Raise ServiceError, st, []).

(** Remove the first document that satisfies [p]. *)
Fixpoint remove_first (p : Lead -> bool) (docs : list Lead) : list Lead :=
  match docs with
  | [] => []
  | d :: rest => if p d then rest else d :: remove_first p rest
  end.

(** [leads.delete_one({"id": id})]. *)
Definition delete_one (env : Env) (id : string) : M unit :=
  fun st =>
    if mongo_delete_ok env
    then (Ok tt, set_leads st (remove_first (has_id id) (leads st)), [MongoDelete id true])
    else (Raise ServiceError, st, [MongoDelete id false]).

End Mongo.

(** ** [embeddings/vector_store.py] *)

Module VectorStore.

(** [generate_embedding]: the handler logs and re-raises. *)
Definition generate_embedding (env : Env) (text : string) : result (list Q) :=
  if Str.is_empty (Str.strip text) then Raise ValueError
  else
    match embeddings_create env text with
    | None => Raise ServiceError
    | Some embedding =>
        if negb (length embedding =? VECTOR_DIMENSION)%nat then Raise ValueError
        else Ok embedding
    end.

Definition is_nil {A : Type} (l : list A) : bool :=
  match l with
  | [] => true
  | _ :: _ => false
  end.

Definition insert_vector (env : Env) (id : string) (vector : list Q)
    (metadata : Metadata) : M bool :=
  try_except
    (if Str.is_empty id || is_nil vector || is_nil metadata
     then raise ValueError
     else Pinecone.upsert env (mkVector id vector metadata) ;;; ret true)
    (fun _ => ret false).

Definition find_similar (env : Env) (vector : list Q) (top_k : nat) : M (list Match) :=
  try_except
    (if is_nil vector then raise ValueError
     else Pinecone.query env vector top_k)
    (fun _ => ret []).

Definition check_duplicate (env : Env) (text : string) (threshold : Q)
    : M (option Match) :=
  try_except
    (if Str.is_empty (Str.strip text) then raise ValueError
     else
       embedding <- lift (generate_embedding env text) ;;
       results <- find_similar env embedding 1 ;;
       match results with
       | m :: _ => if Qgtb (match_score m) threshold then ret (Some m) else ret None
       | [] => ret None
       end)
    (fun _ => ret None).

End VectorStore.

(** ** [database/supabase_client.py]: [MongoDBManager] *)

Module MongoDBManager.

Definition insert_lead (env : Env) (lead_data : Lead) (vector_embedding : list Q)
    : M (option Lead) :=
  try_except
    (id <- lift (getitem (lead_id lead_data)) ;;
     title <- lift (getitem (lead_title lead_data)) ;;
     url <- lift (getitem (lead_url lead_data)) ;;
     company <- lift (getitem (lead_company lead_data)) ;;
     let data :=
       {| lead_id := Some id;
          lead_title := Some title;
          lead_url := Some url;
          lead_description := Some (get (lead_description lead_data) "");
          lead_raw_description := None;
          lead_source := Some (get (lead_source lead_data) "unknown");
          lead_company := Some company;
          lead_category := Some (get (lead_category lead_data) "unknown");
          lead_timestamp := Some (get (lead_timestamp lead_data) (now env));
          lead_relevance_score := lead_relevance_score lead_data;
          lead_relevance_explanation := lead_relevance_explanation lead_data;
          lead_value_types := lead_value_types lead_data;
          lead_action_items := lead_action_items lead_data;
          lead_csm_value_explanation := lead_csm_value_explanation lead_data;
          lead_vector_embedding := Some vector_embedding;
          lead_created_at := Some (now env) |} in
     Mongo.insert_one env data ;;;
     Mongo.find_one_inserted env data)
    (fun _ => ret None).

Definition get_lead_by_url (env : Env) (url : string) : M (option Lead) :=
  try_except (Mongo.find_one_by_url env url) (fun _ => ret None).

(** Modelled from the spec: [store_lead], which [main.py] and
    [company_scraper.py] call on the manager they import from
    [database.mongo_client]; that module is not among the sources.  The
    document store's [insert(record)] inserts the full lead record and
    hands back the stored record, or nothing when the insert fails; the one
    manager in the sources does this in [insert_lead]. *)
Definition store_lead (env : Env) (lead : Lead) (embedding : list Q)
    : M (option Lead) :=
  insert_lead env lead embedding.

(** Modelled from the spec: [leads.delete_one({"id": id})] on that same
    manager, the document store's [delete(id)]. *)
Definition leads_delete_one (env : Env) (id : string) : M unit :=
  Mongo.delete_one env id.

End MongoDBManager.

(** ** [notifications/notifier.py]: [LeadNotifier] *)

Module LeadNotifier.

Record t : Type := mkNotifier {
  webhook_url : option string;
  slack_enabled : bool
}.

(** [__init__]: [slack_enabled = ENABLE_SLACK_NOTIFICATIONS and
    SLACK_WEBHOOK_URL is not None]. *)
Definition init (enable : bool) (url : option string) : t :=
  mkNotifier url
    (enable && match url with Some _ => true | None => false end).

Definition required_fields : list string :=
  ["greeting"; "main_points"; "action_suggestions"; "urgency_level"].

Definition json_is_str (field : string) (j : json) : bool :=
  match j with
  | JStr s => String.eqb s field
  | _ => false
  end.

(** [field in message_structure]. *)
Definition contains (field : string) (message_structure : json) : result bool :=
  match message_structure with
  | JObj members => Ok (existsb (fun kv => String.eqb (fst kv) field) members)
  | JArr items => Ok (existsb (json_is_str field) items)
  | JStr s => Ok (Str.contains field s)
  | JNull | JBool _ | JInt _ => Raise TypeError
  end.

(** [all(field in message_structure for field in fields)]. *)
Fixpoint all_in (fields : list string) (message_structure : json) : result bool :=
  match fields with
  | [] => Ok true
  | field :: rest =>
      bind_result (contains field message_structure)
        (fun b => if b then all_in rest message_structure else Ok false)
  end.

(** [message_structure.get(key, default)]; the keys of a decoded object
    are distinct. *)
Fixpoint lookup (key : string) (members : list (string * json)) : option json :=
  match members with
  | [] => None
  | (k, v) :: rest => if String.eqb k key then Some v else lookup key rest
  end.

Definition dict_get (message_structure : json) (key : string) (default : json)
    : result json :=
  match message_structure with
  | JObj members => Ok (get (lookup key members) default)
  | _ => Raise AttributeError
  end.

(** [f"{value}"]. *)
Definition format (env : Env) (value : json) : string :=
  match value with
  | JStr s => s
  | _ => py_repr env value
  end.

(** [for x in value]. *)
Definition iterate (value : json) : result (list json) :=
  match value with
  | JArr items => Ok items
  | JStr s => Ok (map JStr (Str.chars s))
  | JObj members => Ok (map (fun kv => JStr (fst kv)) members)
  | JNull | JBool _ | JInt _ => Raise TypeError
  end.

Definition urgency_emoji (urgency_level : string) : string :=
  if String.eqb urgency_level "high" then "🚨"
  else if String.eqb urgency_level "medium" then "⚡"
  else if String.eqb urgency_level "low" then "ℹ️"
  else "ℹ️".

(** The last line of the message: the look-up in [urgency_emojis] needs a
    hashable key, [.title()] needs a string. *)
Definition urgency_line (urgency_level : json) : result string :=
  match urgency_level with
  | JStr s => Ok (urgency_emoji s ++ " *Urgency Level:* " ++ Str.title s)
  | JArr _ | JObj _ => Raise TypeError
  | JNull | JBool _ | JInt _ => Raise AttributeError
  end.

(** ["\n".join(message_parts)] needs every part to be a string; only the
    greeting may fail to be one. *)
Definition as_part (greeting : json) : result string :=
  match greeting with
  | JStr s => Ok s
  | _ => Raise TypeError
  end.

Definition _generate_fallback_message (lead : Lead) : result string :=
  bind_result (getitem (lead_company lead)) (fun company =>
  bind_result (getitem (lead_url lead)) (fun url =>
  bind_result (getitem (lead_title lead)) (fun title =>
  Ok ("🔍 *New Lead Alert for " ++ company ++ "*
<" ++ url ++ "|" ++ title ++ ">

Check the article for potential opportunities.")))).

(** The message built from a payload that has the four fields. *)
Definition format_message (env : Env) (lead : Lead) (message_structure : json)
    : result string :=
  bind_result (dict_get message_structure "greeting" (JStr "Hi CSM team!")) (fun greeting =>
  bind_result (dict_get message_structure "main_points" (JArr [])) (fun main_points =>
  bind_result (iterate main_points) (fun points =>
  bind_result (dict_get message_structure "action_suggestions" (JArr [])) (fun suggestions =>
  bind_result (iterate suggestions) (fun actions =>
  bind_result (dict_get message_structure "urgency_level" (JStr "low")) (fun urgency_level =>
  bind_result (urgency_line urgency_level) (fun last_line =>
  bind_result (as_part greeting) (fun first_line =>
  let header := "🔍 *New Lead Alert for " ++ get (lead_company lead) "Unknown Company" ++ "*" in
  let link := "<" ++ get (lead_url lead) "#" ++ "|" ++ get (lead_title lead) "No Title" ++ ">" in
  let why := map (fun point => "• " ++ format env point) points in
  let todo := map (fun action => "📌 " ++ format env action) actions in
  Ok (Str.join "
" (List.app [first_line; ""; header; link; ""; "*Why this matters:*"]
   (List.app why
   (List.app [""; "*Suggested Actions:*"]
   (List.app todo [""; last_line]))))))))))))).

Definition _generate_slack_message (env : Env) (lead : Lead) : result string :=
  try_result
    (match chat_message env lead with
     | CompletionRaises => Raise ServiceError
     | CompletionNoToolCalls => _generate_fallback_message lead
     | CompletionNoArguments => _generate_fallback_message lead
     | CompletionBadJson => _generate_fallback_message lead
     | CompletionPayload message_structure =>
         bind_result (all_in required_fields message_structure) (fun complete =>
         if negb complete then _generate_fallback_message lead
         else format_message env lead message_structure)
     end)
    (fun _ => _generate_fallback_message lead).

(** [requests.post(webhook_url, json={"text": message, ...}, timeout=5)]. *)
Definition post (env : Env) (url : option string) (message : string) : M Z :=
  fun st =>
    match url with
    | None => (Raise ServiceError, st, [])
    | Some u =>
        match requests_post env u message with
        | Some status => (Ok status, st, [SlackPost message (Some status)])
        | None => (Raise ServiceError, st, [SlackPost message None])
        end
    end.

Definition send_slack_notification (self : t) (env : Env) (lead : Lead) : M bool :=
  if negb (slack_enabled self) then ret false
  else
    try_except
      (message <- lift (_generate_slack_message env lead) ;;
       status_code <- post env (webhook_url self) message ;;
       if negb (status_code =? 200)%Z then ret false
       else
         (* the success line of the log reads lead['company'] and lead['title'] *)
         _ <- lift (getitem (lead_company lead)) ;;
         _ <- lift (getitem (lead_title lead)) ;;
         ret true)
      (fun _ => ret false).

Definition notify (self : t) (env : Env) (lead : Lead) : M bool :=
  let success := true in
  if slack_enabled self then
    slack_success <- send_slack_notification self env lead ;;
    ret (success && slack_success)
  else ret success.

End LeadNotifier.

(** ** [scrapers/company_scraper.py]: [CompanyScraper] *)

Module CompanyScraper.

Definition DESCRIPTION_PROMPT (content : string) : string :=
  "
Given the following article content, create a detailed, well-structured summary that:
1. Captures the main points and key information
2. Removes any HTML formatting or artifacts
3. Maintains professional language and tone
4. Highlights relevant business implications
5. Is between 200-400 words

Article content:
" ++ content ++ "

Please provide a clean, professional summary that could be used in a business context.
".

(** [COMPANY_RELATIONSHIPS]: category and the companies tracked for it. *)
Definition COMPANY_RELATIONSHIPS : list (string * list string) :=
  [ ("couchbase",
     ["Coca Cola"; "Delta Airlines"; "The Home Depot"; "IHG"; "Black Knight";
      "Veem"; "PWC"; "Accesso"; "Rollins"; "NCR Voyix"; "NCR Ateleos";
      "PGA Tour"; "Hard Rock"; "Equifax"; "Chick-fil-A"]);
    ("subkit",
     ["TRUFF"; "310 Nutrition"; "MUTHA"; "HiBAR"; "Viome"; "BIOHM";
      "Fulton Fish Market"; "EBOOST"; "Obvi"; "Kuli Kuli"; "Tiege Hanley";
      "MUD/WTR"; "GoPure"; "Wilde Chips"]);
    ("legion", ["Apple"; "Microsoft"; "Meta"]) ].

Fixpoint category_in (table : list (string * list string)) (company : string) : string :=
  match table with
  | [] => "unknown"
  | (category, companies) :: rest =>
      if existsb (String.eqb company) companies then category
      else category_in rest company
  end.

Definition _get_company_category (company : string) : string :=
  category_in COMPANY_RELATIONSHIPS company.

(** The white-space clean-up of [_clean_html_content]: strip every line,
    cut it at double spaces, strip the pieces, keep the non-empty ones. *)
Definition chunks (text : string) : list string :=
  filter (fun chunk => negb (Str.is_empty chunk))
    (flat_map (fun line => map Str.strip (Str.split_two_spaces line))
       (map Str.strip (Str.splitlines text))).

Definition _clean_html_content (env : Env) (html_content : string) : string :=
  match soup_get_text env html_content with
  | Some text =>
      let text := Str.join " " (chunks text) in
      let text := Str.remove_urls text in
      Str.strip (Str.collapse_spaces text)
  | None => html_content
  end.

Definition _generate_clean_description (env : Env) (content : string) : string :=
  let cleaned_content := _clean_html_content env content in
  let prompt := DESCRIPTION_PROMPT cleaned_content in
  match chat_summary env prompt with
  | Some message_content => Str.strip message_content
  | None => content
  end.

Definition _evaluate_article_relevance (env : Env) (company title content : string)
    : Relevance :=
  match chat_relevance env company title content with
  | Some evaluation => evaluation
  | None => mkRelevance false 0 "Error in evaluation"
  end.

Definition _evaluate_csm_value (env : Env) (company title content : string)
    : CsmValue :=
  match chat_csm_value env company title content with
  | Some evaluation => evaluation
  | None => mkCsmValue false ["none"] [] "Error in evaluation"
  end.

(** The body of the loop of [_fetch_news] for one feed entry: the lead to
    append, or [None] where the source says [continue]. *)
Definition fetch_entry (env : Env) (company : string) (entry : FeedEntry)
    : M (option Lead) :=
  let title := html_unescape env (entry_title entry) in
  let raw_description :=
    match entry_description entry with
    | Some d => html_unescape env d
    | None => ""
    end in
  let clean_description := _generate_clean_description env raw_description in
  let relevance := _evaluate_article_relevance env company title clean_description in
  if negb (is_relevant relevance) || (relevance_score relevance <? 50)%Z then ret None
  else
    let csm_value := _evaluate_csm_value env company title clean_description in
    if negb (is_valuable csm_value) then ret None
    else
      id <- new_uuid env ;;
      ret (Some
        {| lead_id := Some id;
           lead_title := Some title;
           lead_url := Some (entry_link entry);
           lead_description := Some clean_description;
           lead_raw_description := Some raw_description;
           lead_source := Some "Google News";
           lead_company := Some company;
           lead_category := Some (_get_company_category company);
           lead_timestamp := Some (now env);
           lead_relevance_score := Some (relevance_score relevance);
           lead_relevance_explanation := Some (relevance_explanation relevance);
           lead_value_types := Some (json_dumps env (value_type csm_value));
           lead_action_items := Some (json_dumps env (action_items csm_value));
           lead_csm_value_explanation := Some (value_explanation csm_value);
           lead_vector_embedding := None;
           lead_created_at := None |}).

Fixpoint fetch_loop (env : Env) (company : string) (entries : list FeedEntry)
    (found : list Lead) : M (list Lead) :=
  match entries with
  | [] => ret found
  | entry :: rest =>
      r <- try_except (fetch_entry env company entry) (fun _ => ret None) ;;
      match r with
      | Some lead => fetch_loop env company rest (found ++ [lead])%list
      | None => fetch_loop env company rest found
      end
  end.

Definition _fetch_news (env : Env) (company time_range : string) : M (list Lead) :=
  match feed_entries env company time_range with
  | Some entries => fetch_loop env company (firstn 10 entries) []
  | None => ret []
  end.

Definition lead_text (company title : string) (lead : Lead) : string :=
  company ++ " " ++ title ++ " " ++ get (lead_description lead) "".

Definition process_and_store_lead (env : Env) (lead : Lead) : M bool :=
  try_except
    (url <- lift (getitem (lead_url lead)) ;;
     existing_lead <- MongoDBManager.get_lead_by_url env url ;;
     match existing_lead with
     | Some _ => ret false
     | None =>
         company <- lift (getitem (lead_company lead)) ;;
         title <- lift (getitem (lead_title lead)) ;;
         let text := lead_text company title lead in
         embedding <- lift (VectorStore.generate_embedding env text) ;;
         duplicate <- VectorStore.check_duplicate env text SIMILARITY_THRESHOLD ;;
         match duplicate with
         | Some _ => ret false
         | None =>
             stored_lead <- MongoDBManager.store_lead env lead embedding ;;
             match stored_lead with
             | None => ret false
             | Some stored =>
                 id <- lift (getitem (lead_id lead)) ;;
                 vector_success <-
                   VectorStore.insert_vector env id embedding
                     [("title", MStr title);
                      ("url", MStr url);
                      ("source", MStr (get (lead_source lead) "unknown"));
                      ("company", MStr company)] ;;
                 if negb vector_success then
                   MongoDBManager.leads_delete_one env id ;;;
                   ret false
                 else
                   let notifier :=
                     LeadNotifier.init ENABLE_SLACK_NOTIFICATIONS (SLACK_WEBHOOK_URL env) in
                   _ <- LeadNotifier.notify notifier env stored ;;
                   ret true
             end
         end
     end)
    (fun _ => ret false).

End CompanyScraper.

(** ** [main.py]: [LeadDetectionSystem] *)

Module LeadDetectionSystem.

Definition set_id (lead : Lead) (id : string) : Lead :=
  {| lead_id := Some id;
     lead_title := lead_title lead;
     lead_url := lead_url lead;
     lead_description := lead_description lead;
     lead_raw_description := lead_raw_description lead;
     lead_source := lead_source lead;
     lead_company := lead_company lead;
     lead_category := lead_category lead;
     lead_timestamp := lead_timestamp lead;
     lead_relevance_score := lead_relevance_score lead;
     lead_relevance_explanation := lead_relevance_explanation lead;
     lead_value_types := lead_value_types lead;
     lead_action_items := lead_action_items lead;
     lead_csm_value_explanation := lead_csm_value_explanation lead;
     lead_vector_embedding := lead_vector_embedding lead;
     lead_created_at := lead_created_at lead |}.

(** [lead.update({...})] with the results of the two evaluations. *)
Definition update (env : Env) (lead : Lead) (relevance : Relevance) (csm_value : CsmValue)
    : Lead :=
  {| lead_id := lead_id lead;
     lead_title := lead_title lead;
     lead_url := lead_url lead;
     lead_description := lead_description lead;
     lead_raw_description := lead_raw_description lead;
     lead_source := lead_source lead;
     lead_company := lead_company lead;
     lead_category := lead_category lead;
     lead_timestamp := lead_timestamp lead;
     lead_relevance_score := Some (relevance_score relevance);
     lead_relevance_explanation := Some (relevance_explanation relevance);
     lead_value_types := Some (json_dumps env (value_type csm_value));
     lead_action_items := Some (json_dumps env (action_items csm_value));
     lead_csm_value_explanation := Some (value_explanation csm_value);
     lead_vector_embedding := lead_vector_embedding lead;
     lead_created_at := lead_created_at lead |}.

(** [csm_value["value_type"] == ["none"]]. *)
Definition is_only_none (value_type : list string) : bool :=
  match value_type with
  | [v] => String.eqb v "none"
  | _ => false
  end.

Definition process_lead (env : Env) (lead0 : Lead) : M bool :=
  try_except
    (lead <- match lead_id lead0 with
             | Some _ => ret lead0
             | None => id <- new_uuid env ;; ret (set_id lead0 id)
             end ;;
     title <- lift (getitem (lead_title lead)) ;;
     duplicate <- VectorStore.check_duplicate env title SIMILARITY_THRESHOLD ;;
     match duplicate with
     | Some _ => ret false
     | None =>
         company <- lift (getitem (lead_company lead)) ;;
         let description := get (lead_description lead) "" in
         let relevance :=
           CompanyScraper._evaluate_article_relevance env company title description in
         if negb (is_relevant relevance) || (relevance_score relevance <? 70)%Z
         then ret false
         else
           let csm_value :=
             CompanyScraper._evaluate_csm_value env company title description in
           if negb (is_valuable csm_value) || is_only_none (value_type csm_value)
           then ret false
           else
             let lead := update env lead relevance csm_value in
             let text := CompanyScraper.lead_text company title lead in
             embedding <- lift (VectorStore.generate_embedding env text) ;;
             stored_lead <- MongoDBManager.store_lead env lead embedding ;;
             match stored_lead with
             | None => ret false
             | Some stored =>
                 id <- lift (getitem (lead_id lead)) ;;
                 url <- lift (getitem (lead_url lead)) ;;
                 vector_success <-
                   VectorStore.insert_vector env id embedding
                     [("title", MStr title);
                      ("url", MStr url);
                      ("source", MStr (get (lead_source lead) "unknown"));
                      ("company", MStr company);
                      ("relevance_score", MInt (relevance_score relevance));
                      ("value_types", MList (value_type csm_value))] ;;
                 if negb vector_success then
                   MongoDBManager.leads_delete_one env id ;;;
                   ret false
                 else
                   let notifier :=
                     LeadNotifier.init ENABLE_SLACK_NOTIFICATIONS (SLACK_WEBHOOK_URL env) in
                   _ <- LeadNotifier.notify notifier env stored ;;
                   ret true
             end
     end)
    (fun _ => ret false).

Fixpoint count_successful (env : Env) (batch : list Lead) (successful : nat) : M nat :=
  match batch with
  | [] => ret successful
  | lead :: rest =>
      ok <- process_lead env lead ;;
      count_successful env rest (if ok then S successful else successful)
  end.

Definition process_leads (env : Env) (batch : list Lead) : M nat :=
  count_successful env batch 0.

End LeadDetectionSystem.

(** ** [app.py] *)

Module App.

(** The scan of [st.session_state.pending_leads]. *)
Fixpoint scan_pending (pending : list Lead) (lead : Lead) : result bool :=
  match pending with
  | [] => Ok false
  | pending_lead :: rest =>
      bind_result (getitem (lead_url pending_lead)) (fun pending_url =>
      bind_result (getitem (lead_url lead)) (fun url =>
      if String.eqb pending_url url then Ok true else scan_pending rest lead))
  end.

(** [check_duplicate_lead].  [pending] is [None] when the session state
    has no [pending_leads].  The handler calls [logger.error], and
    [app.py] neither defines nor imports a [logger]: the handler raises
    [NameError] before it reaches its [return False]. *)
Definition check_duplicate_lead (env : Env) (pending : option (list Lead))
    (lead : Lead) : M bool :=
  try_except
    (url <- lift (getitem (lead_url lead)) ;;
     existing <- MongoDBManager.get_lead_by_url env url ;;
     match existing with
     | Some _ => ret true
     | None =>
         company <- lift (getitem (lead_company lead)) ;;
         title <- lift (getitem (lead_title lead)) ;;
         let text := CompanyScraper.lead_text company title lead in
         duplicate <- VectorStore.check_duplicate env text SIMILARITY_THRESHOLD ;;
         match duplicate with
         | Some _ => ret true
         | None =>
             match pending with
             | Some pending_leads => lift (scan_pending pending_leads lead)
             | None => ret false
             end
         end
     end)
    (fun _ => raise NameError).

Fixpoint filter_duplicates (env : Env) (pending : option (list Lead))
    (batch : list Lead) : M (list Lead) :=
  match batch with
  | [] => ret []
  | lead :: rest =>
      dup <- check_duplicate_lead env pending lead ;;
      unique <- filter_duplicates env pending rest ;;
      ret (if dup then unique else lead :: unique)
  end.

End App.

(** * Vocabulary of the properties *)

(** An event of the webhook. *)
Definition is_slack_post (e : Event) : Prop :=
  match e with
  | SlackPost _ _ => True
  | _ => False
  end.

(** The ways a run of [store_lead] on [lead] from [st] can end. *)
Inductive StoreLeadRun (lead : Lead) (st : Store)
  : result (option Lead) * Store * list Event -> Prop :=
| store_not_attempted :
    StoreLeadRun lead st (Ok None, st, [])
| store_refused doc :
    StoreLeadRun lead st (Ok None, st, [MongoInsert doc false])
| store_inserted doc r :
    lead_id doc = lead_id lead ->
    lead_url doc = lead_url lead ->
    lead_id lead <> None ->
    existsb (Mongo.has_url (lead_url doc)) (leads st) = false ->
    r = None \/ r = Some doc ->
    StoreLeadRun lead st
      (Ok r, set_leads st (leads st ++ [doc])%list, [MongoInsert doc true]).

(** The ways a run of [insert_vector] for [id] from [st] can end. *)
Inductive InsertVectorRun (id : string) (st : Store)
  : result bool * Store * list Event -> Prop :=
| vector_rejected :
    InsertVectorRun id st (Ok false, st, [])
| vector_failed :
    InsertVectorRun id st (Ok false, st, [PineconeUpsert id false])
| vector_inserted v :
    vec_id v = id ->
    InsertVectorRun id st
      (Ok true, set_index st (Pinecone.put v (index st)), [PineconeUpsert id true]).

(** The ways a run of one of the two pipelines ([process_lead],
    [process_and_store_lead]) from [st] can end; [delete_ok] says whether
    a delete sent to the document store goes through. *)
Inductive PipelineRun (delete_ok : bool) (url : option string) (st : Store)
  : result bool * Store * list Event -> Prop :=
| run_rejected st' :
    leads st' = leads st -> index st' = index st ->
    PipelineRun delete_ok url st (Ok false, st', [])
| run_store_refused st' doc :
    leads st' = leads st -> index st' = index st ->
    PipelineRun delete_ok url st (Ok false, st', [MongoInsert doc false])
| run_store_lost st' doc :
    lead_url doc = url ->
    existsb (Mongo.has_url url) (leads st) = false ->
    leads st' = (leads st ++ [doc])%list -> index st' = index st ->
    PipelineRun delete_ok url st (Ok false, st', [MongoInsert doc true])
| run_compensated st' doc id upserts :
    lead_id doc = Some id ->
    lead_url doc = url ->
    existsb (Mongo.has_url url) (leads st) = false ->
    upserts = [] \/ upserts = [PineconeUpsert id false] ->
    leads st' =
      (if delete_ok
       then Mongo.remove_first (Mongo.has_id id) (leads st ++ [doc])%list
       else (leads st ++ [doc])%list) ->
    index st' = index st ->
    PipelineRun delete_ok url st
      (Ok false, st', (MongoInsert doc true :: upserts ++ [MongoDelete id delete_ok])%list)
| run_committed st' doc id v slack :
    lead_id doc = Some id ->
    lead_url doc = url ->
    existsb (Mongo.has_url url) (leads st) = false ->
    vec_id v = id ->
    leads st' = (leads st ++ [doc])%list ->
    index st' = Pinecone.put v (index st) ->
    Forall is_slack_post slack ->
    PipelineRun delete_ok url st
      (Ok true, st', (MongoInsert doc true :: PineconeUpsert id true :: slack)%list).

(** Number of documents of the collection that carry a given url. *)
Definition count_url (url : string) (docs : list Lead) : nat :=
  length (filter (Mongo.has_url (Some url)) docs).

(** No document of the collection carries the identifier [id]. *)
Definition id_absent (id : string) (docs : list Lead) : Prop :=
  forall d, In d docs -> lead_id d <> Some id.

(** The two evaluations as [process_lead] asks for them. *)
Definition relevance_of (env : Env) (lead : Lead) : Relevance :=
  CompanyScraper._evaluate_article_relevance env
    (get (lead_company lead) "") (get (lead_title lead) "")
    (get (lead_description lead) "").

Definition csm_value_of (env : Env) (lead : Lead) : CsmValue :=
  CompanyScraper._evaluate_csm_value env
    (get (lead_company lead) "") (get (lead_title lead) "")
    (get (lead_description lead) "").

(** The text that the pipelines embed for a lead. *)
Definition embedded_text (lead : Lead) : string :=
  CompanyScraper.lead_text (get (lead_company lead) "") (get (lead_title lead) "") lead.

(** A run that returned [False] and wrote nothing: no call to a store or
    to the webhook, both stores as they were. *)
Definition discarded (st : Store) (run : result bool * Store * list Event) : Prop :=
  value_of run = Ok false /\
  events_of run = [] /\
  leads (store_of run) = leads st /\
  index (store_of run) = index st.

(** The title and the description that [_fetch_news] evaluates for an entry. *)
Definition entry_title_text (env : Env) (entry : FeedEntry) : string :=
  html_unescape env (entry_title entry).

Definition entry_description_text (env : Env) (entry : FeedEntry) : string :=
  CompanyScraper._generate_clean_description env
    match entry_description entry with
    | Some d => html_unescape env d
    | None => ""
    end.

Definition entry_relevance (env : Env) (company : string) (entry : FeedEntry) : Relevance :=
  CompanyScraper._evaluate_article_relevance env company
    (entry_title_text env entry) (entry_description_text env entry).

Definition entry_csm_value (env : Env) (company : string) (entry : FeedEntry) : CsmValue :=
  CompanyScraper._evaluate_csm_value env company
    (entry_title_text env entry) (entry_description_text env entry).

(** [lead] is what [_fetch_news] makes of [entry]. *)
Definition lead_from (env : Env) (company : string) (entry : FeedEntry) (lead : Lead) : Prop :=
  lead_url lead = Some (entry_link entry) /\
  lead_title lead = Some (entry_title_text env entry) /\
  lead_description lead = Some (entry_description_text env entry) /\
  lead_company lead = Some company /\
  lead_relevance_score lead = Some (relevance_score (entry_relevance env company entry)).

(** The fixed-template message, from a lead's company, url and title. *)
Definition fallback_text (company url title : string) : string :=
  "🔍 *New Lead Alert for " ++ company ++ "*
<" ++ url ++ "|" ++ title ++ ">

Check the article for potential opportunities.".


(** The answers of the message-generation call that the notifier cannot
    use: the call fails, carries no tool call, no arguments or no JSON; the
    payload is not an object, or is an object that lacks a required field,
    or has the four fields with values that the formatting cannot take. *)
Inductive Malformed (env : Env) (lead : Lead) : Completion -> Prop :=
| malformed_raises : Malformed env lead CompletionRaises
| malformed_no_tool_calls : Malformed env lead CompletionNoToolCalls
| malformed_no_arguments : Malformed env lead CompletionNoArguments
| malformed_bad_json : Malformed env lead CompletionBadJson
| malformed_missing_field members field :
    In field LeadNotifier.required_fields ->
    LeadNotifier.lookup field members = None ->
    Malformed env lead (CompletionPayload (JObj members))
| malformed_not_object payload :
    (forall members, payload <> JObj members) ->
    Malformed env lead (CompletionPayload payload)
| malformed_values payload e :
    LeadNotifier.format_message env lead payload = Raise e ->
    Malformed env lead (CompletionPayload payload).

(** The two gates of [_fetch_news] on a feed entry. *)
Definition qualifies (env : Env) (company : string) (entry : FeedEntry) : bool :=
  is_relevant (entry_relevance env company entry)
  && (50 <=? relevance_score (entry_relevance env company entry))%Z
  && is_valuable (entry_csm_value env company entry).

(** [insert_vector] cannot succeed for [id]: the index refuses the
    upsert, or [id] is empty (and then no upsert is sent at all). *)
Definition vector_insert_fails (env : Env) (id : string) : Prop :=
  pinecone_upsert_ok env = false \/ id = "".

(** * Concrete services and leads, for the examples *)

Module Examples.

Definition ones : list Q := repeat 1%Q VECTOR_DIMENSION.

(** A feed with two entries for one company. *)
Definition feed : list FeedEntry :=
  [ mkFeedEntry "Acme raises a round" (Some "Acme  raised money") "http://x/1";
    mkFeedEntry "Acme opens an office" None "http://x/2" ].

(** Services described by what varies between the examples: the score the
    index reports, which calls go through, and what the embedding and the
    generation calls answer. *)
Definition services (score : Q)
    (query_ok upsert_ok find_ok insert_ok delete_ok : bool)
    (embedding : option (list Q))
    (relevance : option Relevance) (csm_value : option CsmValue)
    (summary : option string) (completion : Completion) (status : option Z) : Env :=
  {| embeddings_create := fun _ => embedding;
     chat_summary := fun _ => summary;
     chat_relevance := fun _ _ _ => relevance;
     chat_csm_value := fun _ _ _ => csm_value;
     chat_message := fun _ => completion;
     similarity := fun _ _ => score;
     pinecone_query_ok := query_ok;
     pinecone_upsert_ok := upsert_ok;
     mongo_find_ok := find_ok;
     mongo_insert_ok := insert_ok;
     mongo_delete_ok := delete_ok;
     requests_post := fun _ _ => status;
     SLACK_WEBHOOK_URL := Some "https://hooks.example/T";
     uuid4 := fun n => String (ascii_of_nat (97 + n)) "-uuid";
     now := "2025-01-01T00:00:00";
     json_dumps := fun items => "[" ++ Str.join ", " items ++ "]";
     py_repr := fun _ => "?";
     html_unescape := fun s => s;
     soup_get_text := fun s => Some s;
     feed_entries := fun _ _ => Some feed |}.

Definition relevant (score : Z) : option Relevance :=
  Some (mkRelevance true score "about the company").

Definition valuable : option CsmValue :=
  Some (mkCsmValue true ["funding_round"] ["congratulate"] "a new round").

(** Everything up; the index reports [score] for every stored vector. *)
Definition all_up (score : Q) : Env :=
  services score true true true true true (Some ones)
    (relevant 85) valuable (Some "A summary.") CompletionRaises (Some 200%Z).

(** The vector index refuses writes. *)
Definition upsert_down : Env :=
  services 0%Q true false true true true (Some ones)
    (relevant 85) valuable (Some "A summary.") CompletionRaises (Some 200%Z).

Definition lead_of (id title url : string) : Lead :=
  {| lead_id := Some id;
     lead_title := Some title;
     lead_url := Some url;
     lead_description := Some "Acme raised money";
     lead_raw_description := None;
     lead_source := Some "Google News";
     lead_company := Some "Acme";
     lead_category := None;
     lead_timestamp := None;
     lead_relevance_score := None;
     lead_relevance_explanation := None;
     lead_value_types := None;
     lead_action_items := None;
     lead_csm_value_explanation := None;
     lead_vector_embedding := None;
     lead_created_at := None |}.

Definition lead_a : Lead := lead_of "lead-a" "Acme raises a round" "http://x/1".
Definition lead_b : Lead := lead_of "lead-b" "Acme closes its round" "http://x/2".

Definition empty_store : Store := mkStore [] [] 0.

(** The document that a run inserted first, if any. *)
Definition first_inserted (run : result bool * Store * list Event) : option Lead :=
  match events_of run with
  | MongoInsert doc _ :: _ => Some doc
  | _ => None
  end.

(** The relevance evaluation answers [score], flag set. *)
Definition scoring (score : Z) : Env :=
  services 0%Q true true true true true (Some ones)
    (relevant score) valuable (Some "A summary.") CompletionRaises (Some 200%Z).

(** The value evaluation names a value type and still says "not valuable". *)
Definition not_valuable : Env :=
  services 0%Q true true true true true (Some ones)
    (relevant 85) (Some (mkCsmValue false ["funding_round"] ["congratulate"] "none really"))
    (Some "A summary.") CompletionRaises (Some 200%Z).

(** The embedding service answers with three numbers. *)
Definition short_embedding : Env :=
  services 0%Q true true true true true (Some [0%Q; 0%Q; 0%Q])
    (relevant 85) valuable (Some "A summary.") CompletionRaises (Some 200%Z).

(** The generation call answers with a payload without [urgency_level];
    the webhook answers [status]. *)
Definition incomplete_payload (status : option Z) : Env :=
  services 0%Q true true true true true (Some ones)
    (relevant 85) valuable (Some "A summary.")
    (CompletionPayload
       (JObj [("greeting", JStr "Hi team");
              ("main_points", JArr [JStr "a round"]);
              ("action_suggestions", JArr [])]))
    status.

Definition slack_on : LeadNotifier.t :=
  LeadNotifier.init true (Some "https://hooks.example/T").

(** The summary call fails. *)
Definition summary_down : Env :=
  services 0%Q true true true true true (Some ones)
    (relevant 85) valuable None CompletionRaises (Some 200%Z).

(** A feed description without markup: two spaces in a row and a link. *)
Definition raw_text : string := "Read  more at http://x/1 now".

(** A lead dictionary without the key [url]. *)
Definition lead_without_url : Lead :=
  {| lead_id := Some "lead-c";
     lead_title := Some "Acme raises a round";
     lead_url := None;
     lead_description := Some "Acme raised money";
     lead_raw_description := None;
     lead_source := Some "Google News";
     lead_company := Some "Acme";
     lead_category := None;
     lead_timestamp := None;
     lead_relevance_score := None;
     lead_relevance_explanation := None;
     lead_value_types := None;
     lead_action_items := None;
     lead_csm_value_explanation := None;
     lead_vector_embedding := None;
     lead_created_at := None |}.

(** The document store answers no look-up. *)
Definition find_down : Env :=
  services 0%Q true true false true true (Some ones)
    (relevant 85) valuable (Some "A summary.") CompletionRaises (Some 200%Z).

(** [lead_a] submitted to the scraper's pipeline, and submitted again: with
    the look-up working, and with the look-up failing. *)
Definition first_run : result bool * Store * list Event :=
  CompanyScraper.process_and_store_lead (all_up 0%Q) lead_a empty_store.

Definition second_run : result bool * Store * list Event :=
  CompanyScraper.process_and_store_lead (all_up 0%Q) lead_a (store_of first_run).

Definition second_run_blind : result bool * Store * list Event :=
  CompanyScraper.process_and_store_lead find_down lead_a (store_of first_run).

(** The index scores every stored vector at [score] and answers no query. *)
Definition query_down (score : Q) : Env :=
  services score false true true true true (Some ones)
    (relevant 85) valuable (Some "A summary.") CompletionRaises (Some 200%Z).

(** Two leads with different urls, one after the other, with the same
    services for both. *)
Definition earlier_run (env : Env) : result bool * Store * list Event :=
  CompanyScraper.process_and_store_lead env lead_a empty_store.

Definition later_run (env : Env) : result bool * Store * list Event :=
  CompanyScraper.process_and_store_lead env lead_b (store_of (earlier_run env)).

(** The vector that the earlier run put into the index. *)
Definition earlier_vector (env : Env) : Vector :=
  hd (mkVector "" [] []) (index (store_of (earlier_run env))).

(** The leads of a run of [_fetch_news], [[]] when it raised. *)
Definition fetched (run : result (list Lead) * Store * list Event) : list Lead :=
  match value_of run with
  | Ok found => found
  | Raise _ => []
  end.

(** The scraper's pipeline on [lead_a] while the vector index is down. *)
Definition refused_run : result bool * Store * list Event :=
  CompanyScraper.process_and_store_lead upsert_down lead_a empty_store.

Definition refused_doc : Lead :=
  match first_inserted refused_run with
  | Some doc => doc
  | None => lead_a
  end.

(** [process_lead] on [lead_a] while the vector index is down. *)
Definition refused_run_main : result bool * Store * list Event :=
  LeadDetectionSystem.process_lead upsert_down lead_a empty_store.

Definition refused_doc_main : Lead :=
  match first_inserted refused_run_main with
  | Some doc => doc
  | None => lead_a
  end.

(** A lead whose [id] is the empty string: [insert_vector] refuses it
    before it calls the index. *)
Definition lead_unnamed : Lead := lead_of "" "Acme raises a round" "http://x/1".

Definition unnamed_run : result bool * Store * list Event :=
  CompanyScraper.process_and_store_lead (all_up 0%Q) lead_unnamed empty_store.

Definition unnamed_doc : Lead :=
  match first_inserted unnamed_run with
  | Some doc => doc
  | None => lead_unnamed
  end.

(** The vector index refuses writes and the document store refuses
    deletes. *)
Definition upsert_and_delete_down : Env :=
  services 0%Q true false true true false (Some ones)
    (relevant 85) valuable (Some "A summary.") CompletionRaises (Some 200%Z).

Definition uncompensated_run : result bool * Store * list Event :=
  CompanyScraper.process_and_store_lead upsert_and_delete_down lead_a empty_store.

Definition uncompensated_run_main : result bool * Store * list Event :=
  LeadDetectionSystem.process_lead upsert_and_delete_down lead_a empty_store.

(** A collection that already holds a record under the [id] of [lead_a],
    with another url. *)
Definition older_record : Lead := lead_of "lead-a" "An older lead" "http://x/0".

Definition store_with_older : Store := mkStore [older_record] [] 0.

Definition misdirected_run : result bool * Store * list Event :=
  CompanyScraper.process_and_store_lead upsert_down lead_a store_with_older.

End Examples.

(** * Further vocabulary *)

From Stdlib Require Import Permutation.

(** A successful write to the vector index. *)
Definition is_upsert_ok (e : Event) : bool :=
  match e with
  | PineconeUpsert _ true => true
  | _ => false
  end.

(** Number of successful writes to the vector index among the calls of a
    run. *)
Definition upserts_ok (ev : list Event) : nat := length (filter is_upsert_ok ev).

(** Entry of the index with a given id, if any. *)
Definition index_lookup (id : string) (idx : list Vector) : option Vector :=
  find (fun v => String.eqb (vec_id v) id) idx.

(** Matches in the order of a query's answer: no match scores higher than
    the one before it. *)
Fixpoint descending (ms : list Match) : Prop :=
  match ms with
  | a :: (b :: _) as rest => (match_score b <= match_score a)%Q /\ descending rest
  | _ => True
  end.

(** * More of the code *)

(** ** [scrapers/company_scraper.py]: [CompanyScraper.scrape] *)

Module Scrape.

(** A value of an entry of [COMPANY_RELATIONSHIPS]. *)
Inductive info_value : Type :=
| InfoStr (s : string)
| InfoList (items : list string).

(** [COMPANY_RELATIONSHIPS] with every key of its entries, in the order of
    the source. *)
Definition COMPANY_RELATIONSHIPS : list (string * list (string * info_value)) :=
  [ ("couchbase",
     [ ("name", InfoStr "Couchbase");
       ("companies",
        InfoList
          ["Coca Cola"; "Delta Airlines"; "The Home Depot"; "IHG"; "Black Knight";
           "Veem"; "PWC"; "Accesso"; "Rollins"; "NCR Voyix"; "NCR Ateleos";
           "PGA Tour"; "Hard Rock"; "Equifax"; "Chick-fil-A"]);
       ("description", InfoStr "Enterprise database and analytics solutions provider") ]);
    ("subkit",
     [ ("name", InfoStr "Subkit");
       ("companies",
        InfoList
          ["TRUFF"; "310 Nutrition"; "MUTHA"; "HiBAR"; "Viome"; "BIOHM";
           "Fulton Fish Market"; "EBOOST"; "Obvi"; "Kuli Kuli"; "Tiege Hanley";
           "MUD/WTR"; "GoPure"; "Wilde Chips"]);
       ("description", InfoStr "E-commerce and subscription management platform") ]);
    ("legion",
     [ ("name", InfoStr "Legion Technologies");
       ("companies", InfoList ["Apple"; "Microsoft"; "Meta"]);
       ("description",
        InfoStr "Intelligent Automation Powered by Legion Workforce Management") ]) ].

(** [d.values()]. *)
Definition values {A : Type} (d : list (string * A)) : list A := map snd d.

(** [for key in d]: iterating over a dict yields its keys, in the order of
    insertion. *)
Definition iterate {A : Type} (d : list (string * A)) : list string := map fst d.

(** [info["companies"]], as [_get_company_category] reads it. *)
Definition companies_of (info : list (string * info_value)) : list string :=
  match find (fun kv => String.eqb (fst kv) "companies") info with
  | Some (_, InfoList items) => items
  | _ => []
  end.

(** [[company for companies in self.COMPANY_RELATIONSHIPS.values()
      for company in companies]]. *)
Definition every_company : list string :=
  flat_map (fun companies => iterate companies) (values COMPANY_RELATIONSHIPS).

(** The list that [scrape] walks; [company] is [None] for Python's [None]. *)
Definition companies_to_scrape (company : option string) : list string :=
  match company with
  | Some c => if negb (String.eqb c "All Companies") then [c] else every_company
  | None => every_company
  end.

(** The loop of [scrape]; [found] is [leads]. *)
Fixpoint scrape_loop (env : Env) (companies : list string) (time_range : string)
    (found : list Lead) : M (list Lead) :=
  match companies with
  | [] => ret found
  | company :: rest =>
      r <- try_except
             (company_leads <- CompanyScraper._fetch_news env company time_range ;;
              ret (Some company_leads))
             (fun _ => ret None) ;;
      match r with
      | Some company_leads => scrape_loop env rest time_range (found ++ company_leads)%list
      | None => scrape_loop env rest time_range found
      end
  end.

Definition scrape (env : Env) (company : option string) (time_range : string)
    : M (list Lead) :=
  scrape_loop env (companies_to_scrape company) time_range [].

End Scrape.

(** ** [main.py]: [run_scraping_cycle] and [start] *)

Module Cycle.

(** [self.scraper.scrape()] takes the defaults: no company, ["7d"]. *)
Definition run_scraping_cycle (env : Env) : M nat :=
  try_except
    (found <- Scrape.scrape env None "7d" ;;
     if VectorStore.is_nil found then ret 0
     else LeadDetectionSystem.process_leads env found)
    (fun _ => ret 0).

Definition start (env : Env) : M nat :=
  try_except (run_scraping_cycle env) (fun _ => ret 0).

End Cycle.

(** ** [scrapers/techcrunch_scraper.py] *)

Module TechCrunchScraper.

Definition MAX_RETRIES : nat := 3.

(** What [_parse_article] reads of a [div.post-block]: the text of its
    [h2.post-block__title], the [href] of its [a.post-block__title__link],
    the [datetime] of its [time] and the text of its
    [div.post-block__content]; [None] where the element or the attribute is
    missing. *)
Record Element : Type := mkElement {
  el_title : option string;
  el_href : option string;
  el_datetime : option string;
  el_content : option string
}.

Record Article : Type := mkArticle {
  art_title : string;
  art_url : string;
  art_timestamp : string;
  art_description : string;
  art_source : string;
  art_category : string
}.

(** [_parse_article]: reading a missing element or attribute raises, and
    the handler answers [None] to every exception. *)
Definition _parse_article (article_element : Element) : option Article :=
  match
    bind_result (getitem (el_title article_element)) (fun title =>
    bind_result (getitem (el_href article_element)) (fun link =>
    bind_result (getitem (el_datetime article_element)) (fun timestamp =>
    let description := get (el_content article_element) "" in
    Ok (mkArticle title link timestamp description "TechCrunch" "startup"))))
  with
  | Ok article_data => Some article_data
  | Raise _ => None
  end.

(** The answer of the site to one request. *)
Inductive Response : Type :=
| RequestFailed                       (* a [requests.RequestException] *)
| Unexpected                          (* any other exception *)
| Page (articles : list Element).     (* the [div.post-block]s of the page *)

(** The [for article in articles] loop. *)
Fixpoint collect (articles : list Element) (leads : list Article) : list Article :=
  match articles with
  | [] => leads
  | article :: rest =>
      match _parse_article article with
      | Some article_data => collect rest (leads ++ [article_data])%list
      | None => collect rest leads
      end
  end.

(** The [while retries > 0] loop.  [site n] is the answer to the request
    number [n]; [attempt] counts the requests sent so far.  The result is
    the returned list, [None] when the loop ends without a [return], and
    the number of requests sent. *)
Fixpoint scrape_loop (site : nat -> Response) (attempt retries : nat)
    : option (list Article) * nat :=
  match retries with
  | O => (None, attempt)
  | S remaining =>
      match site attempt with
      | Page articles => (Some (collect articles []), S attempt)
      | RequestFailed =>
          if (0 <? remaining)%nat
          then scrape_loop site (S attempt) remaining
          else (Some [], S attempt)
      | Unexpected => (Some [], S attempt)
      end
  end.

Definition scrape (site : nat -> Response) : option (list Article) * nat :=
  scrape_loop site 0 MAX_RETRIES.

End TechCrunchScraper.

(** * Vocabulary for the further properties *)

(** The entries of the feed that [_fetch_news] looks at. *)
Definition looked_at (env : Env) (company time_range : string) : list FeedEntry :=
  match feed_entries env company time_range with
  | Some entries => firstn 10 entries
  | None => []
  end.

(** [lead] is what [_fetch_news] makes of [entry], with the fields that do
    not depend on the entry. *)
Definition fetched_from (env : Env) (company : string) (entry : FeedEntry) (lead : Lead)
    : Prop :=
  lead_from env company entry lead /\
  lead_category lead = Some (CompanyScraper._get_company_category company) /\
  lead_source lead = Some "Google News".

(** The identifiers handed out from the [n]-th on. *)
Definition uuids_from (env : Env) (n count : nat) : list (option string) :=
  map (fun k => Some (uuid4 env k)) (seq n count).

(** The (company, entry) pairs that a walk over [companies] turns into
    leads, in the order of the walk. *)
Definition harvest (env : Env) (companies : list string) (time_range : string)
    : list (string * FeedEntry) :=
  flat_map
    (fun company =>
       map (pair company)
         (filter (qualifies env company) (looked_at env company time_range)))
    companies.

(** Plain ASCII text.  On this range [Str.is_space] and
    [Str.is_linebreak] are the white space and the line boundaries of
    Python's [str.strip], [str.splitlines] and [\s]; beyond it Python knows
    further white space (the no-break space, for one) that they do not. *)
Definition is_ascii (c : ascii) : bool := (nat_of_ascii c <? 128)%nat.

Arguments is_ascii : simpl never.

Fixpoint all_ascii (s : string) : bool :=
  match s with
  | EmptyString => true
  | String c rest => is_ascii c && all_ascii rest
  end.

(** White space as [re.sub(r'\s+', ' ', s)] leaves it: every white-space
    character is a space, and none follows another; [prev] says that the
    character before [s] was white space. *)
Fixpoint collapsed (prev : bool) (s : string) : bool :=
  match s with
  | EmptyString => true
  | String c rest =>
      if Str.is_space c
      then negb prev && Ascii.eqb c " "%char && collapsed true rest
      else collapsed false rest
  end.

(** [s] does not start with white space. *)
Definition starts_clean (s : string) : bool :=
  match s with
  | EmptyString => true
  | String c _ => negb (Str.is_space c)
  end.

(** [s] does not end with white space. *)
Fixpoint ends_clean (s : string) : bool :=
  match s with
  | EmptyString => true
  | String c EmptyString => negb (Str.is_space c)
  | String _ rest => ends_clean rest
  end.

(** The verdict of [check_duplicate_lead] on a lead, as [filter_duplicates]
    reads it: [true] keeps the lead. *)
Definition kept (env : Env) (pending : option (list Lead)) (st : Store) (lead : Lead)
    : bool :=
  match value_of (App.check_duplicate_lead env pending lead st) with
  | Ok true => false
  | _ => true
  end.

(** [check_duplicate_lead] raises on a lead. *)
Definition check_raises (env : Env) (pending : option (list Lead)) (st : Store)
    (lead : Lead) : bool :=
  match value_of (App.check_duplicate_lead env pending lead st) with
  | Ok _ => false
  | Raise _ => true
  end.

(** The articles that the elements of a page parse to, in the order of the
    page. *)
Definition parsed (articles : list TechCrunchScraper.Element)
    : list TechCrunchScraper.Article :=
  flat_map
    (fun element =>
       match TechCrunchScraper._parse_article element with
       | Some article => [article]
       | None => []
       end)
    articles.

(** [article] is what [_parse_article] reads of [element]. *)
Definition parsed_from (element : TechCrunchScraper.Element)
    (article : TechCrunchScraper.Article) : Prop :=
  TechCrunchScraper.el_title element = Some (TechCrunchScraper.art_title article) /\
  TechCrunchScraper.el_href element = Some (TechCrunchScraper.art_url article) /\
  TechCrunchScraper.el_datetime element = Some (TechCrunchScraper.art_timestamp article) /\
  TechCrunchScraper.art_description article
  = get (TechCrunchScraper.el_content element) "" /\
  TechCrunchScraper.art_source article = "TechCrunch" /\
  TechCrunchScraper.art_category article = "startup".

Module MoreExamples.

(** The webhook answers 503. *)
Definition webhook_failing : Env :=
  Examples.services 0%Q true true true true true (Some Examples.ones)
    (Examples.relevant 85) Examples.valuable (Some "A summary.") CompletionRaises
    (Some 503%Z).

Definition unnotified_run : result bool * Store * list Event :=
  LeadDetectionSystem.process_lead webhook_failing Examples.lead_a Examples.empty_store.

(** A batch with the same lead twice and another one. *)
Definition batch : list Lead := [Examples.lead_a; Examples.lead_a; Examples.lead_b].

(** The relevance evaluation fails. *)
Definition relevance_down : Env :=
  Examples.services 0%Q true true true true true (Some Examples.ones)
    None Examples.valuable (Some "A summary.") CompletionRaises (Some 200%Z).

(** The value evaluation says "valuable" and lists only the sentinel. *)
Definition valuable_none : Env :=
  Examples.services 0%Q true true true true true (Some Examples.ones)
    (Examples.relevant 85) (Some (mkCsmValue true ["none"] [] "nothing specific"))
    (Some "A summary.") CompletionRaises (Some 200%Z).

(** The generation call answers with a complete payload. *)
Definition complete_payload (status : option Z) : Env :=
  Examples.services 0%Q true true true true true (Some Examples.ones)
    (Examples.relevant 85) Examples.valuable (Some "A summary.")
    (CompletionPayload
       (JObj [("greeting", JStr "Hi team");
              ("main_points", JArr [JStr "a new round"]);
              ("action_suggestions", JArr [JStr "congratulate"]);
              ("urgency_level", JStr "high")]))
    status.

(** A lead dictionary without the key [company]. *)
Definition lead_without_company : Lead :=
  {| lead_id := Some "lead-d";
     lead_title := Some "Acme raises a round";
     lead_url := Some "http://x/1";
     lead_description := Some "Acme raised money";
     lead_raw_description := None;
     lead_source := Some "Google News";
     lead_company := None;
     lead_category := None;
     lead_timestamp := None;
     lead_relevance_score := None;
     lead_relevance_explanation := None;
     lead_value_types := None;
     lead_action_items := None;
     lead_csm_value_explanation := None;
     lead_vector_embedding := None;
     lead_created_at := None |}.

(** The message generated for a lead, [""] when the generation raised. *)
Definition message_for (env : Env) (lead : Lead) : string :=
  match LeadNotifier._generate_slack_message env lead with
  | Ok text => text
  | Raise _ => ""
  end.

(** [lead_a] inserted into an empty collection. *)
Definition inserted_run : result (option Lead) * Store * list Event :=
  MongoDBManager.insert_lead (Examples.all_up 0%Q) Examples.lead_a Examples.ones
    Examples.empty_store.

Definition inserted_doc : Lead :=
  match value_of inserted_run with
  | Ok (Some doc) => doc
  | _ => Examples.lead_a
  end.

(** The feed has news for every tracked company and nothing under the
    words [name], [companies] and [description]. *)
Definition tracked_only : Env :=
  let base := Examples.all_up 0%Q in
  {| embeddings_create := embeddings_create base;
     chat_summary := chat_summary base;
     chat_relevance := chat_relevance base;
     chat_csm_value := chat_csm_value base;
     chat_message := chat_message base;
     similarity := similarity base;
     pinecone_query_ok := pinecone_query_ok base;
     pinecone_upsert_ok := pinecone_upsert_ok base;
     mongo_find_ok := mongo_find_ok base;
     mongo_insert_ok := mongo_insert_ok base;
     mongo_delete_ok := mongo_delete_ok base;
     requests_post := requests_post base;
     SLACK_WEBHOOK_URL := SLACK_WEBHOOK_URL base;
     uuid4 := uuid4 base;
     now := now base;
     json_dumps := json_dumps base;
     py_repr := py_repr base;
     html_unescape := html_unescape base;
     soup_get_text := soup_get_text base;
     feed_entries := fun company _ =>
       if existsb (String.eqb company) ["name"; "companies"; "description"]
       then Some []
       else Some Examples.feed |}.

(** A site that fails twice and then serves a page with two blocks, the
    second without a link. *)
Definition flaky_site (n : nat) : TechCrunchScraper.Response :=
  match n with
  | 0 | 1 => TechCrunchScraper.RequestFailed
  | _ =>
      TechCrunchScraper.Page
        [ TechCrunchScraper.mkElement (Some "A startup raises") (Some "http://tc/1")
            (Some "2025-01-01") None;
          TechCrunchScraper.mkElement (Some "Another one") None (Some "2025-01-02")
            (Some "text") ]
  end.

End MoreExamples.

(** * Properties *)

Unset Implicit Arguments.

(** ** How the component calls run *)

Ltac unfold_m :=
  unfold bind, try_except, ret, raise, lift, new_uuid in *.

Section Components.

Variable env : Env.

Lemma find_similar_run vector top_k st :
  exists results, VectorStore.find_similar env vector top_k st = (Ok results, st, []).
Proof.
  unfold VectorStore.find_similar, Pinecone.query. unfold_m.
  destruct (VectorStore.is_nil vector); [eauto|].
  destruct (pinecone_query_ok env); eauto.
Qed.

(** The duplicate check only reads: it returns, leaves the stores as they
    are and makes no write. *)
Lemma check_duplicate_run text threshold st :
  exists r, VectorStore.check_duplicate env text threshold st = (Ok r, st, []).
Proof.
  unfold VectorStore.check_duplicate. unfold_m.
  destruct (Str.is_empty (Str.strip text)); [eauto|].
  destruct (VectorStore.generate_embedding env text) as [e|x]; [|eauto].
  destruct (find_similar_run e 1 st) as [results ->].
  destruct results as [|m rest]; [eauto|].
  destruct (Qgtb (match_score m) threshold); eauto.
Qed.

Lemma get_lead_by_url_run url st :
  exists r, MongoDBManager.get_lead_by_url env url st = (Ok r, st, []).
Proof.
  unfold MongoDBManager.get_lead_by_url, Mongo.find_one_by_url. unfold_m.
  destruct (mongo_find_ok env); eauto.
Qed.

End Components.

Section ComponentRuns.

Variable env : Env.

Lemma store_lead_run lead embedding st :
  StoreLeadRun lead st (MongoDBManager.store_lead env lead embedding st).
Proof.
  unfold MongoDBManager.store_lead, MongoDBManager.insert_lead.
  unfold Mongo.insert_one, Mongo.find_one_inserted, getitem. unfold_m.
  destruct (lead_id lead) as [id|] eqn:Hid; [|constructor].
  destruct (lead_title lead) as [title|]; [|constructor].
  destruct (lead_url lead) as [url|] eqn:Hurl; [|constructor].
  destruct (lead_company lead) as [company|]; [|constructor].
  destruct (mongo_insert_ok env); simpl; [|constructor].
  match goal with |- context [existsb ?p ?l] => destruct (existsb p l) eqn:Hfresh end;
    simpl; [constructor|].
  destruct (mongo_find_ok env); simpl.
  - apply store_inserted; simpl; auto; try congruence.
  - apply store_inserted; simpl; auto; try congruence.
Qed.

Lemma insert_vector_run id vector metadata st :
  InsertVectorRun id st (VectorStore.insert_vector env id vector metadata st).
Proof.
  unfold VectorStore.insert_vector, Pinecone.upsert. unfold_m.
  destruct (Str.is_empty id || VectorStore.is_nil vector || VectorStore.is_nil metadata);
    [constructor|].
  destruct (pinecone_upsert_ok env); simpl.
  - apply (vector_inserted st (mkVector id vector metadata)). reflexivity.
  - constructor.
Qed.

Lemma generate_slack_message_as_fallback lead :
  forall e, LeadNotifier._generate_slack_message env lead = Raise e ->
  LeadNotifier._generate_fallback_message lead = Raise e.
Proof.
  unfold LeadNotifier._generate_slack_message, try_result, bind_result.
  intros e.
  destruct (chat_message env lead); auto.
  - destruct (LeadNotifier._generate_fallback_message lead); congruence.
  - destruct (LeadNotifier._generate_fallback_message lead); congruence.
  - destruct (LeadNotifier._generate_fallback_message lead); congruence.
  - destruct (LeadNotifier.all_in LeadNotifier.required_fields payload) as [[|]|]; simpl; auto.
    + destruct (LeadNotifier.format_message env lead payload); congruence.
    + destruct (LeadNotifier._generate_fallback_message lead); congruence.
Qed.

Lemma send_slack_notification_run self lead st :
  exists b ev,
    LeadNotifier.send_slack_notification self env lead st = (Ok b, st, ev) /\
    Forall is_slack_post ev.
Proof.
  unfold LeadNotifier.send_slack_notification, LeadNotifier.post, getitem. unfold_m.
  destruct (LeadNotifier.slack_enabled self); simpl; [|eauto].
  destruct (LeadNotifier._generate_slack_message env lead) as [message|e]; [|eauto].
  destruct (LeadNotifier.webhook_url self) as [u|]; [|eauto].
  destruct (requests_post env u message) as [status|]; simpl.
  - destruct (status =? 200)%Z; simpl.
    + destruct (lead_company lead); simpl;
        [destruct (lead_title lead); simpl|];
        eexists; eexists; (split; [reflexivity|repeat constructor]).
    + eexists; eexists; (split; [reflexivity|repeat constructor]).
  - eexists; eexists; (split; [reflexivity|repeat constructor]).
Qed.

Lemma notify_run self lead st :
  exists b ev,
    LeadNotifier.notify self env lead st = (Ok b, st, ev) /\
    Forall is_slack_post ev.
Proof.
  unfold LeadNotifier.notify.
  destruct (LeadNotifier.slack_enabled self) eqn:Hen; [|unfold_m; eauto].
  unfold bind.
  destruct (send_slack_notification_run self lead st) as (b & ev & -> & Hev).
  unfold ret. simpl. rewrite app_nil_r. eauto.
Qed.

End ComponentRuns.

(** ** The shape of every run of the two pipelines *)

Ltac call_step :=
  match goal with
  | |- context [VectorStore.check_duplicate ?e ?t ?th ?st] =>
      let r := fresh "dup" in
      destruct (check_duplicate_run e t th st) as [r ->]
  | |- context [MongoDBManager.get_lead_by_url ?e ?u ?st] =>
      let r := fresh "existing" in
      destruct (get_lead_by_url_run e u st) as [r ->]
  | |- context [LeadNotifier.notify ?n ?e ?l ?st] =>
      let b := fresh "sent" in
      let ev := fresh "slack" in
      let H := fresh "Hslack" in
      destruct (notify_run e n l st) as (b & ev & -> & H)
  | |- context [MongoDBManager.store_lead ?e ?l ?emb ?st] =>
      destruct (store_lead_run e l emb st)
  | |- context [VectorStore.insert_vector ?e ?i ?v ?m ?st] =>
      destruct (insert_vector_run e i v m st)
  end; cbn [fst snd app negb].

Lemma process_and_store_lead_run env lead st :
  PipelineRun (mongo_delete_ok env) (lead_url lead) st
    (CompanyScraper.process_and_store_lead env lead st).
Proof.
  unfold CompanyScraper.process_and_store_lead, MongoDBManager.leads_delete_one,
    Mongo.delete_one, getitem.
  unfold_m.
  destruct (lead_url lead) as [url|] eqn:Hurl; [|constructor; reflexivity].
  call_step.
  destruct existing; [constructor; reflexivity|].
  destruct (lead_company lead) as [company|]; [|constructor; reflexivity].
  destruct (lead_title lead) as [title|]; [|constructor; reflexivity].
  destruct (VectorStore.generate_embedding env _) as [embedding|]; [|constructor; reflexivity].
  call_step.
  destruct dup; [constructor; reflexivity|].
  call_step.
  - constructor; reflexivity.
  - constructor; reflexivity.
  - rewrite H0 in H2. rewrite Hurl in H0, H2.
    destruct H3 as [-> | ->].
    + apply run_store_lost; auto.
    + destruct (lead_id lead) as [id|] eqn:Hid; [|congruence].
      call_step.
      * destruct (mongo_delete_ok env) eqn:Hdel; cbn.
        -- apply (@run_compensated true (Some url) st _ doc id []); auto.
        -- apply (@run_compensated false (Some url) st _ doc id []); auto.
      * destruct (mongo_delete_ok env) eqn:Hdel; cbn.
        -- apply (@run_compensated true (Some url) st _ doc id [PineconeUpsert id false]);
             auto.
        -- apply (@run_compensated false (Some url) st _ doc id [PineconeUpsert id false]);
             auto.
      * call_step. cbn. rewrite app_nil_r.
        apply (@run_committed _ (Some url) st _ doc id v slack); auto.
Qed.

(** The part of a pipeline run that follows a successful [store_lead]:
    vector insert, then compensation or notification. *)
Ltac after_store doc id :=
  call_step;
  [ destruct (mongo_delete_ok _) eqn:?; cbn;
    [ eapply (@run_compensated true _ _ _ doc id []); cbn; eauto; try congruence
    | eapply (@run_compensated false _ _ _ doc id []); cbn; eauto; try congruence ]
  | destruct (mongo_delete_ok _) eqn:?; cbn;
    [ eapply (@run_compensated true _ _ _ doc id [PineconeUpsert id false]); cbn; eauto; try congruence
    | eapply (@run_compensated false _ _ _ doc id [PineconeUpsert id false]); cbn; eauto; try congruence ]
  | call_step; cbn; rewrite app_nil_r;
    eapply (@run_committed _ _ _ _ doc id); cbn; eauto; try congruence ].

Ltac gate :=
  match goal with
  | |- context [if ?c then _ else _] => destruct c; [constructor; reflexivity|]
  end.

Lemma process_lead_run env lead st :
  PipelineRun (mongo_delete_ok env) (lead_url lead) st
    (LeadDetectionSystem.process_lead env lead st).
Proof.
  unfold LeadDetectionSystem.process_lead, MongoDBManager.leads_delete_one,
    Mongo.delete_one, getitem.
  unfold_m.
  destruct (lead_id lead) as [id0|] eqn:Hid0; cbn.
  - destruct (lead_title lead) as [title|] eqn:Htitle; [|constructor; reflexivity].
    call_step.
    destruct dup; [constructor; reflexivity|].
    destruct (lead_company lead) as [company|] eqn:Hcompany; [|constructor; reflexivity].
    gate. gate.
    destruct (VectorStore.generate_embedding env _) as [embedding|];
      [|constructor; reflexivity].
    call_step; [constructor; reflexivity|constructor; reflexivity|].
    cbn in *. rewrite H0 in H2.
    destruct H3 as [-> | ->]; [apply run_store_lost; auto|].
    rewrite Hid0.
    destruct (lead_url lead) as [url|] eqn:Hurl.
    + after_store doc id0.
    + apply run_store_lost; auto.
  - destruct (lead_title lead) as [title|] eqn:Htitle; [|constructor; reflexivity].
    call_step.
    destruct dup; [constructor; reflexivity|].
    destruct (lead_company lead) as [company|] eqn:Hcompany; [|constructor; reflexivity].
    gate. gate.
    destruct (VectorStore.generate_embedding env _) as [embedding|];
      [|constructor; reflexivity].
    call_step; [constructor; reflexivity|constructor; reflexivity|].
    cbn in *. rewrite H0 in H2.
    destruct H3 as [-> | ->]; [apply run_store_lost; auto|].
    destruct (lead_url lead) as [url|] eqn:Hurl.
    + after_store doc (uuid4 env (drawn st)).
    + apply run_store_lost; auto.
Qed.

(** ** Compensation when the vector index refuses the write *)

Lemma has_id_true id d : Mongo.has_id id d = true <-> lead_id d = Some id.
Proof.
  unfold Mongo.has_id, option_string_eqb.
  destruct (lead_id d) as [x|]; [|split; discriminate].
  rewrite String.eqb_eq. split; congruence.
Qed.

Lemma remove_first_absent id docs :
  id_absent id docs -> Mongo.remove_first (Mongo.has_id id) docs = docs.
Proof.
  induction docs as [|d rest IH]; intros Habs; [reflexivity|].
  simpl. destruct (Mongo.has_id id d) eqn:Hd.
  - apply has_id_true in Hd. exfalso. apply (Habs d); [left; reflexivity|exact Hd].
  - f_equal. apply IH. intros x Hx. apply Habs. right. exact Hx.
Qed.

Lemma remove_first_last id docs doc :
  id_absent id docs -> lead_id doc = Some id ->
  Mongo.remove_first (Mongo.has_id id) (docs ++ [doc]) = docs.
Proof.
  induction docs as [|d rest IH]; intros Habs Hdoc; simpl.
  - apply has_id_true in Hdoc. rewrite Hdoc. reflexivity.
  - destruct (Mongo.has_id id d) eqn:Hd.
    + apply has_id_true in Hd. exfalso. apply (Habs d); [left; reflexivity|exact Hd].
    + f_equal. apply IH; [|exact Hdoc]. intros x Hx. apply Habs. right. exact Hx.
Qed.

Lemma slack_post_is_no_upsert slack id ok :
  Forall is_slack_post slack -> ~ In (PineconeUpsert id ok) slack.
Proof.
  intros Hall Hin. rewrite Forall_forall in Hall. exact (Hall _ Hin).
Qed.

(** *** What the calls of a run tell about the services *)

Lemma is_empty_false id : Str.is_empty id = false -> id <> "".
Proof. destruct id; [discriminate|]. intros _. discriminate. Qed.

Ltac events_leaf :=
  cbn;
  split;
  [ intros ? Hev; solve [discriminate Hev | assumption | reflexivity]
  | intros ? Hin; cbn in Hin;
    solve [ repeat (destruct Hin as [Hin|Hin]; [try discriminate Hin|]); destruct Hin ] ].

Ltac quiet_gate :=
  match goal with
  | |- context [if ?c then _ else _] => destruct c; [events_leaf|]
  end.

(** The part of a run that follows a record handed back by the store. *)
Ltac vector_tail id embedding Hempty :=
  unfold VectorStore.insert_vector, Pinecone.upsert; unfold_m;
  destruct (Str.is_empty id) eqn:Hempty; cbn [orb VectorStore.is_nil];
  [ cbn; destruct (mongo_delete_ok _); events_leaf
  | destruct (VectorStore.is_nil embedding); cbn [orb];
    [ cbn; destruct (mongo_delete_ok _); events_leaf
    | destruct (pinecone_upsert_ok _) eqn:?; cbn [fst snd app negb];
      [ call_step; cbn;
        split; [intros ? Hev; discriminate Hev|];
        let Hin := fresh "Hin" in
        intros ? [Hin|[Hin|Hin]]; [discriminate|injection Hin as <-|];
        [ split; [reflexivity|apply is_empty_false; exact Hempty]
        | rewrite app_nil_r in Hin; exfalso;
          eapply slack_post_is_no_upsert; eassumption ]
      | destruct (mongo_delete_ok _); events_leaf ] ] ].

(** A run of [process_and_store_lead] ends right after an accepted insert
    only when the store does not hand the record back, and it holds an
    accepted upsert only when the index takes writes and the id is not
    empty. *)
Lemma process_and_store_lead_events env lead st :
  (forall doc, events_of (CompanyScraper.process_and_store_lead env lead st)
               = [MongoInsert doc true] -> mongo_find_ok env = false) /\
  (forall id, In (PineconeUpsert id true)
                (events_of (CompanyScraper.process_and_store_lead env lead st)) ->
              pinecone_upsert_ok env = true /\ id <> "").
Proof.
  unfold CompanyScraper.process_and_store_lead, MongoDBManager.leads_delete_one,
    Mongo.delete_one, getitem, events_of.
  unfold_m.
  destruct (lead_url lead) as [url|] eqn:Hurl; [|events_leaf].
  call_step.
  destruct existing; [events_leaf|].
  destruct (lead_company lead) as [company|] eqn:Hcompany; [|events_leaf].
  destruct (lead_title lead) as [title|] eqn:Htitle; [|events_leaf].
  destruct (VectorStore.generate_embedding env _) as [embedding|]; [|events_leaf].
  call_step.
  destruct dup; [events_leaf|].
  unfold MongoDBManager.store_lead, MongoDBManager.insert_lead, Mongo.insert_one,
    Mongo.find_one_inserted, getitem.
  unfold_m. rewrite Hurl, Hcompany, Htitle.
  destruct (lead_id lead) as [id|] eqn:Hid; [|events_leaf].
  destruct (mongo_insert_ok env); cbn [negb]; [|events_leaf].
  match goal with |- context [existsb ?p ?l] => destruct (existsb p l) end; [events_leaf|].
  destruct (mongo_find_ok env) eqn:Hfind; [|events_leaf].
  cbn [fst snd app].
  vector_tail id embedding Hempty.
Qed.

(** The same for [process_lead]. *)
Lemma process_lead_events env lead st :
  (forall doc, events_of (LeadDetectionSystem.process_lead env lead st)
               = [MongoInsert doc true] -> mongo_find_ok env = false) /\
  (forall id, In (PineconeUpsert id true)
                (events_of (LeadDetectionSystem.process_lead env lead st)) ->
              pinecone_upsert_ok env = true /\ id <> "").
Proof.
  unfold LeadDetectionSystem.process_lead, MongoDBManager.leads_delete_one,
    Mongo.delete_one, getitem, events_of.
  unfold_m.
  destruct (lead_id lead) as [id0|] eqn:Hid0; cbn.
  - destruct (lead_title lead) as [title|] eqn:Htitle; [|events_leaf].
    call_step.
    destruct dup; [events_leaf|].
    destruct (lead_company lead) as [company|] eqn:Hcompany; [|events_leaf].
    quiet_gate. quiet_gate.
    destruct (VectorStore.generate_embedding env _) as [embedding|]; [|events_leaf].
    unfold MongoDBManager.store_lead, MongoDBManager.insert_lead, Mongo.insert_one,
      Mongo.find_one_inserted, getitem.
    unfold_m. cbn [LeadDetectionSystem.update lead_id lead_title lead_url lead_company].
    rewrite Hid0, Htitle, Hcompany.
    destruct (lead_url lead) as [url|] eqn:Hurl; [|events_leaf].
    destruct (mongo_insert_ok env); cbn [negb]; [|events_leaf].
    match goal with |- context [existsb ?p ?l] => destruct (existsb p l) end; [events_leaf|].
    destruct (mongo_find_ok env) eqn:Hfind; [|events_leaf].
    cbn [fst snd app].
    vector_tail id0 embedding Hempty.
  - destruct (lead_title lead) as [title|] eqn:Htitle; [|events_leaf].
    call_step.
    destruct dup; [events_leaf|].
    destruct (lead_company lead) as [company|] eqn:Hcompany; [|events_leaf].
    quiet_gate. quiet_gate.
    destruct (VectorStore.generate_embedding env _) as [embedding|]; [|events_leaf].
    unfold MongoDBManager.store_lead, MongoDBManager.insert_lead, Mongo.insert_one,
      Mongo.find_one_inserted, getitem.
    unfold_m.
    cbn [LeadDetectionSystem.update LeadDetectionSystem.set_id
         lead_id lead_title lead_url lead_company].
    rewrite Htitle, Hcompany.
    destruct (lead_url lead) as [url|] eqn:Hurl; [|events_leaf].
    destruct (mongo_insert_ok env); cbn [negb]; [|events_leaf].
    match goal with |- context [existsb ?p ?l] => destruct (existsb p l) end; [events_leaf|].
    destruct (mongo_find_ok env) eqn:Hfind; [|events_leaf].
    cbn [fst snd app].
    vector_tail (uuid4 env (drawn st)) embedding Hempty.
Qed.

(** [vector_insert_fails] says what it is meant to say of [insert_vector]:
    the call returns [False] for this id, whatever it is given to store. *)
Lemma vector_insert_fails_spec env id :
  vector_insert_fails env id <->
  forall vector metadata st,
    value_of (VectorStore.insert_vector env id vector metadata st) = Ok false.
Proof.
  unfold vector_insert_fails, VectorStore.insert_vector, Pinecone.upsert, value_of.
  unfold_m. split.
  - intros [Hdown | ->] vector metadata st.
    + destruct (Str.is_empty id || VectorStore.is_nil vector || VectorStore.is_nil metadata);
        [reflexivity|].
      rewrite Hdown. reflexivity.
    + reflexivity.
  - intros Hfails.
    specialize (Hfails [1%Q] [("title", MStr "")] (mkStore [] [] 0)).
    destruct id as [|c rest]; [right; reflexivity|]. left.
    cbn in Hfails. destruct (pinecone_upsert_ok env); [discriminate|reflexivity].
Qed.

(** Deleting by id takes the first record with that id: an older record
    with the id shields a newer one. *)
Lemma remove_first_keeps_later p (docs : list Lead) doc :
  existsb p docs = true -> In doc (Mongo.remove_first p (docs ++ [doc])).
Proof.
  induction docs as [|d rest IH]; [discriminate|].
  cbn. destruct (p d).
  - intros _. apply in_or_app. right. left. reflexivity.
  - intros Hrest. right. apply IH. exact Hrest.
Qed.

(** A run in which the store took and handed back the record, and in which
    [insert_vector] cannot succeed for the record's id, ends in the
    compensation branch. *)
Lemma compensated_run env url st run doc id :
  PipelineRun (mongo_delete_ok env) url st run ->
  (forall d, events_of run = [MongoInsert d true] -> mongo_find_ok env = false) ->
  (forall i, In (PineconeUpsert i true) (events_of run) ->
             pinecone_upsert_ok env = true /\ i <> "") ->
  In (MongoInsert doc true) (events_of run) ->
  mongo_find_ok env = true ->
  lead_id doc = Some id ->
  vector_insert_fails env id ->
  value_of run = Ok false /\
  In (MongoDelete id (mongo_delete_ok env)) (events_of run) /\
  (forall i, ~ In (PineconeUpsert i true) (events_of run)) /\
  index (store_of run) = index st /\
  leads (store_of run)
  = (if mongo_delete_ok env
     then Mongo.remove_first (Mongo.has_id id) (leads st ++ [doc])
     else leads st ++ [doc])%list.
Proof.
  intros Hrun Hlost Hupsert Hins Hfind Hid Hfails.
  destruct Hrun as [st' Hl Hi | st' d Hl Hi | st' d Hu Hf Hl Hi
                   | st' d i upserts Hdid Hu Hf Hup Hl Hi
                   | st' d i v slack Hdid Hu Hf Hv Hl Hi Hslack];
    unfold events_of, value_of, store_of in *; cbn [fst snd] in *.
  - contradiction.
  - destruct Hins as [Hins|[]]. discriminate.
  - rewrite (Hlost d eq_refl) in Hfind. discriminate.
  - assert (Hdoc : d = doc).
    { destruct Hins as [Hins|Hins]; [congruence|].
      apply in_app_or in Hins. destruct Hins as [Hins|[Hins|[]]]; [|discriminate].
      destruct Hup as [-> | ->]; [contradiction|].
      destruct Hins as [Hins|[]]. discriminate. }
    subst d. assert (Hsame : i = id) by congruence. rewrite Hsame in *. clear Hsame.
    split; [reflexivity|]. split; [|split; [|split; [exact Hi|exact Hl]]].
    + right. apply in_or_app. right. left. reflexivity.
    + intros j [Hin|Hin]; [discriminate|].
      apply in_app_or in Hin. destruct Hin as [Hin|[Hin|[]]]; [|discriminate].
      destruct Hup as [-> | ->]; [contradiction|].
      destruct Hin as [Hin|[]]. discriminate.
  - exfalso.
    assert (Hdoc : d = doc).
    { destruct Hins as [Hins|[Hins|Hins]]; [congruence|discriminate|].
      rewrite Forall_forall in Hslack. destruct (Hslack _ Hins). }
    subst d. assert (Hsame : i = id) by congruence.
    destruct (Hupsert i) as [Hup Hne]; [right; left; reflexivity|].
    destruct Hfails as [Hdown | Hempty]; congruence.
Qed.

(** C1: in every run of [process_lead] or of [process_and_store_lead] in
    which the document store took the lead's record and handed it back, and
    in which [insert_vector] fails for the record's [id] (the index refuses
    the upsert, or the [id] is empty and no upsert is sent), the pipeline
    reports failure, writes nothing to the index and sends a delete for
    that [id].  What is left in the document store is decided by that
    delete.  When it goes through and no older record carries the [id], the
    collection is back to the records it held before the call and holds
    none with that [id].  When it fails (the handler of the pipeline
    swallows the exception), or when an older record carries the [id] (the
    delete takes the first record with the [id]), the record just inserted
    stays. *)
Theorem vector_failure_is_compensated env lead st doc id run :
  run = LeadDetectionSystem.process_lead env lead st \/
  run = CompanyScraper.process_and_store_lead env lead st ->
  In (MongoInsert doc true) (events_of run) ->
  mongo_find_ok env = true ->
  lead_id doc = Some id ->
  vector_insert_fails env id ->
  value_of run = Ok false /\
  In (MongoDelete id (mongo_delete_ok env)) (events_of run) /\
  (forall i, ~ In (PineconeUpsert i true) (events_of run)) /\
  index (store_of run) = index st /\
  (mongo_delete_ok env = true -> id_absent id (leads st) ->
   leads (store_of run) = leads st /\ id_absent id (leads (store_of run))) /\
  (mongo_delete_ok env = false \/ existsb (Mongo.has_id id) (leads st) = true ->
   In doc (leads (store_of run))).
Proof.
  intros Hpipeline Hins Hfind Hid Hfails.
  assert (Hrun :
    value_of run = Ok false /\
    In (MongoDelete id (mongo_delete_ok env)) (events_of run) /\
    (forall i, ~ In (PineconeUpsert i true) (events_of run)) /\
    index (store_of run) = index st /\
    leads (store_of run)
    = (if mongo_delete_ok env
       then Mongo.remove_first (Mongo.has_id id) (leads st ++ [doc])
       else leads st ++ [doc])%list).
  { destruct Hpipeline as [-> | ->].
    - destruct (process_lead_events env lead st) as [Hlost Hupsert].
      eapply compensated_run; eauto using process_lead_run.
    - destruct (process_and_store_lead_events env lead st) as [Hlost Hupsert].
      eapply compensated_run; eauto using process_and_store_lead_run. }
  destruct Hrun as (Hvalue & Hdelete & Hnone & Hindex & Hleads).
  split; [exact Hvalue|]. split; [exact Hdelete|]. split; [exact Hnone|].
  split; [exact Hindex|]. split.
  - intros Hok Habsent. rewrite Hleads, Hok.
    rewrite (remove_first_last id (leads st) doc Habsent Hid).
    split; [reflexivity|exact Habsent].
  - intros Hstays. rewrite Hleads.
    destruct (mongo_delete_ok env).
    + destruct Hstays as [Hdown | Holder]; [discriminate|].
      apply remove_first_keeps_later. exact Holder.
    + apply in_or_app. right. left. reflexivity.
Qed.

Lemma vector_failure_is_compensated_example :
  (value_of Examples.refused_run_main = Ok false /\
   In (MongoDelete "lead-a" true) (events_of Examples.refused_run_main) /\
   leads (store_of Examples.refused_run_main) = [])
  /\
  (value_of Examples.refused_run = Ok false /\
   In (MongoDelete "lead-a" true) (events_of Examples.refused_run) /\
   leads (store_of Examples.refused_run) = [])
  /\
  (value_of Examples.unnamed_run = Ok false /\
   In (MongoDelete "" true) (events_of Examples.unnamed_run) /\
   leads (store_of Examples.unnamed_run) = []).
Proof.
  split; [|split].
  - destruct (vector_failure_is_compensated Examples.upsert_down Examples.lead_a
                Examples.empty_store Examples.refused_doc_main "lead-a"
                Examples.refused_run_main)
      as (Hvalue & Hdelete & _ & _ & Hstore & _).
    + left. reflexivity.
    + vm_compute. left. reflexivity.
    + reflexivity.
    + reflexivity.
    + left. reflexivity.
    + split; [exact Hvalue|]. split; [exact Hdelete|].
      apply Hstore; [reflexivity|]. intros d [].
  - destruct (vector_failure_is_compensated Examples.upsert_down Examples.lead_a
                Examples.empty_store Examples.refused_doc "lead-a" Examples.refused_run)
      as (Hvalue & Hdelete & _ & _ & Hstore & _).
    + right. reflexivity.
    + vm_compute. left. reflexivity.
    + reflexivity.
    + reflexivity.
    + left. reflexivity.
    + split; [exact Hvalue|]. split; [exact Hdelete|].
      apply Hstore; [reflexivity|]. intros d [].
  - destruct (vector_failure_is_compensated (Examples.all_up 0%Q) Examples.lead_unnamed
                Examples.empty_store Examples.unnamed_doc "" Examples.unnamed_run)
      as (Hvalue & Hdelete & _ & _ & Hstore & _).
    + right. reflexivity.
    + vm_compute. left. reflexivity.
    + reflexivity.
    + reflexivity.
    + right. reflexivity.
    + split; [exact Hvalue|]. split; [exact Hdelete|].
      apply Hstore; [reflexivity|]. intros d [].
Defined.

(** The claim without its two conditions does not hold.  With the index
    and the deletes both down, either pipeline reports failure, its delete
    is refused, and the record it inserted is still in the collection; and
    with deletes up and an older record under the same [id], the delete
    goes through and takes the older record: the collection ends with the
    new record alone. *)
Lemma failed_delete_leaves_the_record :
  (value_of Examples.uncompensated_run = Ok false /\
   In (MongoDelete "lead-a" false) (events_of Examples.uncompensated_run) /\
   map lead_id (leads (store_of Examples.uncompensated_run)) = [Some "lead-a"])
  /\
  (value_of Examples.uncompensated_run_main = Ok false /\
   In (MongoDelete "lead-a" false) (events_of Examples.uncompensated_run_main) /\
   map lead_id (leads (store_of Examples.uncompensated_run_main)) = [Some "lead-a"])
  /\
  (map lead_url (leads Examples.store_with_older) = [Some "http://x/0"] /\
   value_of Examples.misdirected_run = Ok false /\
   In (MongoDelete "lead-a" true) (events_of Examples.misdirected_run) /\
   map lead_id (leads (store_of Examples.misdirected_run)) = [Some "lead-a"] /\
   map lead_url (leads (store_of Examples.misdirected_run)) = [Some "http://x/1"]).
Proof.
  split; [|split].
  - vm_compute. split; [reflexivity|]. split; [|reflexivity].
    right. right. left. reflexivity.
  - vm_compute. split; [reflexivity|]. split; [|reflexivity].
    right. right. left. reflexivity.
  - vm_compute. split; [reflexivity|]. split; [reflexivity|]. split; [|split; reflexivity].
    right. right. left. reflexivity.
Qed.

(** ** The gates of [process_lead] *)

Ltac discard := repeat split; reflexivity.

(** The relevance gate of [process_lead]: whatever the flag says, a score
    under 70 stops the run before anything is written. *)
Lemma process_lead_relevance_gate env lead st :
  (relevance_score (relevance_of env lead) < 70)%Z ->
  discarded st (LeadDetectionSystem.process_lead env lead st).
Proof.
  unfold relevance_of. intros Hlow. apply Z.ltb_lt in Hlow.
  unfold LeadDetectionSystem.process_lead, getitem, discarded, value_of, store_of, events_of.
  unfold_m.
  destruct (lead_id lead) as [id0|]; cbn;
    (destruct (lead_title lead) as [title|]; [|discard]);
    call_step;
    (destruct dup; [discard|]);
    (destruct (lead_company lead) as [company|]; [|discard]);
    cbn in Hlow; rewrite Hlow, orb_true_r; discard.
Qed.

(** The value gate of [process_lead]: [is_valuable = false] stops the run
    before anything is written, whatever [value_type] holds. *)
Lemma process_lead_value_gate env lead st :
  is_valuable (csm_value_of env lead) = false ->
  discarded st (LeadDetectionSystem.process_lead env lead st).
Proof.
  unfold csm_value_of. intros Hval.
  unfold LeadDetectionSystem.process_lead, getitem, discarded, value_of, store_of, events_of.
  unfold_m.
  destruct (lead_id lead) as [id0|]; cbn;
    (destruct (lead_title lead) as [title|]; [|discard]);
    call_step;
    (destruct dup; [discard|]);
    (destruct (lead_company lead) as [company|]; [|discard]);
    cbn in Hval; rewrite Hval; cbn;
    match goal with |- context [if ?c then _ else _] => destruct c end; discard.
Qed.

(** A lead whose text has no embedding of the configured dimension is not
    written by [process_lead]. *)
Lemma process_lead_embedding_gate env lead st :
  (forall v, VectorStore.generate_embedding env (embedded_text lead) <> Ok v) ->
  discarded st (LeadDetectionSystem.process_lead env lead st).
Proof.
  unfold embedded_text. intros Hemb.
  unfold LeadDetectionSystem.process_lead, getitem, discarded, value_of, store_of, events_of.
  unfold_m.
  destruct (lead_id lead) as [id0|]; cbn;
    (destruct (lead_title lead) as [title|]; [|discard]);
    call_step;
    (destruct dup; [discard|]);
    (destruct (lead_company lead) as [company|]; [|discard]);
    cbn in Hemb;
    repeat match goal with |- context [if ?c then _ else _] => destruct c; [discard|] end;
    unfold CompanyScraper.lead_text in *; cbn in *;
    (destruct (VectorStore.generate_embedding env _) as [v|] eqn:Hv;
       [exfalso; exact (Hemb v eq_refl) | discard]).
Qed.

Lemma process_and_store_lead_embedding_gate env lead st :
  (forall v, VectorStore.generate_embedding env (embedded_text lead) <> Ok v) ->
  discarded st (CompanyScraper.process_and_store_lead env lead st).
Proof.
  unfold embedded_text. intros Hemb.
  unfold CompanyScraper.process_and_store_lead, getitem, discarded,
    value_of, store_of, events_of.
  unfold_m.
  destruct (lead_url lead) as [url|]; [|discard].
  call_step.
  destruct existing; [discard|].
  destruct (lead_company lead) as [company|]; [|discard].
  destruct (lead_title lead) as [title|]; [|discard].
  cbn in Hemb.
  destruct (VectorStore.generate_embedding env _) as [v|] eqn:Hv;
    [exfalso; exact (Hemb v eq_refl) | discard].
Qed.

(** ** The gates of [_fetch_news] *)

Lemma fetch_entry_run env company entry st :
  (qualifies env company entry = false /\
   CompanyScraper.fetch_entry env company entry st = (Ok None, st, []))
  \/
  (qualifies env company entry = true /\
   exists lead,
     CompanyScraper.fetch_entry env company entry st
       = (Ok (Some lead), mkStore (leads st) (index st) (S (drawn st)), []) /\
     lead_from env company entry lead).
Proof.
  unfold qualifies, entry_relevance, entry_csm_value, entry_title_text,
    entry_description_text, CompanyScraper.fetch_entry.
  set (title := html_unescape env (entry_title entry)).
  set (description := CompanyScraper._generate_clean_description env _).
  set (relevance := CompanyScraper._evaluate_article_relevance env company title description).
  set (csm := CompanyScraper._evaluate_csm_value env company title description).
  destruct (is_relevant relevance); cbn [negb orb andb].
  2:{ left. split; reflexivity. }
  rewrite Z.leb_antisym.
  destruct (relevance_score relevance <? 50)%Z; cbn [negb orb andb].
  { left. split; reflexivity. }
  destruct (is_valuable csm); cbn [negb].
  2:{ left. split; reflexivity. }
  right. split; [reflexivity|]. unfold_m. cbn.
  eexists. split; [reflexivity|].
  unfold lead_from, entry_relevance, entry_title_text, entry_description_text. cbn.
  repeat split; reflexivity.
Qed.

Lemma fetch_loop_run env company entries :
  forall found st,
  exists new st',
    CompanyScraper.fetch_loop env company entries found st = (Ok (found ++ new)%list, st', []) /\
    leads st' = leads st /\ index st' = index st /\
    (forall lead, In lead new ->
       exists entry, In entry entries /\ qualifies env company entry = true /\
                     lead_from env company entry lead) /\
    (forall entry, In entry entries -> qualifies env company entry = true ->
       exists lead, In lead new /\ lead_from env company entry lead).
Proof.
  induction entries as [|entry rest IH]; intros found st; cbn [CompanyScraper.fetch_loop].
  - exists [], st. unfold ret. rewrite app_nil_r.
    repeat split; try reflexivity; intros ? [].
  - unfold bind, try_except.
    destruct (fetch_entry_run env company entry st) as [[Hq ->] | [Hq (lead & -> & Hfrom)]].
    + destruct (IH found st) as (new & st' & -> & Hl & Hi & Hsound & Hcomplete).
      exists new, st'. cbn. repeat split; auto.
      * intros lead Hin. destruct (Hsound lead Hin) as (e & He & Hqe & Hfe).
        exists e. auto.
      * intros e [<- | He] Hqe; [congruence|]. apply Hcomplete; assumption.
    + destruct (IH (found ++ [lead])%list (mkStore (leads st) (index st) (S (drawn st))))
        as (new & st' & -> & Hl & Hi & Hsound & Hcomplete).
      exists (lead :: new), st'. cbn. rewrite <- app_assoc. cbn.
      repeat split; auto.
      * intros l [<- | Hin].
        -- exists entry. auto.
        -- destruct (Hsound l Hin) as (e & He & Hqe & Hfe). exists e. auto.
      * intros e [<- | He] Hqe.
        -- exists lead. auto.
        -- destruct (Hcomplete e He Hqe) as (l & Hin & Hfe). exists l. auto.
Qed.

(** What [_fetch_news] returns: it writes to no store and calls no
    webhook, and its leads are those of the first ten feed entries that
    pass both gates. *)
Lemma fetch_news_run env company time_range st :
  exists found st',
    CompanyScraper._fetch_news env company time_range st = (Ok found, st', []) /\
    leads st' = leads st /\ index st' = index st /\
    (forall lead, In lead found ->
       exists entry, qualifies env company entry = true /\
                     lead_from env company entry lead) /\
    (forall entries entry,
       feed_entries env company time_range = Some entries ->
       In entry (firstn 10 entries) -> qualifies env company entry = true ->
       exists lead, In lead found /\ lead_from env company entry lead).
Proof.
  unfold CompanyScraper._fetch_news.
  destruct (feed_entries env company time_range) as [entries|].
  - destruct (fetch_loop_run env company (firstn 10 entries) [] st)
      as (new & st' & Hrun & Hl & Hi & Hsound & Hcomplete).
    exists new, st'. cbn in Hrun. repeat split; auto.
    + intros lead Hin. destruct (Hsound lead Hin) as (e & _ & Hq & Hf). exists e. auto.
    + intros entries' entry Heq. injection Heq as <-. apply Hcomplete.
  - exists [], st. unfold ret. repeat split; auto.
    + intros ? [].
    + discriminate.
Qed.

(** C3: at final commit ([process_lead]) a relevance score under 70 stops
    the lead before any write to the document store or to the vector index
    (and before any notification), whatever [is_relevant] says; ingestion
    ([_fetch_news]) applies the bar of 50: it writes nothing, every lead it
    returns carries a score of at least 50, and an entry among the first ten
    that is flagged relevant, scores at least 50 and is valuable is
    returned. *)
Theorem relevance_gate_70_at_commit_50_at_ingestion :
  (forall env lead st,
     (relevance_score (relevance_of env lead) < 70)%Z ->
     discarded st (LeadDetectionSystem.process_lead env lead st))
  /\
  (forall env company time_range st,
     exists found st',
       CompanyScraper._fetch_news env company time_range st = (Ok found, st', []) /\
       leads st' = leads st /\ index st' = index st /\
       (forall lead, In lead found ->
          exists score, lead_relevance_score lead = Some score /\ (50 <= score)%Z) /\
       (forall entries entry,
          feed_entries env company time_range = Some entries ->
          In entry (firstn 10 entries) ->
          is_relevant (entry_relevance env company entry) = true ->
          (50 <= relevance_score (entry_relevance env company entry))%Z ->
          is_valuable (entry_csm_value env company entry) = true ->
          exists lead,
            In lead found /\
            lead_url lead = Some (entry_link entry) /\
            lead_relevance_score lead
              = Some (relevance_score (entry_relevance env company entry)))).
Proof.
  split.
  - exact process_lead_relevance_gate.
  - intros env company time_range st.
    destruct (fetch_news_run env company time_range st)
      as (found & st' & Hrun & Hl & Hi & Hsound & Hcomplete).
    exists found, st'. repeat split; auto.
    + intros lead Hin.
      destruct (Hsound lead Hin) as (entry & Hq & _ & _ & _ & _ & Hscore).
      exists (relevance_score (entry_relevance env company entry)).
      split; [exact Hscore|].
      unfold qualifies in Hq.
      apply andb_prop in Hq. destruct Hq as [Hq _].
      apply andb_prop in Hq. destruct Hq as [_ Hq].
      apply Z.leb_le. exact Hq.
    + intros entries entry Hfeed Hin Hrel Hscore Hval.
      destruct (Hcomplete entries entry Hfeed Hin) as (lead & Hlead & Hurl & _ & _ & _ & Hs).
      * unfold qualifies. rewrite Hrel, Hval. apply Z.leb_le in Hscore. rewrite Hscore.
        reflexivity.
      * exists lead. auto.
Qed.

Lemma relevance_gate_example :
  discarded Examples.empty_store
    (LeadDetectionSystem.process_lead (Examples.scoring 69) Examples.lead_a
       Examples.empty_store) /\
  map lead_relevance_score
    (Examples.fetched
       (CompanyScraper._fetch_news (Examples.scoring 50) "Acme" "7d" Examples.empty_store))
  = [Some 50%Z; Some 50%Z].
Proof.
  split.
  - apply (proj1 relevance_gate_70_at_commit_50_at_ingestion).
    vm_compute. reflexivity.
  - vm_compute. reflexivity.
Defined.

(** C4: a value evaluation with [is_valuable = false] discards the
    candidate at the value gate of both paths, whatever [value_type] lists:
    [process_lead] returns [False] without any write to a store and without
    any notification, and [_fetch_news], which writes and notifies nothing,
    returns no lead whose evaluation says [is_valuable = false]. *)
Theorem not_valuable_is_discarded :
  (forall env lead st,
     is_valuable (csm_value_of env lead) = false ->
     discarded st (LeadDetectionSystem.process_lead env lead st))
  /\
  (forall env company time_range st,
     exists found st',
       CompanyScraper._fetch_news env company time_range st = (Ok found, st', []) /\
       leads st' = leads st /\ index st' = index st /\
       (forall lead, In lead found ->
          exists title description,
            lead_title lead = Some title /\
            lead_description lead = Some description /\
            is_valuable
              (CompanyScraper._evaluate_csm_value env company title description) = true)).
Proof.
  split.
  - exact process_lead_value_gate.
  - intros env company time_range st.
    destruct (fetch_news_run env company time_range st)
      as (found & st' & Hrun & Hl & Hi & Hsound & _).
    exists found, st'. repeat split; auto.
    intros lead Hin.
    destruct (Hsound lead Hin) as (entry & Hq & _ & Htitle & Hdesc & _).
    exists (entry_title_text env entry), (entry_description_text env entry).
    repeat split; auto.
    unfold qualifies in Hq. apply andb_prop in Hq. destruct Hq as [_ Hq]. exact Hq.
Qed.

Lemma not_valuable_example :
  value_type (csm_value_of Examples.not_valuable Examples.lead_a) = ["funding_round"] /\
  discarded Examples.empty_store
    (LeadDetectionSystem.process_lead Examples.not_valuable Examples.lead_a
       Examples.empty_store) /\
  Examples.fetched
    (CompanyScraper._fetch_news Examples.not_valuable "Acme" "7d" Examples.empty_store)
  = [].
Proof.
  split; [reflexivity|]. split.
  - apply (proj1 not_valuable_is_discarded). reflexivity.
  - vm_compute. reflexivity.
Defined.

(** ** The dimension of an embedding *)

Lemma generate_embedding_ok env text v :
  VectorStore.generate_embedding env text = Ok v ->
  length v = VECTOR_DIMENSION /\ embeddings_create env text = Some v.
Proof.
  unfold VectorStore.generate_embedding.
  destruct (Str.is_empty (Str.strip text)); [discriminate|].
  destruct (embeddings_create env text) as [embedding|]; [|discriminate].
  destruct (length embedding =? VECTOR_DIMENSION)%nat eqn:Hlen; cbn; [|discriminate].
  intros H. injection H as <-. apply Nat.eqb_eq in Hlen. auto.
Qed.

Lemma generate_embedding_mismatch env text v :
  embeddings_create env text = Some v ->
  length v <> VECTOR_DIMENSION ->
  VectorStore.generate_embedding env text = Raise ValueError.
Proof.
  unfold VectorStore.generate_embedding. intros -> Hlen.
  destruct (Str.is_empty (Str.strip text)); [reflexivity|].
  apply Nat.eqb_neq in Hlen. rewrite Hlen. reflexivity.
Qed.

(** C8: [generate_embedding] returns a vector only when it is the vector
    the embedding service answered and its length is [VECTOR_DIMENSION]
    (1536); an answer of any other length makes it raise, and a lead whose
    text gets such an answer is discarded by both pipelines before anything
    is written. *)
Theorem embedding_dimension_is_enforced :
  VECTOR_DIMENSION = 1536 /\
  (forall env text v,
     VectorStore.generate_embedding env text = Ok v ->
     length v = VECTOR_DIMENSION /\ embeddings_create env text = Some v)
  /\
  (forall env text v,
     embeddings_create env text = Some v ->
     length v <> VECTOR_DIMENSION ->
     VectorStore.generate_embedding env text = Raise ValueError)
  /\
  (forall env lead st v,
     embeddings_create env (embedded_text lead) = Some v ->
     length v <> VECTOR_DIMENSION ->
     discarded st (LeadDetectionSystem.process_lead env lead st) /\
     discarded st (CompanyScraper.process_and_store_lead env lead st)).
Proof.
  split; [reflexivity|].
  split; [exact generate_embedding_ok|].
  split; [exact generate_embedding_mismatch|].
  intros env lead st v Hv Hlen.
  assert (Hno : forall w,
            VectorStore.generate_embedding env (embedded_text lead) <> Ok w).
  { intros w. rewrite (generate_embedding_mismatch env _ v Hv Hlen). discriminate. }
  split.
  - apply process_lead_embedding_gate. exact Hno.
  - apply process_and_store_lead_embedding_gate. exact Hno.
Qed.

Lemma embedding_dimension_example :
  VectorStore.generate_embedding Examples.short_embedding "Acme raises a round"
    = Raise ValueError /\
  discarded Examples.empty_store
    (LeadDetectionSystem.process_lead Examples.short_embedding Examples.lead_a
       Examples.empty_store) /\
  discarded Examples.empty_store
    (CompanyScraper.process_and_store_lead Examples.short_embedding Examples.lead_a
       Examples.empty_store).
Proof.
  destruct embedding_dimension_is_enforced as (_ & _ & Hraise & Hdiscard).
  split.
  - apply (Hraise _ _ [0%Q; 0%Q; 0%Q]); [reflexivity|]. cbn. unfold VECTOR_DIMENSION. lia.
  - apply (Hdiscard _ _ _ [0%Q; 0%Q; 0%Q]); [reflexivity|].
    cbn. unfold VECTOR_DIMENSION. lia.
Defined.

(** ** The notifier *)

(** C10: with Slack notifications disabled ([ENABLE_SLACK_NOTIFICATIONS]
    false, or no [SLACK_WEBHOOK_URL]) [notify] returns [True] for every lead
    and makes no call to the webhook, while [send_slack_notification],
    called directly in the same state, returns [False]. *)
Theorem notify_is_true_when_slack_is_disabled enable url env lead st :
  enable = false \/ url = None ->
  LeadNotifier.notify (LeadNotifier.init enable url) env lead st = (Ok true, st, []) /\
  LeadNotifier.send_slack_notification (LeadNotifier.init enable url) env lead st
    = (Ok false, st, []).
Proof.
  intros Hoff.
  assert (Hdisabled : LeadNotifier.slack_enabled (LeadNotifier.init enable url) = false).
  { unfold LeadNotifier.init. cbn. destruct Hoff as [-> | ->]; [reflexivity|].
    apply andb_false_r. }
  unfold LeadNotifier.notify, LeadNotifier.send_slack_notification.
  rewrite Hdisabled. split; reflexivity.
Qed.

Lemma notify_disabled_example :
  LeadNotifier.notify (LeadNotifier.init true None) (Examples.all_up 0%Q) Examples.lead_a
    Examples.empty_store = (Ok true, Examples.empty_store, []) /\
  LeadNotifier.send_slack_notification (LeadNotifier.init true None) (Examples.all_up 0%Q)
    Examples.lead_a Examples.empty_store = (Ok false, Examples.empty_store, []).
Proof.
  apply notify_is_true_when_slack_is_disabled. right. reflexivity.
Defined.

Lemma startswith_refl p s : Str.startswith p (p ++ s) = true.
Proof.
  induction p as [|c p IH]; [reflexivity|].
  cbn. rewrite Nat.eqb_refl. exact IH.
Qed.

Lemma contains_here needle rest : Str.contains needle (needle ++ rest) = true.
Proof.
  destruct needle as [|c needle]; destruct rest as [|d rest]; cbn;
    try rewrite ?Nat.eqb_refl, ?startswith_refl; reflexivity.
Qed.

Lemma contains_later needle prefix s :
  Str.contains needle s = true -> Str.contains needle (prefix ++ s) = true.
Proof.
  intros H. induction prefix as [|c prefix IH]; [exact H|].
  cbn. rewrite IH. apply orb_true_r.
Qed.

Lemma fallback_text_quotes_the_lead company url title :
  Str.contains company (fallback_text company url title) = true /\
  Str.contains title (fallback_text company url title) = true /\
  Str.contains url (fallback_text company url title) = true.
Proof.
  unfold fallback_text. repeat split.
  - apply contains_later. apply contains_here.
  - do 5 apply contains_later. apply contains_here.
  - do 3 apply contains_later. apply contains_here.
Qed.

Lemma fallback_message_of_lead lead company url title :
  lead_company lead = Some company ->
  lead_url lead = Some url ->
  lead_title lead = Some title ->
  LeadNotifier._generate_fallback_message lead = Ok (fallback_text company url title).
Proof.
  unfold LeadNotifier._generate_fallback_message, getitem. intros -> -> ->. reflexivity.
Qed.

Lemma key_missing field members :
  LeadNotifier.lookup field members = None ->
  existsb (fun kv : string * json => String.eqb (fst kv) field) members = false.
Proof.
  induction members as [|[k v] rest IH]; cbn; [reflexivity|].
  destruct (String.eqb k field); [discriminate|]. exact IH.
Qed.

Lemma all_in_missing members field fields :
  In field fields ->
  LeadNotifier.lookup field members = None ->
  LeadNotifier.all_in fields (JObj members) = Ok false.
Proof.
  intros Hin Hmissing. induction fields as [|f rest IH]; [destruct Hin|].
  cbn. destruct Hin as [-> | Hin].
  - rewrite (key_missing _ _ Hmissing). reflexivity.
  - destruct (existsb _ members); [apply IH; exact Hin | reflexivity].
Qed.

(** Whatever cannot be used makes [_generate_slack_message] hand out the
    fallback message. *)
Lemma malformed_gives_fallback env lead :
  Malformed env lead (chat_message env lead) ->
  LeadNotifier._generate_slack_message env lead =
  LeadNotifier._generate_fallback_message lead.
Proof.
  unfold LeadNotifier._generate_slack_message, try_result.
  intros Hmal.
  destruct Hmal as [ | | | | members field Hin Hmissing | payload Hnot | payload e Hraise].
  - reflexivity.
  - destruct (LeadNotifier._generate_fallback_message lead); reflexivity.
  - destruct (LeadNotifier._generate_fallback_message lead); reflexivity.
  - destruct (LeadNotifier._generate_fallback_message lead); reflexivity.
  - rewrite (all_in_missing members field _ Hin Hmissing). cbn.
    destruct (LeadNotifier._generate_fallback_message lead); reflexivity.
  - destruct (LeadNotifier.all_in LeadNotifier.required_fields payload) as [[|]|];
      cbn; try reflexivity.
    + destruct payload; try (exfalso; eapply Hnot; reflexivity); reflexivity.
    + destruct (LeadNotifier._generate_fallback_message lead); reflexivity.
  - destruct (LeadNotifier.all_in LeadNotifier.required_fields payload) as [[|]|];
      cbn; try reflexivity.
    + rewrite Hraise. reflexivity.
    + destruct (LeadNotifier._generate_fallback_message lead); reflexivity.
Qed.



(** ** The content normalizer when the summary call fails *)

(** C6, as the code has it: when the summary-generation call fails,
    [_generate_clean_description] does not raise and returns its argument as
    it received it, the raw content, not the cleaned text. *)
Theorem failed_summary_returns_the_raw_content env content :
  chat_summary env
    (CompanyScraper.DESCRIPTION_PROMPT (CompanyScraper._clean_html_content env content))
  = None ->
  CompanyScraper._generate_clean_description env content = content.
Proof.
  unfold CompanyScraper._generate_clean_description. intros ->. reflexivity.
Qed.

Lemma failed_summary_example :
  CompanyScraper._generate_clean_description Examples.summary_down Examples.raw_text
  = Examples.raw_text.
Proof.
  apply failed_summary_returns_the_raw_content. reflexivity.
Defined.

(** Against C6 as stated: on a description with a double space and a link the
    cleaned text is ["Read more at now"], and what comes back when the
    summary call fails is the description itself. *)
Lemma failed_summary_is_not_the_cleaned_text :
  CompanyScraper._clean_html_content Examples.summary_down Examples.raw_text
  = "Read more at now" /\
  CompanyScraper._generate_clean_description Examples.summary_down Examples.raw_text
  = "Read  more at http://x/1 now".
Proof.
  split; vm_compute; reflexivity.
Qed.

(** ** Errors inside the duplicate checks *)

Lemma check_duplicate_fails_open env text threshold st :
  (forall e, VectorStore.generate_embedding env text <> Ok e) \/
  pinecone_query_ok env = false ->
  VectorStore.check_duplicate env text threshold st = (Ok None, st, []).
Proof.
  unfold VectorStore.check_duplicate, VectorStore.find_similar, Pinecone.query.
  unfold_m. intros Herr.
  destruct (Str.is_empty (Str.strip text)); [reflexivity|].
  destruct (VectorStore.generate_embedding env text) as [e|x] eqn:He; [|reflexivity].
  destruct Herr as [Herr | Herr]; [exfalso; exact (Herr e eq_refl)|].
  rewrite Herr. destruct (VectorStore.is_nil e); reflexivity.
Qed.

Lemma get_lead_by_url_fails_open env url st :
  mongo_find_ok env = false ->
  MongoDBManager.get_lead_by_url env url st = (Ok None, st, []).
Proof.
  unfold MongoDBManager.get_lead_by_url, Mongo.find_one_by_url. unfold_m.
  intros ->. reflexivity.
Qed.

(** Whatever is raised in the body of [check_duplicate_lead] reaches its
    handler, and the handler raises [NameError]. *)
Lemma check_duplicate_lead_never_returns_false_on_error env pending lead st :
  lead_url lead = None \/
  (exists pending_leads rest first,
     pending = Some pending_leads /\ pending_leads = first :: rest /\
     lead_url first = None /\
     mongo_find_ok env = false /\ pinecone_query_ok env = false /\
     lead_company lead <> None /\ lead_title lead <> None) ->
  App.check_duplicate_lead env pending lead st = (Raise NameError, st, []).
Proof.
  unfold App.check_duplicate_lead, getitem. unfold_m.
  intros [Hurl | (pending_leads & rest & first & -> & -> & Hfirst & Hfind & Hquery & Hc & Ht)].
  - rewrite Hurl. reflexivity.
  - destruct (lead_url lead) as [url|]; [|reflexivity].
    rewrite (get_lead_by_url_fails_open env url st Hfind).
    destruct (lead_company lead) as [company|]; [|congruence].
    destruct (lead_title lead) as [title|]; [|congruence].
    rewrite (check_duplicate_fails_open env _ _ st (or_intror Hquery)).
    cbn. unfold bind_result, getitem. rewrite Hfirst. reflexivity.
Qed.

(** C7: an error inside the semantic check or inside the exact-URL lookup
    is swallowed there ([check_duplicate] and [get_lead_by_url] return
    [None]), but an error that reaches the handler of
    [check_duplicate_lead] is not turned into [False]: the handler raises
    [NameError], here for a lead dictionary that has no [url]. *)
Theorem check_duplicate_lead_handler_raises :
  (forall env text threshold st,
     (forall e, VectorStore.generate_embedding env text <> Ok e) \/
     pinecone_query_ok env = false ->
     VectorStore.check_duplicate env text threshold st = (Ok None, st, []))
  /\
  (forall env url st,
     mongo_find_ok env = false ->
     MongoDBManager.get_lead_by_url env url st = (Ok None, st, []))
  /\
  (forall env pending st,
     App.check_duplicate_lead env pending Examples.lead_without_url st
     = (Raise NameError, st, [])).
Proof.
  split; [exact check_duplicate_fails_open|].
  split; [exact get_lead_by_url_fails_open|].
  intros env pending st.
  apply check_duplicate_lead_never_returns_false_on_error. left. reflexivity.
Qed.

(** ** One record per url *)

Lemma has_url_same d url : lead_url d = Some url -> Mongo.has_url (Some url) d = true.
Proof.
  unfold Mongo.has_url, option_string_eqb. intros ->. apply String.eqb_refl.
Qed.

Lemma count_url_none url docs :
  existsb (Mongo.has_url (Some url)) docs = false -> count_url url docs = 0.
Proof.
  unfold count_url. induction docs as [|d rest IH]; cbn; [reflexivity|].
  destruct (Mongo.has_url (Some url) d); cbn; [discriminate|]. exact IH.
Qed.

Lemma count_url_some url docs :
  existsb (Mongo.has_url (Some url)) docs = true -> 1 <= count_url url docs.
Proof.
  unfold count_url. induction docs as [|d rest IH]; cbn; [discriminate|].
  destruct (Mongo.has_url (Some url) d); cbn; [lia|]. exact IH.
Qed.

Lemma count_url_app url docs more :
  count_url url (docs ++ more) = count_url url docs + count_url url more.
Proof.
  unfold count_url. rewrite filter_app, length_app. reflexivity.
Qed.

Lemma count_url_remove_first url p docs :
  count_url url (Mongo.remove_first p docs) <= count_url url docs.
Proof.
  unfold count_url. induction docs as [|d rest IH]; cbn; [lia|].
  destruct (p d); cbn.
  - destruct (Mongo.has_url (Some url) d); cbn; lia.
  - destruct (Mongo.has_url (Some url) d); cbn; lia.
Qed.

Lemma count_url_one url doc :
  lead_url doc = Some url -> count_url url [doc] = 1.
Proof.
  intros H. unfold count_url. cbn. rewrite (has_url_same doc url H). reflexivity.
Qed.

(** A pipeline run keeps the collection at one record per url at most. *)
Lemma pipeline_keeps_url_unique delete_ok url st run :
  PipelineRun delete_ok (Some url) st run ->
  count_url url (leads st) <= 1 ->
  count_url url (leads (store_of run)) <= 1.
Proof.
  intros Hrun Hone.
  destruct Hrun as [st' Hl Hi | st' d Hl Hi | st' d Hu Hf Hl Hi
                   | st' d i upserts Hid Hu Hf Hup Hl Hi
                   | st' d i v slack Hid Hu Hf Hv Hl Hi Hslack];
    unfold store_of; cbn [fst snd]; rewrite Hl; try exact Hone.
  - rewrite count_url_app, (count_url_none _ _ Hf), (count_url_one _ _ Hu). lia.
  - assert (Hall : count_url url (leads st ++ [d]) <= 1).
    { rewrite count_url_app, (count_url_none _ _ Hf), (count_url_one _ _ Hu). lia. }
    destruct delete_ok; [|exact Hall].
    eapply Nat.le_trans; [apply count_url_remove_first|exact Hall].
  - rewrite count_url_app, (count_url_none _ _ Hf), (count_url_one _ _ Hu). lia.
Qed.

(** After a committed run the url is in the collection, once. *)
Lemma committed_run_stores_url delete_ok url st run :
  PipelineRun delete_ok (Some url) st run ->
  value_of run = Ok true ->
  existsb (Mongo.has_url (Some url)) (leads (store_of run)) = true /\
  count_url url (leads (store_of run)) = 1.
Proof.
  intros Hrun Htrue.
  destruct Hrun as [st' Hl Hi | st' d Hl Hi | st' d Hu Hf Hl Hi
                   | st' d i upserts Hid Hu Hf Hup Hl Hi
                   | st' d i v slack Hid Hu Hf Hv Hl Hi Hslack];
    unfold value_of, store_of in *; cbn [fst snd] in *; try discriminate.
  rewrite Hl. split.
  - rewrite existsb_app. cbn. rewrite (has_url_same _ _ Hu). apply orb_true_r.
  - rewrite count_url_app, (count_url_none _ _ Hf), (count_url_one _ _ Hu). reflexivity.
Qed.

(** A run for a url that the collection already holds writes nothing:
    either no call is made, or the insert is refused. *)
Lemma known_url_is_rejected delete_ok url st run :
  PipelineRun delete_ok (Some url) st run ->
  existsb (Mongo.has_url (Some url)) (leads st) = true ->
  value_of run = Ok false /\
  leads (store_of run) = leads st /\
  index (store_of run) = index st /\
  (events_of run = [] \/ exists doc, events_of run = [MongoInsert doc false]).
Proof.
  intros Hrun Hknown.
  destruct Hrun as [st' Hl Hi | st' d Hl Hi | st' d Hu Hf Hl Hi
                   | st' d i upserts Hid Hu Hf Hup Hl Hi
                   | st' d i v slack Hid Hu Hf Hv Hl Hi Hslack];
    unfold value_of, store_of, events_of; cbn [fst snd]; try congruence.
  - auto.
  - repeat split; auto. right. exists d. reflexivity.
Qed.

(** C5: submitting a lead with the same [url] twice (to either pipeline,
    whatever the services answer each time) never leaves two records with
    that url in the document store, which has at most one before; and when
    the first submission was committed, the second returns [False] and
    leaves both stores as they are: it is rejected before any write, or its
    one insert is refused by the unique index on [url], so exactly one
    record with that url is stored. *)
Theorem same_url_is_stored_once env1 env2 lead1 lead2 url st run1 run2 :
  lead_url lead1 = Some url ->
  lead_url lead2 = Some url ->
  count_url url (leads st) <= 1 ->
  run1 = CompanyScraper.process_and_store_lead env1 lead1 st \/
  run1 = LeadDetectionSystem.process_lead env1 lead1 st ->
  run2 = CompanyScraper.process_and_store_lead env2 lead2 (store_of run1) \/
  run2 = LeadDetectionSystem.process_lead env2 lead2 (store_of run1) ->
  count_url url (leads (store_of run2)) <= 1 /\
  (value_of run1 = Ok true ->
   value_of run2 = Ok false /\
   leads (store_of run2) = leads (store_of run1) /\
   index (store_of run2) = index (store_of run1) /\
   count_url url (leads (store_of run2)) = 1 /\
   (events_of run2 = [] \/ exists doc, events_of run2 = [MongoInsert doc false])).
Proof.
  intros Hurl1 Hurl2 Hone Hrun1 Hrun2.
  assert (H1 : PipelineRun (mongo_delete_ok env1) (Some url) st run1).
  { rewrite <- Hurl1. destruct Hrun1 as [-> | ->];
      [apply process_and_store_lead_run | apply process_lead_run]. }
  assert (H2 : PipelineRun (mongo_delete_ok env2) (Some url) (store_of run1) run2).
  { rewrite <- Hurl2. destruct Hrun2 as [-> | ->];
      [apply process_and_store_lead_run | apply process_lead_run]. }
  pose proof (pipeline_keeps_url_unique _ _ _ _ H1 Hone) as Hone1.
  split; [exact (pipeline_keeps_url_unique _ _ _ _ H2 Hone1)|].
  intros Hcommitted.
  destruct (committed_run_stores_url _ _ _ _ H1 Hcommitted) as [Hknown Hcount].
  destruct (known_url_is_rejected _ _ _ _ H2 Hknown) as (Hv & Hl & Hi & Hev).
  repeat split; auto. rewrite Hl. exact Hcount.
Qed.

Lemma same_url_example :
  value_of Examples.first_run = Ok true /\
  (value_of Examples.second_run = Ok false /\
   events_of Examples.second_run = [] /\
   count_url "http://x/1" (leads (store_of Examples.second_run)) = 1) /\
  (value_of Examples.second_run_blind = Ok false /\
   length (events_of Examples.second_run_blind) = 1 /\
   count_url "http://x/1" (leads (store_of Examples.second_run_blind)) = 1).
Proof.
  assert (Hfirst : value_of Examples.first_run = Ok true) by (vm_compute; reflexivity).
  split; [exact Hfirst|]. split.
  - destruct (same_url_is_stored_once (Examples.all_up 0%Q) (Examples.all_up 0%Q)
                Examples.lead_a Examples.lead_a "http://x/1" Examples.empty_store
                Examples.first_run Examples.second_run)
      as [_ Hsecond]; try reflexivity.
    + cbn. lia.
    + left. reflexivity.
    + left. reflexivity.
    + destruct (Hsecond Hfirst) as (Hv & _ & _ & Hc & _).
      split; [exact Hv|]. split; [vm_compute; reflexivity | exact Hc].
  - destruct (same_url_is_stored_once (Examples.all_up 0%Q) Examples.find_down
                Examples.lead_a Examples.lead_a "http://x/1" Examples.empty_store
                Examples.first_run Examples.second_run_blind)
      as [_ Hsecond]; try reflexivity.
    + cbn. lia.
    + left. reflexivity.
    + left. reflexivity.
    + destruct (Hsecond Hfirst) as (Hv & _ & _ & Hc & _).
      split; [exact Hv|]. split; [vm_compute; reflexivity | exact Hc].
Defined.

(** ** The semantic duplicate check *)

Lemma Qgtb_true a b : Qgtb a b = true <-> (b < a)%Q.
Proof.
  unfold Qgtb. rewrite negb_true_iff. split.
  - intros H. apply Qnot_le_lt. intros Hle. apply Qle_bool_iff in Hle. congruence.
  - intros H. destruct (Qle_bool a b) eqn:Hle; [|reflexivity].
    apply Qle_bool_iff in Hle. exfalso. exact (Qlt_not_le _ _ H Hle).
Qed.

Lemma insert_by_score_head m ms :
  exists h rest,
    Pinecone.insert_by_score m ms = h :: rest /\
    (match_score m <= match_score h)%Q /\
    (forall h', hd_error ms = Some h' -> (match_score h' <= match_score h)%Q).
Proof.
  destruct ms as [|m' rest]; cbn.
  - exists m, []. repeat split; [apply Qle_refl | discriminate].
  - destruct (Qle_bool (match_score m') (match_score m)) eqn:Hle.
    + exists m, (m' :: rest). repeat split; [apply Qle_refl|].
      intros h' H. injection H as <-. apply Qle_bool_iff. exact Hle.
    + exists m', (Pinecone.insert_by_score m rest). repeat split.
      * apply Qlt_le_weak. apply Qnot_le_lt. intros H.
        apply Qle_bool_iff in H. congruence.
      * intros h' H. injection H as <-. apply Qle_refl.
Qed.

Lemma insert_by_score_members m ms x :
  In x (Pinecone.insert_by_score m ms) -> x = m \/ In x ms.
Proof.
  induction ms as [|m' rest IH]; cbn.
  - intros [<- | []]. left. reflexivity.
  - destruct (Qle_bool (match_score m') (match_score m)); cbn.
    + intros [<- | H]; auto.
    + intros [<- | H]; auto. destruct (IH H); auto.
Qed.

(** The first match is the best one: no entry of the index scores higher. *)
Lemma ranked_head_is_nearest env query idx v :
  In v idx ->
  exists m rest,
    Pinecone.ranked env query idx = m :: rest /\
    (similarity env query (vec_values v) <= match_score m)%Q.
Proof.
  induction idx as [|w tail IH]; intros Hin; [destruct Hin|].
  cbn [Pinecone.ranked fold_right].
  fold (Pinecone.ranked env query tail).
  destruct (insert_by_score_head (Pinecone.to_match env query w)
              (Pinecone.ranked env query tail)) as (h & rest & -> & Hm & Hhead).
  exists h, rest. split; [reflexivity|].
  destruct Hin as [-> | Hin]; [exact Hm|].
  destruct (IH Hin) as (m & rest' & Heq & Hle).
  eapply Qle_trans; [exact Hle|]. apply Hhead. rewrite Heq. reflexivity.
Qed.

(** Every match is the score of an entry of the index. *)
Lemma ranked_members env query idx m :
  In m (Pinecone.ranked env query idx) ->
  exists v, In v idx /\ match_score m = similarity env query (vec_values v).
Proof.
  induction idx as [|w tail IH]; cbn [Pinecone.ranked fold_right]; [intros []|].
  fold (Pinecone.ranked env query tail). intros H.
  apply insert_by_score_members in H. destruct H as [-> | H].
  - exists w. split; [left; reflexivity|reflexivity].
  - destruct (IH H) as (v & Hv & Hs). exists v. split; [right; exact Hv|exact Hs].
Qed.

Lemma generate_embedding_not_nil env text e :
  VectorStore.generate_embedding env text = Ok e ->
  Str.is_empty (Str.strip text) = false /\ VectorStore.is_nil e = false.
Proof.
  intros H. split.
  - unfold VectorStore.generate_embedding in H.
    destruct (Str.is_empty (Str.strip text)); [discriminate|reflexivity].
  - apply generate_embedding_ok in H. destruct H as [Hlen _].
    destruct e; [discriminate|reflexivity].
Qed.

(** The detector reports a duplicate exactly when the text has an
    embedding, the query goes through, and the best match scores above the
    threshold; the match it reports is that best match. *)
Lemma check_duplicate_some env text threshold st m :
  VectorStore.check_duplicate env text threshold st = (Ok (Some m), st, []) <->
  exists e rest,
    VectorStore.generate_embedding env text = Ok e /\
    pinecone_query_ok env = true /\
    Pinecone.ranked env e (index st) = m :: rest /\
    (threshold < match_score m)%Q.
Proof.
  unfold VectorStore.check_duplicate, VectorStore.find_similar, Pinecone.query.
  unfold_m. split.
  - destruct (Str.is_empty (Str.strip text)); [discriminate|].
    destruct (VectorStore.generate_embedding env text) as [e|x] eqn:He; [|discriminate].
    destruct (generate_embedding_not_nil env text e He) as [_ Hnil]. rewrite Hnil.
    destruct (pinecone_query_ok env); [|discriminate].
    destruct (Pinecone.ranked env e (index st)) as [|best rest] eqn:Hranked;
      cbn; [discriminate|].
    destruct (Qgtb (match_score best) threshold) eqn:Hgt; cbn; [|discriminate].
    intros H. injection H as <-.
    exists e, rest. apply Qgtb_true in Hgt. auto.
  - intros (e & rest & He & Hq & Hranked & Hgt).
    destruct (generate_embedding_not_nil env text e He) as [Hblank Hnil].
    rewrite Hblank, He, Hnil, Hq, Hranked. cbn.
    apply Qgtb_true in Hgt. rewrite Hgt. reflexivity.
Qed.

(** With an entry of the index above the threshold, the check reports a
    duplicate. *)
Lemma check_duplicate_finds_near_entry env text threshold st e v :
  VectorStore.generate_embedding env text = Ok e ->
  pinecone_query_ok env = true ->
  In v (index st) ->
  (threshold < similarity env e (vec_values v))%Q ->
  exists m, VectorStore.check_duplicate env text threshold st = (Ok (Some m), st, []).
Proof.
  intros He Hq Hin Hgt.
  destruct (ranked_head_is_nearest env e (index st) v Hin) as (m & rest & Hranked & Hle).
  exists m. apply check_duplicate_some. exists e, rest.
  repeat split; auto. eapply Qlt_le_trans; eassumption.
Qed.

(** With no entry of the index above the threshold, the check reports no
    duplicate. *)
Lemma check_duplicate_passes_far_entries env text threshold st :
  (forall e v, VectorStore.generate_embedding env text = Ok e -> In v (index st) ->
     (similarity env e (vec_values v) <= threshold)%Q) ->
  VectorStore.check_duplicate env text threshold st = (Ok None, st, []).
Proof.
  intros Hfar.
  destruct (check_duplicate_run env text threshold st) as [[m|] Hrun]; [|exact Hrun].
  exfalso.
  apply check_duplicate_some in Hrun. destruct Hrun as (e & rest & He & _ & Hranked & Hgt).
  destruct (ranked_members env e (index st) m) as (v & Hv & Hs).
  { rewrite Hranked. left. reflexivity. }
  specialize (Hfar e v He Hv). rewrite <- Hs in Hfar.
  exact (Qlt_not_le _ _ Hgt Hfar).
Qed.

(** A lead whose text lies above the threshold from an entry of the index
    is not committed by the scraper's pipeline while the query goes
    through. *)
Lemma near_duplicate_is_not_committed env lead st v :
  pinecone_query_ok env = true ->
  In v (index st) ->
  (forall e, VectorStore.generate_embedding env (embedded_text lead) = Ok e ->
     (SIMILARITY_THRESHOLD < similarity env e (vec_values v))%Q) ->
  discarded st (CompanyScraper.process_and_store_lead env lead st).
Proof.
  unfold embedded_text. intros Hq Hin Hnear.
  unfold CompanyScraper.process_and_store_lead, getitem, discarded,
    value_of, store_of, events_of.
  unfold_m.
  destruct (lead_url lead) as [url|]; [|discard].
  call_step.
  destruct existing; [discard|].
  destruct (lead_company lead) as [company|]; [|discard].
  destruct (lead_title lead) as [title|]; [|discard].
  cbn [get] in Hnear.
  destruct (VectorStore.generate_embedding env _) as [e|] eqn:He; [|discard].
  destruct (check_duplicate_finds_near_entry env _ SIMILARITY_THRESHOLD st e v
              He Hq Hin (Hnear e eq_refl)) as [m ->].
  discard.
Qed.

(** C2, as the code has it: the detector declares a duplicate exactly when
    the query goes through and the single nearest neighbour scores strictly
    above the threshold (0.85); a later lead whose embedded text scores
    strictly above 0.85 against an entry of the index is discarded by
    [process_and_store_lead] while the query goes through, so the two are not
    both committed; and when no entry scores above 0.85 (a score of exactly
    0.85 included) the detector reports no duplicate, so that leads with
    different urls may both be committed. *)
Theorem duplicate_iff_nearest_neighbour_above_threshold :
  SIMILARITY_THRESHOLD = (85 # 100)%Q /\
  (forall env text threshold st m,
     VectorStore.check_duplicate env text threshold st = (Ok (Some m), st, []) <->
     exists e rest,
       VectorStore.generate_embedding env text = Ok e /\
       pinecone_query_ok env = true /\
       Pinecone.ranked env e (index st) = m :: rest /\
       (threshold < match_score m)%Q)
  /\
  (forall env lead st v,
     pinecone_query_ok env = true ->
     In v (index st) ->
     (forall e, VectorStore.generate_embedding env (embedded_text lead) = Ok e ->
        (SIMILARITY_THRESHOLD < similarity env e (vec_values v))%Q) ->
     discarded st (CompanyScraper.process_and_store_lead env lead st))
  /\
  (forall env text threshold st,
     (forall e v, VectorStore.generate_embedding env text = Ok e -> In v (index st) ->
        (similarity env e (vec_values v) <= threshold)%Q) ->
     VectorStore.check_duplicate env text threshold st = (Ok None, st, [])).
Proof.
  split; [reflexivity|].
  split; [exact check_duplicate_some|].
  split; [exact near_duplicate_is_not_committed|].
  exact check_duplicate_passes_far_entries.
Qed.

Lemma near_duplicate_example :
  value_of (Examples.earlier_run (Examples.all_up (9 # 10)%Q)) = Ok true /\
  discarded (store_of (Examples.earlier_run (Examples.all_up (9 # 10)%Q)))
    (Examples.later_run (Examples.all_up (9 # 10)%Q)).
Proof.
  split; [vm_compute; reflexivity|].
  destruct duplicate_iff_nearest_neighbour_above_threshold as (_ & _ & Hnear & _).
  apply (Hnear (Examples.all_up (9 # 10)%Q) Examples.lead_b
           (store_of (Examples.earlier_run (Examples.all_up (9 # 10)%Q)))
           (Examples.earlier_vector (Examples.all_up (9 # 10)%Q))).
  - reflexivity.
  - vm_compute. left. reflexivity.
  - intros e _. vm_compute. reflexivity.
Defined.

(** Against C2 as stated, at the threshold itself: the index reports exactly
    0.85 for the later lead against the earlier one, 0.85 is at least the
    threshold, and both leads are committed.  It also fails, above the
    threshold, when the query does not go through: the check then reports no
    duplicate and both leads are committed. *)
Lemma leads_at_the_threshold_are_both_committed :
  (map match_score
     (Pinecone.ranked (Examples.all_up (85 # 100)%Q) Examples.ones
        (index (store_of (Examples.earlier_run (Examples.all_up (85 # 100)%Q)))))
   = [(85 # 100)%Q] /\
   Qle_bool SIMILARITY_THRESHOLD (85 # 100)%Q = true /\
   value_of (Examples.earlier_run (Examples.all_up (85 # 100)%Q)) = Ok true /\
   value_of (Examples.later_run (Examples.all_up (85 # 100)%Q)) = Ok true /\
   map lead_url (leads (store_of (Examples.later_run (Examples.all_up (85 # 100)%Q))))
   = [Some "http://x/1"; Some "http://x/2"])
  /\
  (map match_score
     (Pinecone.ranked (Examples.query_down (9 # 10)%Q) Examples.ones
        (index (store_of (Examples.earlier_run (Examples.query_down (9 # 10)%Q)))))
   = [(9 # 10)%Q] /\
   value_of (Examples.earlier_run (Examples.query_down (9 # 10)%Q)) = Ok true /\
   value_of (Examples.later_run (Examples.query_down (9 # 10)%Q)) = Ok true /\
   map lead_url (leads (store_of (Examples.later_run (Examples.query_down (9 # 10)%Q))))
   = [Some "http://x/1"; Some "http://x/2"]).
Proof.
  repeat split; vm_compute; reflexivity.
Qed.

Lemma check_duplicate_lead_example :
  App.check_duplicate_lead (Examples.all_up 0%Q) None Examples.lead_without_url
    Examples.empty_store
  = (Raise NameError, Examples.empty_store, []) /\
  MongoDBManager.get_lead_by_url Examples.find_down "http://x/1" Examples.empty_store
  = (Ok None, Examples.empty_store, []).
Proof.
  destruct check_duplicate_lead_handler_raises as (_ & Hlookup & Hhandler).
  split.
  - apply Hhandler.
  - apply Hlookup. reflexivity.
Defined.

(** * Further properties of the code *)

(** ** What a committed run leaves behind *)

Lemma put_holds v idx : In v (Pinecone.put v idx).
Proof.
  induction idx as [|w rest IH]; cbn; [left; reflexivity|].
  destruct (String.eqb (vec_id w) (vec_id v)); [left; reflexivity|right; exact IH].
Qed.

Lemma find_after_fresh url docs doc :
  existsb (Mongo.has_url (Some url)) docs = false ->
  lead_url doc = Some url ->
  find (Mongo.has_url (Some url)) (docs ++ [doc]) = Some doc.
Proof.
  intros Hfresh Hdoc. induction docs as [|d rest IH]; cbn in *.
  - rewrite (has_url_same doc url Hdoc). reflexivity.
  - destruct (Mongo.has_url (Some url) d); [discriminate|]. apply IH. exact Hfresh.
Qed.

Lemma pipeline_run_of env lead st run :
  run = LeadDetectionSystem.process_lead env lead st \/
  run = CompanyScraper.process_and_store_lead env lead st ->
  PipelineRun (mongo_delete_ok env) (lead_url lead) st run.
Proof.
  intros [-> | ->]; [apply process_lead_run | apply process_and_store_lead_run].
Qed.

Lemma store_lead_needs_url env lead embedding st :
  lead_url lead = None ->
  MongoDBManager.store_lead env lead embedding st = (Ok None, st, []).
Proof.
  intros Hurl.
  unfold MongoDBManager.store_lead, MongoDBManager.insert_lead, getitem. unfold_m.
  rewrite Hurl.
  destruct (lead_id lead); [|reflexivity].
  destruct (lead_title lead); reflexivity.
Qed.

(** Without a url nothing is committed. *)
Lemma no_url_no_commit env lead st run :
  run = LeadDetectionSystem.process_lead env lead st \/
  run = CompanyScraper.process_and_store_lead env lead st ->
  lead_url lead = None ->
  value_of run = Ok false.
Proof.
  intros [-> | ->] Hurl.
  - unfold LeadDetectionSystem.process_lead, getitem, value_of. unfold_m.
    destruct (lead_id lead) as [id0|]; cbn;
      (destruct (lead_title lead) as [title|]; [|reflexivity]);
      call_step;
      (destruct dup; [reflexivity|]);
      (destruct (lead_company lead) as [company|]; [|reflexivity]);
      repeat match goal with
             | |- context [if ?c then _ else _] => destruct c; [reflexivity|]
             end;
      (destruct (VectorStore.generate_embedding env _) as [embedding|]; [|reflexivity]);
      rewrite store_lead_needs_url by exact Hurl; reflexivity.
  - unfold CompanyScraper.process_and_store_lead, getitem, value_of. unfold_m.
    rewrite Hurl. reflexivity.
Qed.

(** X1: a lead for which a pipeline returned [True] is in both stores under
    one id: the document store holds a record with the lead's url, the
    vector index an entry with the record's id, and a later look-up of the
    url that goes through returns that very record. *)
Theorem committed_lead_is_in_both_stores env lead st run :
  run = LeadDetectionSystem.process_lead env lead st \/
  run = CompanyScraper.process_and_store_lead env lead st ->
  value_of run = Ok true ->
  exists doc id v url,
    lead_url lead = Some url /\
    In doc (leads (store_of run)) /\
    lead_url doc = Some url /\
    lead_id doc = Some id /\
    In v (index (store_of run)) /\
    vec_id v = id /\
    (forall env', mongo_find_ok env' = true ->
       MongoDBManager.get_lead_by_url env' url (store_of run)
       = (Ok (Some doc), store_of run, [])).
Proof.
  intros Hrun Htrue.
  destruct (lead_url lead) as [url|] eqn:Hurl.
  2:{ rewrite (no_url_no_commit env lead st run Hrun Hurl) in Htrue. discriminate. }
  apply pipeline_run_of in Hrun. rewrite Hurl in Hrun.
  destruct Hrun as [st' Hl Hi | st' d Hl Hi | st' d Hu Hf Hl Hi
                   | st' d i upserts Hid Hu Hf Hup Hl Hi
                   | st' d i v slack Hid Hu Hf Hv Hl Hi Hslack];
    unfold value_of, store_of in *; cbn [fst snd] in *; try discriminate.
  exists d, i, v, url.
  split; [reflexivity|].
  split; [rewrite Hl; apply in_or_app; right; left; reflexivity|].
  split; [exact Hu|]. split; [exact Hid|].
  split; [rewrite Hi; apply put_holds|]. split; [exact Hv|].
  intros env' Hfind.
  unfold MongoDBManager.get_lead_by_url, Mongo.find_one_by_url. unfold_m.
  rewrite Hfind, Hl. rewrite (find_after_fresh url (leads st) d Hf Hu). reflexivity.
Qed.

Lemma committed_lead_example :
  exists doc id v url,
    lead_url Examples.lead_a = Some url /\
    In doc (leads (store_of Examples.first_run)) /\
    lead_url doc = Some url /\
    lead_id doc = Some id /\
    In v (index (store_of Examples.first_run)) /\
    vec_id v = id /\
    (forall env', mongo_find_ok env' = true ->
       MongoDBManager.get_lead_by_url env' url (store_of Examples.first_run)
       = (Ok (Some doc), store_of Examples.first_run, [])).
Proof.
  apply (committed_lead_is_in_both_stores (Examples.all_up 0%Q) Examples.lead_a
           Examples.empty_store Examples.first_run).
  - right. reflexivity.
  - vm_compute. reflexivity.
Defined.

(** ** Success, and what the webhook has to do with it *)

Lemma upserts_ok_slack slack :
  Forall is_slack_post slack -> upserts_ok slack = 0.
Proof.
  unfold upserts_ok. induction 1 as [|e rest He _ IH]; [reflexivity|].
  cbn. destruct e; try contradiction. exact IH.
Qed.

Lemma upserts_ok_app ev1 ev2 : upserts_ok (ev1 ++ ev2) = upserts_ok ev1 + upserts_ok ev2.
Proof.
  unfold upserts_ok. rewrite filter_app, length_app. reflexivity.
Qed.

(** A run returns a boolean; it is [True] exactly when the run holds one
    successful upsert, and then it holds no delete. *)
Lemma pipeline_run_outcome delete_ok url st run :
  PipelineRun delete_ok url st run ->
  exists b,
    value_of run = Ok b /\
    upserts_ok (events_of run) = (if b then 1 else 0) /\
    (b = true -> forall id ok, ~ In (MongoDelete id ok) (events_of run)) /\
    (forall text status, In (SlackPost text status) (events_of run) -> b = true).
Proof.
  intros Hrun.
  destruct Hrun as [st' Hl Hi | st' d Hl Hi | st' d Hu Hf Hl Hi
                   | st' d i upserts Hid Hu Hf Hup Hl Hi
                   | st' d i v slack Hid Hu Hf Hv Hl Hi Hslack];
    unfold value_of, events_of; cbn [fst snd].
  - exists false. repeat split; try discriminate. intros ? ? [].
  - exists false. repeat split; try discriminate. intros ? ? [H|[]]. discriminate.
  - exists false. repeat split; try discriminate. intros ? ? [H|[]]. discriminate.
  - exists false. split; [reflexivity|]. split; [|split; [discriminate|]].
    + destruct Hup as [-> | ->]; reflexivity.
    + intros text status [H|H]; [discriminate|].
      apply in_app_or in H. destruct H as [H|[H|[]]]; [|discriminate].
      destruct Hup as [-> | ->]; [destruct H|]. destruct H as [H|[]]. discriminate.
  - exists true. split; [reflexivity|]. split; [|split; [|reflexivity]].
    + change (MongoInsert d true :: PineconeUpsert i true :: slack)
        with ([MongoInsert d true; PineconeUpsert i true] ++ slack)%list.
      rewrite upserts_ok_app, (upserts_ok_slack slack Hslack). reflexivity.
    + intros _ id ok [H|[H|H]]; try discriminate.
      rewrite Forall_forall in Hslack. exact (Hslack _ H).
Qed.

(** X2: both pipelines always return a boolean, and it is [True] exactly
    when the run contains a successful upsert into the vector index (the
    last of the two writes); a run that returned [True] sent no delete, and
    the webhook is only ever called in such a run, so what the webhook
    answers changes neither the result nor the stores. *)
Theorem success_is_decided_by_the_two_writes env lead st run :
  run = LeadDetectionSystem.process_lead env lead st \/
  run = CompanyScraper.process_and_store_lead env lead st ->
  exists b,
    value_of run = Ok b /\
    (b = true <-> exists id, In (PineconeUpsert id true) (events_of run)) /\
    (b = true -> forall id ok, ~ In (MongoDelete id ok) (events_of run)) /\
    (forall text status, In (SlackPost text status) (events_of run) -> b = true).
Proof.
  intros Hrun. apply pipeline_run_of in Hrun.
  destruct (pipeline_run_outcome _ _ _ _ Hrun) as (b & Hv & Hcount & Hdel & Hslack).
  exists b. split; [exact Hv|]. split; [|split; assumption].
  split.
  - intros ->.
    unfold upserts_ok in Hcount.
    destruct (filter is_upsert_ok (events_of run)) as [|e rest] eqn:Hf; [discriminate|].
    assert (He : In e (filter is_upsert_ok (events_of run))) by (rewrite Hf; left; reflexivity).
    apply filter_In in He. destruct He as [Hin He].
    destruct e as [| | id [|] |]; try discriminate. exists id. exact Hin.
  - intros [id Hin]. destruct b; [reflexivity|]. exfalso.
    assert (He : In (PineconeUpsert id true) (filter is_upsert_ok (events_of run))).
    { apply filter_In. split; [exact Hin|reflexivity]. }
    unfold upserts_ok in Hcount.
    destruct (filter is_upsert_ok (events_of run)); [destruct He|discriminate].
Qed.

Lemma success_despite_webhook_example :
  exists b,
    value_of MoreExamples.unnotified_run = Ok b /\
    (b = true <->
     exists id, In (PineconeUpsert id true) (events_of MoreExamples.unnotified_run)) /\
    (b = true ->
     forall id ok, ~ In (MongoDelete id ok) (events_of MoreExamples.unnotified_run)) /\
    (forall text status,
       In (SlackPost text status) (events_of MoreExamples.unnotified_run) -> b = true).
Proof.
  apply (success_is_decided_by_the_two_writes MoreExamples.webhook_failing
           Examples.lead_a Examples.empty_store).
  left. reflexivity.
Defined.

(** ** A batch of leads *)

Lemma has_url_true u d : Mongo.has_url (Some u) d = true -> lead_url d = Some u.
Proof.
  unfold Mongo.has_url, option_string_eqb.
  destruct (lead_url d) as [x|]; [|discriminate].
  intros H. apply String.eqb_eq in H. congruence.
Qed.

Lemma count_url_with u docs d :
  count_url u (docs ++ [d]) =
  count_url u docs + (if Mongo.has_url (Some u) d then 1 else 0).
Proof.
  rewrite count_url_app. unfold count_url at 2. cbn.
  destruct (Mongo.has_url (Some u) d); reflexivity.
Qed.

(** A pipeline run keeps every url at one record at most. *)
Lemma pipeline_keeps_urls_unique delete_ok url st run u :
  PipelineRun delete_ok url st run ->
  count_url u (leads st) <= 1 ->
  count_url u (leads (store_of run)) <= 1.
Proof.
  intros Hrun Hone.
  assert (Hadd : forall d, lead_url d = url ->
            existsb (Mongo.has_url url) (leads st) = false ->
            count_url u (leads st ++ [d]) <= 1).
  { intros d Hu Hf. rewrite count_url_with.
    destruct (Mongo.has_url (Some u) d) eqn:Hd; [|lia].
    apply has_url_true in Hd. rewrite Hd in Hu. subst url.
    rewrite (count_url_none u (leads st) Hf). lia. }
  destruct Hrun as [st' Hl Hi | st' d Hl Hi | st' d Hu Hf Hl Hi
                   | st' d i upserts Hid Hu Hf Hup Hl Hi
                   | st' d i v slack Hid Hu Hf Hv Hl Hi Hslack];
    unfold store_of; cbn [fst snd]; rewrite Hl; auto.
  destruct delete_ok; auto.
  eapply Nat.le_trans; [apply count_url_remove_first|auto].
Qed.

Lemma count_successful_run env batch :
  forall successful st,
  exists k st' ev,
    LeadDetectionSystem.count_successful env batch successful st
    = (Ok (successful + k), st', ev) /\
    k <= length batch /\
    k = upserts_ok ev /\
    (forall u, count_url u (leads st) <= 1 -> count_url u (leads st') <= 1).
Proof.
  induction batch as [|lead rest IH]; intros successful st;
    cbn [LeadDetectionSystem.count_successful].
  - exists 0, st, []. unfold ret. rewrite Nat.add_0_r. repeat split; auto.
  - unfold bind.
    pose proof (process_lead_run env lead st) as Hrun.
    destruct (pipeline_run_outcome _ _ _ _ Hrun) as (b & Hv & Hcount & _ & _).
    pose proof (fun u => pipeline_keeps_urls_unique _ _ _ _ u Hrun) as Hurls.
    destruct (LeadDetectionSystem.process_lead env lead st) as [[r st1] ev1].
    unfold value_of, events_of, store_of in *. cbn [fst snd] in *. subst r.
    destruct (IH (if b then S successful else successful) st1)
      as (k & st' & ev & -> & Hk & Hup & Hinv).
    exists ((if b then 1 else 0) + k), st', (ev1 ++ ev)%list.
    split; [|split; [|split]].
    + f_equal. f_equal. f_equal. destruct b; lia.
    + cbn [length]. destruct b; lia.
    + rewrite upserts_ok_app, Hcount, Hup. reflexivity.
    + intros u Hone. apply Hinv. apply Hurls. exact Hone.
Qed.

Lemma process_leads_total env batch st :
  exists n st' ev,
    LeadDetectionSystem.process_leads env batch st = (Ok n, st', ev) /\
    n <= length batch /\
    n = upserts_ok ev /\
    (forall u, count_url u (leads st) <= 1 -> count_url u (leads st') <= 1).
Proof.
  unfold LeadDetectionSystem.process_leads.
  destruct (count_successful_run env batch 0 st) as (k & st' & ev & H & Hk & Hup & Hinv).
  exists k, st', ev. auto.
Qed.

(** X3: [process_leads] returns, for every batch, the number of leads that
    were committed: it is at most the size of the batch and equals the number
    of successful upserts into the vector index during the batch; and a
    batch never leaves two records with one url in a document store that had
    none such before. *)
Theorem process_leads_counts_the_commits env batch st :
  exists n st' ev,
    LeadDetectionSystem.process_leads env batch st = (Ok n, st', ev) /\
    n <= length batch /\
    n = upserts_ok ev /\
    (forall u, count_url u (leads st) <= 1 -> count_url u (leads st') <= 1).
Proof.
  unfold LeadDetectionSystem.process_leads.
  destruct (count_successful_run env batch 0 st) as (k & st' & ev & H & Hk & Hup & Hinv).
  exists k, st', ev. auto.
Qed.

Lemma process_leads_example :
  value_of (LeadDetectionSystem.process_leads (Examples.all_up 0%Q) MoreExamples.batch
              Examples.empty_store) = Ok 2 /\
  map lead_url
    (leads (store_of (LeadDetectionSystem.process_leads (Examples.all_up 0%Q)
                        MoreExamples.batch Examples.empty_store)))
  = [Some "http://x/1"; Some "http://x/2"].
Proof.
  destruct (process_leads_counts_the_commits (Examples.all_up 0%Q) MoreExamples.batch
              Examples.empty_store) as (n & st' & ev & Hrun & _).
  split; vm_compute; reflexivity.
Defined.

(** ** Evaluations that fail *)

(** X4: an evaluation that fails is a rejection.  When the relevance call
    or the value call raises, the evaluators answer their default
    ([is_relevant = False] with score 0, [is_valuable = False] with
    [["none"]]), [process_lead] discards the lead without writing anything,
    and [_fetch_news] returns no lead whose evaluations failed. *)
Theorem failed_evaluation_is_a_rejection :
  (forall env lead st,
     chat_relevance env (get (lead_company lead) "") (get (lead_title lead) "")
       (get (lead_description lead) "") = None \/
     chat_csm_value env (get (lead_company lead) "") (get (lead_title lead) "")
       (get (lead_description lead) "") = None ->
     discarded st (LeadDetectionSystem.process_lead env lead st))
  /\
  (forall env company time_range st,
     exists found st',
       CompanyScraper._fetch_news env company time_range st = (Ok found, st', []) /\
       forall lead, In lead found ->
         exists title description,
           lead_title lead = Some title /\
           lead_description lead = Some description /\
           chat_relevance env company title description <> None /\
           chat_csm_value env company title description <> None).
Proof.
  split.
  - intros env lead st [Hrel | Hval].
    + apply process_lead_relevance_gate.
      unfold relevance_of, CompanyScraper._evaluate_article_relevance.
      rewrite Hrel. cbn. lia.
    + apply process_lead_value_gate.
      unfold csm_value_of, CompanyScraper._evaluate_csm_value.
      rewrite Hval. reflexivity.
  - intros env company time_range st.
    destruct (fetch_news_run env company time_range st)
      as (found & st' & Hrun & _ & _ & Hsound & _).
    exists found, st'. split; [exact Hrun|].
    intros lead Hin.
    destruct (Hsound lead Hin) as (entry & Hq & _ & Htitle & Hdesc & _).
    exists (entry_title_text env entry), (entry_description_text env entry).
    split; [exact Htitle|]. split; [exact Hdesc|].
    unfold qualifies, entry_relevance, entry_csm_value,
      CompanyScraper._evaluate_article_relevance, CompanyScraper._evaluate_csm_value in Hq.
    split; intros Hnone; rewrite Hnone in Hq; cbn in Hq.
    + discriminate.
    + rewrite andb_false_r in Hq. discriminate.
Qed.

Lemma failed_evaluation_example :
  discarded Examples.empty_store
    (LeadDetectionSystem.process_lead MoreExamples.relevance_down Examples.lead_a
       Examples.empty_store).
Proof.
  apply (proj1 failed_evaluation_is_a_rejection). left. reflexivity.
Defined.

(** The value gate of [process_lead] has a second arm. *)
Lemma process_lead_none_gate env lead st :
  value_type (csm_value_of env lead) = ["none"] ->
  discarded st (LeadDetectionSystem.process_lead env lead st).
Proof.
  unfold csm_value_of. intros Hnone.
  unfold LeadDetectionSystem.process_lead, getitem, discarded, value_of, store_of, events_of.
  unfold_m.
  destruct (lead_id lead) as [id0|]; cbn;
    (destruct (lead_title lead) as [title|]; [|discard]);
    call_step;
    (destruct dup; [discard|]);
    (destruct (lead_company lead) as [company|]; [|discard]);
    cbn in Hnone; rewrite Hnone; cbn; rewrite orb_true_r;
    match goal with |- context [if ?c then _ else _] => destruct c end; discard.
Qed.

(** X5: the value gate is stricter at commit than at ingestion.  A value
    evaluation that says [is_valuable = True] and lists exactly [["none"]]
    lets an entry through [_fetch_news] (when it is relevant with a score of
    at least 50), while [process_lead] discards every lead with such an
    evaluation without writing anything: the lead that ingestion returned
    for the entry cannot be committed while the evaluator keeps its
    answer. *)
Theorem sentinel_value_type_passes_ingestion_only :
  (forall env lead st,
     value_type (csm_value_of env lead) = ["none"] ->
     discarded st (LeadDetectionSystem.process_lead env lead st))
  /\
  (forall env company time_range st entries entry,
     feed_entries env company time_range = Some entries ->
     In entry (firstn 10 entries) ->
     is_relevant (entry_relevance env company entry) = true ->
     (50 <= relevance_score (entry_relevance env company entry))%Z ->
     is_valuable (entry_csm_value env company entry) = true ->
     value_type (entry_csm_value env company entry) = ["none"] ->
     exists lead,
       In lead (Examples.fetched (CompanyScraper._fetch_news env company time_range st)) /\
       lead_from env company entry lead /\
       forall st2, discarded st2 (LeadDetectionSystem.process_lead env lead st2)).
Proof.
  split; [exact process_lead_none_gate|].
  intros env company time_range st entries entry Hfeed Hin Hrel Hscore Hval Hnone.
  destruct (fetch_news_run env company time_range st)
    as (found & st' & Hrun & _ & _ & _ & Hcomplete).
  destruct (Hcomplete entries entry Hfeed Hin) as (lead & Hlead & Hfrom).
  { unfold qualifies. rewrite Hrel, Hval. apply Z.leb_le in Hscore. rewrite Hscore.
    reflexivity. }
  exists lead. rewrite Hrun. split; [exact Hlead|]. split; [exact Hfrom|].
  intros st2. apply process_lead_none_gate.
  destruct Hfrom as (_ & Htitle & Hdesc & Hcompany & _).
  unfold csm_value_of. rewrite Htitle, Hdesc, Hcompany. cbn [get]. exact Hnone.
Qed.

Lemma sentinel_value_type_example :
  discarded Examples.empty_store
    (LeadDetectionSystem.process_lead MoreExamples.valuable_none Examples.lead_a
       Examples.empty_store) /\
  length
    (Examples.fetched
       (CompanyScraper._fetch_news MoreExamples.valuable_none "Acme" "7d"
          Examples.empty_store)) = 2.
Proof.
  split.
  - apply (proj1 sentinel_value_type_passes_ingestion_only). reflexivity.
  - vm_compute. reflexivity.
Defined.

(** ** More on the notifier *)

(** X6: [notify] never raises and leaves the stores alone; it calls the
    webhook at most once, and with Slack enabled it returns [True] only
    after a call that the webhook answered with 200: any other answer, or a
    request that raised, gives [False]. *)
Theorem notify_reports_success_only_after_a_200 self env lead st :
  exists b ev,
    LeadNotifier.notify self env lead st = (Ok b, st, ev) /\
    length ev <= 1 /\
    (LeadNotifier.slack_enabled self = true -> b = true ->
     exists text, ev = [SlackPost text (Some 200%Z)]) /\
    (forall text status, In (SlackPost text status) ev -> status <> Some 200%Z -> b = false).
Proof.
  unfold LeadNotifier.notify, LeadNotifier.send_slack_notification, LeadNotifier.post,
    getitem.
  unfold_m.
  destruct (LeadNotifier.slack_enabled self); cbn [negb].
  2:{ exists true, []. repeat split; auto; try discriminate; try (intros ? ? []). }
  destruct (LeadNotifier._generate_slack_message env lead) as [message|e].
  2:{ exists false, []. repeat split; auto; try discriminate; try (intros ? ? []). }
  destruct (LeadNotifier.webhook_url self) as [hook|].
  2:{ exists false, []. repeat split; auto; try discriminate; try (intros ? ? []). }
  destruct (requests_post env hook message) as [code|]; cbn.
  2:{ exists false, [SlackPost message None]. repeat split; auto; discriminate. }
  destruct (code =? 200)%Z eqn:Hcode; cbn.
  - apply Z.eqb_eq in Hcode. subst code.
    destruct (lead_company lead); cbn; [destruct (lead_title lead); cbn|].
    + exists true, [SlackPost message (Some 200%Z)]. repeat split; auto.
      * exists message. reflexivity.
      * intros text status [H|[]] Hne. congruence.
    + exists false, [SlackPost message (Some 200%Z)]. repeat split; auto; discriminate.
    + exists false, [SlackPost message (Some 200%Z)]. repeat split; auto; discriminate.
  - exists false, [SlackPost message (Some code)]. repeat split; auto; discriminate.
Qed.

(** X7: a lead dictionary that lacks [company] or [title] is never reported
    as notified.  With a message generated for it and a webhook that answers
    200, [send_slack_notification] posts the message and still returns
    [False] (its success line reads both keys); with an unusable answer of
    the generation call there is no message to fall back to, nothing is
    posted, and it returns [False]. *)
Theorem lead_without_company_or_title_is_reported_undelivered
    self env lead st hook :
  LeadNotifier.slack_enabled self = true ->
  LeadNotifier.webhook_url self = Some hook ->
  lead_company lead = None \/ lead_title lead = None ->
  (forall text,
     LeadNotifier._generate_slack_message env lead = Ok text ->
     requests_post env hook text = Some 200%Z ->
     LeadNotifier.send_slack_notification self env lead st
     = (Ok false, st, [SlackPost text (Some 200%Z)]))
  /\
  (Malformed env lead (chat_message env lead) ->
   LeadNotifier.send_slack_notification self env lead st = (Ok false, st, [])).
Proof.
  intros Hon Hhook Hmissing.
  unfold LeadNotifier.send_slack_notification, LeadNotifier.post, getitem.
  rewrite Hon, Hhook. cbn [negb]. unfold_m. split.
  - intros text -> ->. cbn.
    destruct Hmissing as [-> | Ht]; [reflexivity|].
    rewrite Ht. destruct (lead_company lead); reflexivity.
  - intros Hmal. rewrite (malformed_gives_fallback env lead Hmal).
    unfold LeadNotifier._generate_fallback_message, bind_result, getitem.
    destruct Hmissing as [-> | Ht]; [reflexivity|].
    rewrite Ht. destruct (lead_company lead); [destruct (lead_url lead)|]; reflexivity.
Qed.

Lemma lead_without_company_example :
  LeadNotifier.send_slack_notification Examples.slack_on
    (MoreExamples.complete_payload (Some 200%Z)) MoreExamples.lead_without_company
    Examples.empty_store
  = (Ok false, Examples.empty_store,
     [SlackPost
        (MoreExamples.message_for (MoreExamples.complete_payload (Some 200%Z))
           MoreExamples.lead_without_company)
        (Some 200%Z)]) /\
  LeadNotifier.send_slack_notification Examples.slack_on
    (Examples.incomplete_payload (Some 200%Z)) MoreExamples.lead_without_company
    Examples.empty_store
  = (Ok false, Examples.empty_store, []).
Proof.
  split.
  - refine (proj1 (lead_without_company_or_title_is_reported_undelivered
      Examples.slack_on (MoreExamples.complete_payload (Some 200%Z))
      MoreExamples.lead_without_company Examples.empty_store
      "https://hooks.example/T" eq_refl eq_refl (or_introl eq_refl)) _ _ _);
      reflexivity.
  - refine (proj2 (lead_without_company_or_title_is_reported_undelivered
      Examples.slack_on (Examples.incomplete_payload (Some 200%Z))
      MoreExamples.lead_without_company Examples.empty_store
      "https://hooks.example/T" eq_refl eq_refl (or_introl eq_refl)) _).
    apply (@malformed_missing_field _ _ _ "urgency_level"); [|reflexivity].
    cbn. auto.
Defined.

Lemma contains_self s : Str.contains s s = true.
Proof.
  destruct s as [|c s]; [reflexivity|].
  cbn. rewrite Nat.eqb_refl.
  replace (Str.startswith s s) with true; [reflexivity|].
  symmetry. induction s as [|d s IH]; [reflexivity|]. cbn. rewrite Nat.eqb_refl. exact IH.
Qed.

Lemma contains_earlier needle s suffix :
  Str.contains needle s = true -> Str.contains needle (s ++ suffix) = true.
Proof.
  assert (Hstart : forall p t, Str.startswith p t = true ->
                               Str.startswith p (t ++ suffix) = true).
  { induction p as [|a p IH]; intros t H; [reflexivity|].
    destruct t as [|b t]; [discriminate|]. cbn in *.
    apply andb_prop in H. destruct H as [Hab Hp]. rewrite Hab. cbn. apply IH. exact Hp. }
  induction s as [|c s IH]; intros H.
  - cbn in H. rewrite orb_false_r in H.
    destruct needle; [|discriminate].
    destruct suffix; reflexivity.
  - cbn in *. apply orb_prop in H. destruct H as [H|H].
    + destruct needle as [|a needle]; [reflexivity|].
      cbn in *. apply andb_prop in H. destruct H as [Hac Hn].
      rewrite Hac. cbn. rewrite (Hstart needle s Hn). reflexivity.
    + rewrite (IH H). apply orb_true_r.
Qed.

Lemma contains_join needle sep parts part :
  In part parts -> Str.contains needle part = true ->
  Str.contains needle (Str.join sep parts) = true.
Proof.
  intros Hin Hc. induction parts as [|p rest IH]; [destruct Hin|].
  destruct rest as [|q rest'].
  - destruct Hin as [-> | []]. exact Hc.
  - change (Str.join sep (p :: q :: rest')) with (p ++ sep ++ Str.join sep (q :: rest')).
    destruct Hin as [-> | Hin].
    + apply contains_earlier. exact Hc.
    + apply contains_later. apply contains_later. apply IH. exact Hin.
Qed.

Lemma format_message_names_the_lead env lead payload text company url title :
  lead_company lead = Some company ->
  lead_url lead = Some url ->
  lead_title lead = Some title ->
  LeadNotifier.format_message env lead payload = Ok text ->
  Str.contains company text = true /\
  Str.contains url text = true /\
  Str.contains title text = true.
Proof.
  intros Hc Hu Ht. unfold LeadNotifier.format_message, bind_result.
  rewrite Hc, Hu, Ht. unfold get.
  destruct (LeadNotifier.dict_get payload "greeting" _) as [greeting|]; [|discriminate].
  destruct (LeadNotifier.dict_get payload "main_points" _) as [main_points|]; [|discriminate].
  destruct (LeadNotifier.iterate main_points) as [points|]; [|discriminate].
  destruct (LeadNotifier.dict_get payload "action_suggestions" _) as [suggestions|];
    [|discriminate].
  destruct (LeadNotifier.iterate suggestions) as [actions|]; [|discriminate].
  destruct (LeadNotifier.dict_get payload "urgency_level" _) as [urgency|]; [|discriminate].
  destruct (LeadNotifier.urgency_line urgency) as [last_line|]; [|discriminate].
  destruct (LeadNotifier.as_part greeting) as [first_line|]; [|discriminate].
  intros H. cbv zeta in H.
  match type of H with
  | Ok ?t = Ok _ => assert (Heq : t = text) by congruence
  end.
  rewrite <- Heq. clear H Heq.
  split; [|split].
  - apply (contains_join company _ _ ("🔍 *New Lead Alert for " ++ company ++ "*")).
    + cbn. right. right. left. reflexivity.
    + apply contains_later. apply contains_here.
  - apply (contains_join url _ _ ("<" ++ url ++ "|" ++ title ++ ">")).
    + cbn. right. right. right. left. reflexivity.
    + apply contains_later. apply contains_here.
  - apply (contains_join title _ _ ("<" ++ url ++ "|" ++ title ++ ">")).
    + cbn. right. right. right. left. reflexivity.
    + do 3 apply contains_later. apply contains_here.
Qed.

(** X8: for a lead that has [company], [url] and [title],
    [_generate_slack_message] always returns a message, whatever the
    generation call answers, and the message contains the three verbatim:
    in the generated layout as in the fallback one. *)
Theorem every_message_names_the_lead env lead company url title :
  lead_company lead = Some company ->
  lead_url lead = Some url ->
  lead_title lead = Some title ->
  exists text,
    LeadNotifier._generate_slack_message env lead = Ok text /\
    Str.contains company text = true /\
    Str.contains url text = true /\
    Str.contains title text = true.
Proof.
  intros Hc Hu Ht.
  pose proof (fallback_message_of_lead lead company url title Hc Hu Ht) as Hfb.
  pose proof (fallback_text_quotes_the_lead company url title) as (Q1 & Q2 & Q3).
  assert (Hfallback : exists text,
            Ok (fallback_text company url title) = Ok text /\
            Str.contains company text = true /\
            Str.contains url text = true /\
            Str.contains title text = true).
  { exists (fallback_text company url title). auto. }
  unfold LeadNotifier._generate_slack_message, try_result, bind_result.
  destruct (chat_message env lead) as [ | | | | payload];
    rewrite ?Hfb; try exact Hfallback.
  destruct (LeadNotifier.all_in LeadNotifier.required_fields payload) as [[|]|];
    cbn [negb]; rewrite ?Hfb; try exact Hfallback.
  destruct (LeadNotifier.format_message env lead payload) as [text|] eqn:Hfmt;
    [|exact Hfallback].
  exists text. split; [reflexivity|].
  exact (format_message_names_the_lead env lead payload text company url title
           Hc Hu Ht Hfmt).
Qed.

Lemma every_message_example :
  exists text,
    LeadNotifier._generate_slack_message (MoreExamples.complete_payload (Some 200%Z))
      Examples.lead_a = Ok text /\
    Str.contains "Acme" text = true /\
    Str.contains "http://x/1" text = true /\
    Str.contains "Acme raises a round" text = true.
Proof.
  apply every_message_names_the_lead; reflexivity.
Defined.

(** ** The vector store *)

Lemma index_lookup_put_same v idx :
  index_lookup (vec_id v) (Pinecone.put v idx) = Some v.
Proof.
  unfold index_lookup. induction idx as [|w rest IH]; cbn.
  - rewrite String.eqb_refl. reflexivity.
  - destruct (String.eqb (vec_id w) (vec_id v)) eqn:Hw; cbn.
    + rewrite String.eqb_refl. reflexivity.
    + rewrite Hw. exact IH.
Qed.

Lemma index_lookup_put_other v idx id :
  id <> vec_id v ->
  index_lookup id (Pinecone.put v idx) = index_lookup id idx.
Proof.
  intros Hne. unfold index_lookup. induction idx as [|w rest IH]; cbn.
  - destruct (String.eqb (vec_id v) id) eqn:H; [|reflexivity].
    apply String.eqb_eq in H. congruence.
  - destruct (String.eqb (vec_id w) (vec_id v)) eqn:Hw; cbn.
    + apply String.eqb_eq in Hw.
      destruct (String.eqb (vec_id v) id) eqn:Hv.
      * apply String.eqb_eq in Hv. congruence.
      * rewrite Hw, Hv. reflexivity.
    + destruct (String.eqb (vec_id w) id); [reflexivity|exact IH].
Qed.

(** X9: [insert_vector] returns [True] exactly when [id], [vector] and
    [metadata] are all non-empty and the upsert goes through.  Then the
    index holds the new entry under [id] (replacing an older entry of that
    id) and every other id still leads to the entry it led to; otherwise the
    index is unchanged.  The document store is never touched. *)
Theorem insert_vector_then_lookup env id vector metadata st :
  exists b st',
    VectorStore.insert_vector env id vector metadata st
    = (Ok b, st',
       if Str.is_empty id || VectorStore.is_nil vector || VectorStore.is_nil metadata
       then [] else [PineconeUpsert id b]) /\
    leads st' = leads st /\
    b = negb (Str.is_empty id || VectorStore.is_nil vector || VectorStore.is_nil metadata)
        && pinecone_upsert_ok env /\
    (b = true ->
     index_lookup id (index st') = Some (mkVector id vector metadata) /\
     forall other, other <> id ->
       index_lookup other (index st') = index_lookup other (index st)) /\
    (b = false -> st' = st).
Proof.
  unfold VectorStore.insert_vector, Pinecone.upsert. unfold_m.
  destruct (Str.is_empty id || VectorStore.is_nil vector || VectorStore.is_nil metadata);
    cbn.
  - exists false, st. repeat split; auto; discriminate.
  - destruct (pinecone_upsert_ok env); cbn.
    + exists true, (set_index st (Pinecone.put (mkVector id vector metadata) (index st))).
      repeat split; auto; try discriminate.
      * apply (index_lookup_put_same (mkVector id vector metadata)).
      * intros other Hne.
        apply (index_lookup_put_other (mkVector id vector metadata)). exact Hne.
    + exists false, st. repeat split; auto; discriminate.
Qed.

Lemma insert_by_score_permutation m ms :
  Permutation (Pinecone.insert_by_score m ms) (m :: ms).
Proof.
  induction ms as [|m' rest IH]; cbn; [reflexivity|].
  destruct (Qle_bool (match_score m') (match_score m)); [reflexivity|].
  rewrite IH. apply perm_swap.
Qed.

Lemma ranked_permutation env query idx :
  Permutation (Pinecone.ranked env query idx) (map (Pinecone.to_match env query) idx).
Proof.
  induction idx as [|v rest IH]; cbn [Pinecone.ranked fold_right map]; [reflexivity|].
  fold (Pinecone.ranked env query rest).
  rewrite insert_by_score_permutation. constructor. exact IH.
Qed.

Lemma insert_by_score_descending m ms :
  descending ms -> descending (Pinecone.insert_by_score m ms).
Proof.
  induction ms as [|m' rest IH]; intros Hd; cbn [Pinecone.insert_by_score].
  - exact I.
  - destruct (Qle_bool (match_score m') (match_score m)) eqn:Hle.
    + split; [apply Qle_bool_iff; exact Hle|exact Hd].
    + assert (Hlt : (match_score m <= match_score m')%Q).
      { apply Qlt_le_weak. apply Qnot_le_lt. intros H.
        apply Qle_bool_iff in H. congruence. }
      destruct rest as [|m'' rest'].
      * cbn. split; [exact Hlt|exact I].
      * destruct Hd as [Hhead Hrest]. specialize (IH Hrest).
        cbn [Pinecone.insert_by_score] in *.
        destruct (Qle_bool (match_score m'') (match_score m)).
        -- split; [exact Hlt|exact IH].
        -- split; [exact Hhead|exact IH].
Qed.

Lemma ranked_descending env query idx :
  descending (Pinecone.ranked env query idx).
Proof.
  induction idx as [|v rest IH]; cbn [Pinecone.ranked fold_right]; [exact I|].
  fold (Pinecone.ranked env query rest). apply insert_by_score_descending. exact IH.
Qed.

(** X11: [find_similar] never raises and writes nothing.  For an empty
    vector, or when the query does not go through, it returns [[]].
    Otherwise it returns the [top_k] best entries of the index, best first:
    its answer is the front of a rearrangement of the whole index, scored
    against the vector, in which no match scores higher than the one before
    it. *)
Theorem find_similar_returns_the_best_first env vector top_k st :
  exists results,
    VectorStore.find_similar env vector top_k st = (Ok results, st, []) /\
    (vector = [] \/ pinecone_query_ok env = false -> results = []) /\
    (vector <> [] -> pinecone_query_ok env = true ->
     length results = Nat.min top_k (length (index st)) /\
     exists others,
       Permutation (results ++ others)
         (map (Pinecone.to_match env vector) (index st)) /\
       descending (results ++ others)).
Proof.
  unfold VectorStore.find_similar, Pinecone.query. unfold_m.
  destruct vector as [|x vector]; cbn [VectorStore.is_nil].
  - exists []. split; [reflexivity|]. split; [reflexivity|]. intros H. congruence.
  - destruct (pinecone_query_ok env).
    + eexists. split; [reflexivity|]. split.
      * intros [H|H]; discriminate.
      * intros _ _. split.
        -- rewrite length_firstn.
           rewrite (Permutation_length (ranked_permutation env (x :: vector) (index st))).
           rewrite length_map. reflexivity.
        -- exists (skipn top_k (Pinecone.ranked env (x :: vector) (index st))).
           rewrite firstn_skipn. split; [apply ranked_permutation|apply ranked_descending].
    + exists []. split; [reflexivity|]. split; [reflexivity|]. intros _ H. discriminate.
Qed.

(** ** The document store *)

(** X12: a record that [insert_lead] returns is the record it stored: the
    collection has grown by exactly that record, a look-up of its url (with
    the same services) finds it, and it carries the lead's id, title, url and
    company, the embedding, and the defaults [""], ["unknown"] and
    ["unknown"] for a missing description, source and category. *)
Theorem insert_lead_then_get_lead_by_url env lead embedding st doc st' ev :
  MongoDBManager.insert_lead env lead embedding st = (Ok (Some doc), st', ev) ->
  exists url,
    lead_url lead = Some url /\
    leads st' = (leads st ++ [doc])%list /\
    index st' = index st /\
    ev = [MongoInsert doc true] /\
    MongoDBManager.get_lead_by_url env url st' = (Ok (Some doc), st', []) /\
    lead_id doc = lead_id lead /\
    lead_title doc = lead_title lead /\
    lead_url doc = lead_url lead /\
    lead_company doc = lead_company lead /\
    lead_vector_embedding doc = Some embedding /\
    lead_description doc = Some (get (lead_description lead) "") /\
    lead_source doc = Some (get (lead_source lead) "unknown") /\
    lead_category doc = Some (get (lead_category lead) "unknown").
Proof.
  unfold MongoDBManager.insert_lead, Mongo.insert_one, Mongo.find_one_inserted, getitem.
  unfold_m.
  destruct (lead_id lead) as [id|] eqn:Hid; [|discriminate].
  destruct (lead_title lead) as [title|] eqn:Htitle; [|discriminate].
  destruct (lead_url lead) as [url|] eqn:Hurl; [|discriminate].
  destruct (lead_company lead) as [company|] eqn:Hcompany; [|discriminate].
  destruct (mongo_insert_ok env); cbn; [|discriminate].
  match goal with |- context [existsb ?p ?l] => destruct (existsb p l) eqn:Hfresh end;
    cbn; [discriminate|].
  destruct (mongo_find_ok env) eqn:Hfind; cbn; [|discriminate].
  intros H. injection H as <- <- <-.
  exists url. cbn.
  repeat split; try reflexivity.
  unfold MongoDBManager.get_lead_by_url, Mongo.find_one_by_url. unfold_m.
  rewrite Hfind. cbn [leads set_leads].
  erewrite find_after_fresh; [reflexivity|exact Hfresh|reflexivity].
Qed.

Lemma insert_lead_example :
  exists url,
    lead_url Examples.lead_a = Some url /\
    leads (store_of MoreExamples.inserted_run)
    = (leads Examples.empty_store ++ [MoreExamples.inserted_doc])%list /\
    index (store_of MoreExamples.inserted_run) = index Examples.empty_store /\
    events_of MoreExamples.inserted_run = [MongoInsert MoreExamples.inserted_doc true] /\
    MongoDBManager.get_lead_by_url (Examples.all_up 0%Q) url
      (store_of MoreExamples.inserted_run)
    = (Ok (Some MoreExamples.inserted_doc), store_of MoreExamples.inserted_run, []) /\
    lead_id MoreExamples.inserted_doc = lead_id Examples.lead_a /\
    lead_title MoreExamples.inserted_doc = lead_title Examples.lead_a /\
    lead_url MoreExamples.inserted_doc = lead_url Examples.lead_a /\
    lead_company MoreExamples.inserted_doc = lead_company Examples.lead_a /\
    lead_vector_embedding MoreExamples.inserted_doc = Some Examples.ones /\
    lead_description MoreExamples.inserted_doc
    = Some (get (lead_description Examples.lead_a) "") /\
    lead_source MoreExamples.inserted_doc
    = Some (get (lead_source Examples.lead_a) "unknown") /\
    lead_category MoreExamples.inserted_doc
    = Some (get (lead_category Examples.lead_a) "unknown").
Proof.
  apply (insert_lead_then_get_lead_by_url (Examples.all_up 0%Q) Examples.lead_a
           Examples.ones Examples.empty_store MoreExamples.inserted_doc
           (store_of MoreExamples.inserted_run) (events_of MoreExamples.inserted_run)).
  vm_compute. reflexivity.
Defined.

(** X13: [insert_lead] never raises, and it refuses without changing the
    collection: a lead that lacks [id], [title], [url] or [company] gives
    [None] with no call to the store at all, and a lead whose url the
    collection already holds gives [None] with the collection as it was. *)
Theorem insert_lead_refuses_incomplete_and_known_leads env lead embedding st :
  (lead_id lead = None \/ lead_title lead = None \/
   lead_url lead = None \/ lead_company lead = None ->
   MongoDBManager.insert_lead env lead embedding st = (Ok None, st, []))
  /\
  (existsb (Mongo.has_url (lead_url lead)) (leads st) = true ->
   value_of (MongoDBManager.insert_lead env lead embedding st) = Ok None /\
   store_of (MongoDBManager.insert_lead env lead embedding st) = st)
  /\
  (exists r, value_of (MongoDBManager.insert_lead env lead embedding st) = Ok r).
Proof.
  unfold MongoDBManager.insert_lead, Mongo.insert_one, Mongo.find_one_inserted, getitem,
    value_of, store_of.
  unfold_m.
  split; [|split].
  - intros Hmissing.
    destruct (lead_id lead); [|reflexivity].
    destruct (lead_title lead); [|reflexivity].
    destruct (lead_url lead); [|reflexivity].
    destruct (lead_company lead); [|reflexivity].
    destruct Hmissing as [H|[H|[H|H]]]; discriminate.
  - intros Hknown.
    destruct (lead_id lead); [|split; reflexivity].
    destruct (lead_title lead); [|split; reflexivity].
    destruct (lead_url lead); [|split; reflexivity].
    destruct (lead_company lead); [|split; reflexivity].
    destruct (mongo_insert_ok env); cbn; [|split; reflexivity].
    cbn in Hknown. rewrite Hknown. cbn. split; reflexivity.
  - destruct (lead_id lead); [|eexists; reflexivity].
    destruct (lead_title lead); [|eexists; reflexivity].
    destruct (lead_url lead); [|eexists; reflexivity].
    destruct (lead_company lead); [|eexists; reflexivity].
    destruct (mongo_insert_ok env); cbn; [|eexists; reflexivity].
    match goal with |- context [existsb ?p ?l] => destruct (existsb p l) end;
      cbn; [eexists; reflexivity|].
    destruct (mongo_find_ok env); cbn; eexists; reflexivity.
Qed.

Lemma insert_lead_refusal_example :
  MongoDBManager.insert_lead (Examples.all_up 0%Q) Examples.lead_without_url Examples.ones
    Examples.empty_store = (Ok None, Examples.empty_store, []) /\
  value_of (MongoDBManager.insert_lead (Examples.all_up 0%Q) Examples.lead_a Examples.ones
              (store_of MoreExamples.inserted_run)) = Ok None /\
  store_of (MongoDBManager.insert_lead (Examples.all_up 0%Q) Examples.lead_a Examples.ones
              (store_of MoreExamples.inserted_run)) = store_of MoreExamples.inserted_run.
Proof.
  split.
  - apply (proj1 (insert_lead_refuses_incomplete_and_known_leads (Examples.all_up 0%Q)
                    Examples.lead_without_url Examples.ones Examples.empty_store)).
    right. right. left. reflexivity.
  - apply (proj1 (proj2 (insert_lead_refuses_incomplete_and_known_leads
                           (Examples.all_up 0%Q) Examples.lead_a Examples.ones
                           (store_of MoreExamples.inserted_run)))).
    vm_compute. reflexivity.
Defined.

(** ** The feed *)

Lemma fetch_entry_exact env company entry st :
  (qualifies env company entry = false /\
   CompanyScraper.fetch_entry env company entry st = (Ok None, st, []))
  \/
  (qualifies env company entry = true /\
   exists lead,
     CompanyScraper.fetch_entry env company entry st
       = (Ok (Some lead), mkStore (leads st) (index st) (S (drawn st)), []) /\
     fetched_from env company entry lead /\
     lead_id lead = Some (uuid4 env (drawn st))).
Proof.
  unfold qualifies, entry_relevance, entry_csm_value, entry_title_text,
    entry_description_text, CompanyScraper.fetch_entry.
  set (title := html_unescape env (entry_title entry)).
  set (description := CompanyScraper._generate_clean_description env _).
  set (relevance := CompanyScraper._evaluate_article_relevance env company title description).
  set (csm := CompanyScraper._evaluate_csm_value env company title description).
  destruct (is_relevant relevance); cbn [negb orb andb].
  2:{ left. split; reflexivity. }
  rewrite Z.leb_antisym.
  destruct (relevance_score relevance <? 50)%Z; cbn [negb orb andb].
  { left. split; reflexivity. }
  destruct (is_valuable csm); cbn [negb].
  2:{ left. split; reflexivity. }
  right. split; [reflexivity|]. unfold_m. cbn.
  eexists. split; [reflexivity|].
  unfold fetched_from, lead_from, entry_relevance, entry_title_text,
    entry_description_text. cbn.
  repeat split; reflexivity.
Qed.

Lemma uuids_from_snoc env n count :
  (uuids_from env n count ++ [Some (uuid4 env (n + count))])%list
  = uuids_from env n (S count).
Proof.
  unfold uuids_from. rewrite seq_S, map_app. reflexivity.
Qed.

Lemma uuids_from_cons env n count :
  (Some (uuid4 env n) :: uuids_from env (S n) count) = uuids_from env n (S count).
Proof. reflexivity. Qed.

Lemma fetch_loop_exact env company entries :
  forall found st,
  exists new,
    CompanyScraper.fetch_loop env company entries found st
    = (Ok (found ++ new)%list,
       mkStore (leads st) (index st) (drawn st + length new), []) /\
    Forall2 (fetched_from env company) (filter (qualifies env company) entries) new /\
    map lead_id new = uuids_from env (drawn st) (length new).
Proof.
  induction entries as [|entry rest IH]; intros found st; cbn [CompanyScraper.fetch_loop filter].
  - exists []. unfold ret. rewrite app_nil_r, Nat.add_0_r. destruct st.
    split; [reflexivity|]. split; [constructor|reflexivity].
  - unfold bind, try_except.
    destruct (fetch_entry_exact env company entry st)
      as [[Hq ->] | [Hq (lead & -> & Hfrom & Hid)]]; rewrite Hq.
    + destruct (IH found st) as (new & -> & Hall & Hids).
      exists new. cbn. split; [reflexivity|]. split; assumption.
    + destruct (IH (found ++ [lead])%list (mkStore (leads st) (index st) (S (drawn st))))
        as (new & -> & Hall & Hids).
      exists (lead :: new). cbn [leads index drawn length map] in *.
      split; [|split].
      * cbn. rewrite <- app_assoc. cbn. rewrite Nat.add_succ_r. reflexivity.
      * constructor; assumption.
      * rewrite Hid, Hids. apply uuids_from_cons.
Qed.

Lemma length_filter_le {A : Type} (p : A -> bool) (l : list A) :
  length (filter p l) <= length l.
Proof.
  induction l as [|a l IH]; cbn; [lia|]. destruct (p a); cbn; lia.
Qed.

Lemma forall2_length {A B : Type} (R : A -> B -> Prop) (l : list A) (l' : list B) :
  Forall2 R l l' -> length l = length l'.
Proof. induction 1; cbn; congruence. Qed.

Lemma looked_at_length env company time_range :
  length (looked_at env company time_range) <= 10.
Proof.
  unfold looked_at. destruct (feed_entries env company time_range) as [entries|].
  - rewrite length_firstn. lia.
  - cbn. lia.
Qed.

Lemma fetch_news_exact env company time_range st :
  exists found,
    CompanyScraper._fetch_news env company time_range st
    = (Ok found, mkStore (leads st) (index st) (drawn st + length found), []) /\
    Forall2 (fetched_from env company)
      (filter (qualifies env company) (looked_at env company time_range)) found /\
    map lead_id found = uuids_from env (drawn st) (length found).
Proof.
  unfold CompanyScraper._fetch_news, looked_at.
  destruct (feed_entries env company time_range) as [entries|].
  - destruct (fetch_loop_exact env company (firstn 10 entries) [] st) as (new & H & Hall & Hids).
    exists new. cbn in H. auto.
  - exists []. unfold ret. rewrite Nat.add_0_r. destruct st. cbn.
    split; [reflexivity|]. split; [constructor|reflexivity].
Qed.

(** X14: [_fetch_news] never raises and writes to no store.  It looks at
    the first ten entries of the feed only, and returns one lead for each
    of them that passes the two gates of the ingestion (relevant with a
    score of 50 or more, and valuable), in the order of the feed: at most
    ten leads, each with the company asked for, the source "Google News",
    the category of that company, and the next identifiers drawn, one
    after the other. *)
Theorem fetch_news_returns_the_qualifying_entries_in_order env company time_range st :
  exists found st',
    CompanyScraper._fetch_news env company time_range st = (Ok found, st', []) /\
    leads st' = leads st /\ index st' = index st /\
    drawn st' = drawn st + length found /\
    Forall2 (fetched_from env company)
      (filter (qualifies env company) (looked_at env company time_range)) found /\
    length found <= 10 /\
    map lead_id found = uuids_from env (drawn st) (length found).
Proof.
  destruct (fetch_news_exact env company time_range st) as (found & Hrun & Hall & Hids).
  exists found, (mkStore (leads st) (index st) (drawn st + length found)).
  repeat split; auto.
  rewrite <- (forall2_length _ _ _ Hall).
  eapply Nat.le_trans; [apply length_filter_le|apply looked_at_length].
Qed.

(** ** [scrape] *)

Lemma uuids_from_app env n a b :
  uuids_from env n (a + b) = (uuids_from env n a ++ uuids_from env (n + a) b)%list.
Proof.
  unfold uuids_from. rewrite seq_app, map_app. reflexivity.
Qed.

Lemma scrape_loop_exact env time_range companies :
  forall found st,
  exists new,
    Scrape.scrape_loop env companies time_range found st
    = (Ok (found ++ new)%list,
       mkStore (leads st) (index st) (drawn st + length new), []) /\
    Forall2 (fun ce lead => fetched_from env (fst ce) (snd ce) lead)
      (harvest env companies time_range) new /\
    map lead_id new = uuids_from env (drawn st) (length new).
Proof.
  induction companies as [|company rest IH]; intros found st;
    cbn [Scrape.scrape_loop harvest flat_map].
  - exists []. unfold ret. rewrite app_nil_r, Nat.add_0_r. destruct st.
    split; [reflexivity|]. split; [constructor|reflexivity].
  - unfold bind, try_except, ret.
    destruct (fetch_news_exact env company time_range st) as (first & -> & Hfirst & Hids).
    cbn.
    destruct (IH (found ++ first)%list
                (mkStore (leads st) (index st) (drawn st + length first)))
      as (new & -> & Hnew & Hids').
    cbn [leads index drawn] in *.
    exists (first ++ new)%list. split; [|split].
    + rewrite app_assoc, length_app, Nat.add_assoc. reflexivity.
    + apply Forall2_app; [|exact Hnew].
      clear -Hfirst. induction Hfirst; cbn; constructor; auto.
    + rewrite map_app, length_app, uuids_from_app, Hids, Hids'. reflexivity.
Qed.

Lemma scrape_exact env company time_range st :
  exists found,
    Scrape.scrape env company time_range st
    = (Ok found, mkStore (leads st) (index st) (drawn st + length found), []) /\
    Forall2 (fun ce lead => fetched_from env (fst ce) (snd ce) lead)
      (harvest env (Scrape.companies_to_scrape company) time_range) found /\
    map lead_id found = uuids_from env (drawn st) (length found).
Proof.
  unfold Scrape.scrape.
  destruct (scrape_loop_exact env time_range (Scrape.companies_to_scrape company) [] st)
    as (new & H & Hall & Hids).
  exists new. cbn in H. auto.
Qed.

Lemma harvest_company env companies time_range ce :
  In ce (harvest env companies time_range) -> In (fst ce) companies.
Proof.
  unfold harvest. intros Hin. apply in_flat_map in Hin.
  destruct Hin as (company & Hc & Hin). apply in_map_iff in Hin.
  destruct Hin as (entry & <- & _). exact Hc.
Qed.

Lemma forall2_in_right {A B : Type} (R : A -> B -> Prop) (l : list A) (l' : list B) b :
  Forall2 R l l' -> In b l' -> exists a, In a l /\ R a b.
Proof.
  induction 1 as [|a0 b0 l l' HR _ IH]; intros Hin; [destruct Hin|].
  destruct Hin as [<- | Hin].
  - exists a0. split; [left; reflexivity|exact HR].
  - destruct (IH Hin) as (a & Ha & HRa). exists a. split; [right; exact Ha|exact HRa].
Qed.

(** The table of [CompanyScraper] is the one of the source, read at the key
    [companies]. *)
Lemma company_lists_agree :
  map (fun entry => (fst entry, Scrape.companies_of (snd entry))) Scrape.COMPANY_RELATIONSHIPS
  = CompanyScraper.COMPANY_RELATIONSHIPS.
Proof. reflexivity. Qed.

(** X15: called without a company (or with "All Companies"), [scrape] does
    not walk the tracked companies: its comprehension iterates over the
    entries of [COMPANY_RELATIONSHIPS], which are dictionaries, so the
    "companies" it asks the feed about are the keys of those entries,
    [name], [companies] and [description], three times over.  Every lead
    that such a scrape returns carries one of these three words as its
    company and the category [unknown], whatever the feed holds for the
    tracked companies. *)
Theorem scrape_without_a_company_walks_the_keys env company time_range st :
  company = None \/ company = Some "All Companies" ->
  exists found st',
    Scrape.scrape env company time_range st = (Ok found, st', []) /\
    leads st' = leads st /\ index st' = index st /\
    Forall2 (fun ce lead => fetched_from env (fst ce) (snd ce) lead)
      (harvest env
         ["name"; "companies"; "description";
          "name"; "companies"; "description";
          "name"; "companies"; "description"] time_range)
      found /\
    (forall lead, In lead found ->
       (lead_company lead = Some "name" \/ lead_company lead = Some "companies" \/
        lead_company lead = Some "description") /\
       lead_category lead = Some "unknown").
Proof.
  intros Hall.
  destruct (scrape_exact env company time_range st) as (found & Hrun & Hfrom & _).
  assert (Hwalk : Scrape.companies_to_scrape company
                  = ["name"; "companies"; "description";
                     "name"; "companies"; "description";
                     "name"; "companies"; "description"]).
  { destruct Hall as [-> | ->]; reflexivity. }
  rewrite Hwalk in Hfrom.
  exists found, (mkStore (leads st) (index st) (drawn st + length found)).
  split; [exact Hrun|]. split; [reflexivity|]. split; [reflexivity|].
  split; [exact Hfrom|].
  intros lead Hin.
  destruct (forall2_in_right _ _ _ _ Hfrom Hin) as ([c entry] & Hce & Hlead & Hcat & _).
  apply harvest_company in Hce. cbn [fst snd] in *.
  destruct Hlead as (_ & _ & _ & Hcompany & _).
  rewrite Hcompany, Hcat.
  cbn in Hce.
  repeat (destruct Hce as [<- | Hce]; [split; [auto|reflexivity]|]).
  destruct Hce.
Qed.

Lemma scrape_without_a_company_example :
  exists found st',
    Scrape.scrape (Examples.all_up 0%Q) None "7d" Examples.empty_store = (Ok found, st', []) /\
    leads st' = leads Examples.empty_store /\ index st' = index Examples.empty_store /\
    Forall2 (fun ce lead => fetched_from (Examples.all_up 0%Q) (fst ce) (snd ce) lead)
      (harvest (Examples.all_up 0%Q)
         ["name"; "companies"; "description";
          "name"; "companies"; "description";
          "name"; "companies"; "description"] "7d")
      found /\
    (forall lead, In lead found ->
       (lead_company lead = Some "name" \/ lead_company lead = Some "companies" \/
        lead_company lead = Some "description") /\
       lead_category lead = Some "unknown").
Proof.
  apply (scrape_without_a_company_walks_the_keys (Examples.all_up 0%Q) None "7d"
           Examples.empty_store).
  left. reflexivity.
Defined.

(** X16: called with one company, [scrape] is [_fetch_news] for that
    company: the same leads, the same identifiers drawn, and no write. *)
Theorem scrape_of_one_company_is_its_fetch env company time_range st :
  company <> "All Companies" ->
  Scrape.scrape env (Some company) time_range st
  = CompanyScraper._fetch_news env company time_range st.
Proof.
  intros Hone. apply String.eqb_neq in Hone.
  unfold Scrape.scrape, Scrape.companies_to_scrape. rewrite Hone. cbn [negb Scrape.scrape_loop].
  unfold bind, try_except, ret.
  destruct (fetch_news_exact env company time_range st) as (found & -> & _).
  cbn. reflexivity.
Qed.

Lemma scrape_of_one_company_example :
  Scrape.scrape (Examples.all_up 0%Q) (Some "Apple") "7d" Examples.empty_store
  = CompanyScraper._fetch_news (Examples.all_up 0%Q) "Apple" "7d" Examples.empty_store.
Proof.
  apply (scrape_of_one_company_is_its_fetch (Examples.all_up 0%Q) "Apple" "7d"
           Examples.empty_store).
  discriminate.
Defined.

(** ** Categories *)

Lemma existsb_eqb_in company companies :
  existsb (String.eqb company) companies = true <-> In company companies.
Proof.
  rewrite existsb_exists. split.
  - intros (c & Hin & Heq). apply String.eqb_eq in Heq. subst c. exact Hin.
  - intros Hin. exists company. split; [exact Hin|apply String.eqb_refl].
Qed.

Lemma category_in_unknown table company :
  (forall category companies, In (category, companies) table -> category <> "unknown") ->
  (CompanyScraper.category_in table company = "unknown" <->
   forall category companies, In (category, companies) table -> ~ In company companies).
Proof.
  induction table as [|[category companies] rest IH]; intros Hnames; cbn.
  - split; [intros _ ? ? []|reflexivity].
  - destruct (existsb (String.eqb company) companies) eqn:Hhere.
    + split.
      * intros Heq. exfalso. apply (Hnames category companies); [left; reflexivity|exact Heq].
      * intros Hnone. exfalso. apply (Hnone category companies); [left; reflexivity|].
        apply existsb_eqb_in. exact Hhere.
    + rewrite IH by (intros c cs Hin; apply (Hnames c cs); right; exact Hin).
      split.
      * intros Hnone c cs [Heq | Hin]; [|apply (Hnone c cs); exact Hin].
        injection Heq as <- <-. intros Hin. apply existsb_eqb_in in Hin. congruence.
      * intros Hnone c cs Hin. apply (Hnone c cs). right. exact Hin.
Qed.

(** X17: the lists of tracked companies do not overlap, so
    [_get_company_category] answers, for a company that a category lists,
    that very category; and it answers [unknown] exactly for the companies
    that no category lists (the comparison is exact: another spelling or
    another case of a tracked name is [unknown]). *)
Theorem company_category_is_the_one_that_lists_it company :
  (forall category companies,
     In (category, companies) CompanyScraper.COMPANY_RELATIONSHIPS ->
     In company companies ->
     CompanyScraper._get_company_category company = category)
  /\
  (CompanyScraper._get_company_category company = "unknown" <->
   forall category companies,
     In (category, companies) CompanyScraper.COMPANY_RELATIONSHIPS ->
     ~ In company companies).
Proof.
  split.
  - intros category companies Htable Hin.
    cbn in Htable.
    destruct Htable as [H|[H|[H|[]]]]; injection H as <- <-; cbn in Hin;
      repeat (destruct Hin as [<- | Hin]; [reflexivity|]); destruct Hin.
  - apply category_in_unknown.
    intros category companies Htable. cbn in Htable.
    destruct Htable as [H|[H|[H|[]]]]; injection H as <- <-; discriminate.
Qed.

Lemma company_category_example :
  CompanyScraper._get_company_category "Meta" = "legion" /\
  CompanyScraper._get_company_category "meta" = "unknown".
Proof.
  split.
  - apply (proj1 (company_category_is_the_one_that_lists_it "Meta") "legion"
             ["Apple"; "Microsoft"; "Meta"]).
    + right. right. left. reflexivity.
    + right. right. left. reflexivity.
  - apply (proj2 (company_category_is_the_one_that_lists_it "meta")).
    intros category companies Htable Hin. cbn in Htable.
    destruct Htable as [H|[H|[H|[]]]]; injection H as <- <-; cbn in Hin;
      repeat (destruct Hin as [Hin | Hin]; [discriminate|]); destruct Hin.
Defined.

(** ** Cleaned text *)

Lemma collapse_aux_collapsed s :
  forall prev, collapsed prev (Str.collapse_aux prev s) = true.
Proof.
  induction s as [|c rest IH]; intros prev; cbn; [reflexivity|].
  destruct (Str.is_space c) eqn:Hc.
  - destruct prev; [apply IH|]. cbn. rewrite IH. reflexivity.
  - cbn. rewrite Hc. apply IH.
Qed.

Lemma collapsed_fixed s :
  forall prev, collapsed prev s = true -> Str.collapse_aux prev s = s.
Proof.
  induction s as [|c rest IH]; intros prev H; cbn in *; [reflexivity|].
  destruct (Str.is_space c).
  - apply andb_prop in H. destruct H as [H Hrest].
    apply andb_prop in H. destruct H as [Hprev Hc].
    apply Ascii.eqb_eq in Hc. subst c.
    destruct prev; [discriminate|]. rewrite (IH true Hrest). reflexivity.
  - rewrite (IH false H). reflexivity.
Qed.

Lemma collapsed_weaken s prev :
  collapsed prev s = true -> collapsed false s = true.
Proof.
  destruct s as [|c rest]; cbn; [reflexivity|].
  destruct (Str.is_space c); [|auto].
  intros H. apply andb_prop in H. destruct H as [H Hrest].
  apply andb_prop in H. destruct H as [_ Hc]. rewrite Hc, Hrest. reflexivity.
Qed.

Lemma collapsed_lstrip s :
  forall prev, collapsed prev s = true -> collapsed false (Str.lstrip s) = true.
Proof.
  induction s as [|c rest IH]; intros prev H; [reflexivity|].
  cbn [Str.lstrip]. destruct (Str.is_space c) eqn:Hc.
  - cbn in H. rewrite Hc in H. apply andb_prop in H. destruct H as [_ Hrest].
    apply (IH true Hrest).
  - apply (collapsed_weaken _ prev). exact H.
Qed.

Lemma collapsed_rstrip s :
  forall prev, collapsed prev s = true -> collapsed prev (Str.rstrip s) = true.
Proof.
  induction s as [|c rest IH]; intros prev H; [reflexivity|].
  cbn [Str.rstrip]. destruct (Str.all_space (String c rest)); [reflexivity|].
  cbn in *. destruct (Str.is_space c).
  - apply andb_prop in H. destruct H as [H Hrest]. rewrite H. cbn. apply IH. exact Hrest.
  - apply IH. exact H.
Qed.

Lemma lstrip_starts_clean s : starts_clean (Str.lstrip s) = true.
Proof.
  induction s as [|c rest IH]; [reflexivity|].
  cbn [Str.lstrip]. destruct (Str.is_space c) eqn:Hc; [exact IH|].
  cbn. rewrite Hc. reflexivity.
Qed.

Lemma rstrip_starts_clean s :
  starts_clean s = true -> starts_clean (Str.rstrip s) = true.
Proof.
  destruct s as [|c rest]; [reflexivity|].
  intros H. cbn [Str.rstrip]. destruct (Str.all_space (String c rest)); [reflexivity|exact H].
Qed.

Lemma rstrip_empty s : Str.rstrip s = EmptyString -> Str.all_space s = true.
Proof.
  destruct s as [|c rest]; [reflexivity|].
  cbn [Str.rstrip]. destruct (Str.all_space (String c rest)); [reflexivity|discriminate].
Qed.

Lemma rstrip_ends_clean s : ends_clean (Str.rstrip s) = true.
Proof.
  induction s as [|c rest IH]; [reflexivity|].
  cbn [Str.rstrip]. destruct (Str.all_space (String c rest)) eqn:Hall; [reflexivity|].
  destruct (Str.rstrip rest) as [|c' rest'] eqn:Hrest.
  - apply rstrip_empty in Hrest. cbn in Hall. rewrite Hrest, andb_true_r in Hall.
    cbn. rewrite Hall. reflexivity.
  - exact IH.
Qed.

Lemma starts_clean_lstrip s : starts_clean s = true -> Str.lstrip s = s.
Proof.
  destruct s as [|c rest]; [reflexivity|].
  cbn. destruct (Str.is_space c); [discriminate|reflexivity].
Qed.

Lemma ends_clean_not_all_space c rest :
  ends_clean (String c rest) = true -> Str.all_space (String c rest) = false.
Proof.
  revert c. induction rest as [|c' rest' IH]; intros c H.
  - cbn in *. destruct (Str.is_space c); [discriminate|reflexivity].
  - change (ends_clean (String c' rest') = true) in H.
    cbn [Str.all_space]. cbn [Str.all_space] in IH. rewrite (IH c' H).
    apply andb_false_r.
Qed.

Lemma ends_clean_rstrip s : ends_clean s = true -> Str.rstrip s = s.
Proof.
  induction s as [|c rest IH]; intros H; [reflexivity|].
  cbn [Str.rstrip]. rewrite (ends_clean_not_all_space c rest H).
  destruct rest as [|c' rest']; [reflexivity|].
  rewrite IH; [reflexivity|exact H].
Qed.

(** Stripping a string that neither starts nor ends with white space
    changes nothing. *)
Lemma strip_fixed s :
  starts_clean s = true -> ends_clean s = true -> Str.strip s = s.
Proof.
  intros Hs He. unfold Str.strip. rewrite (starts_clean_lstrip s Hs).
  apply ends_clean_rstrip. exact He.
Qed.

(** *** Plain ASCII text stays plain ASCII *)

Lemma all_ascii_app a b : all_ascii (a ++ b) = all_ascii a && all_ascii b.
Proof.
  induction a as [|c rest IH]; cbn; [reflexivity|].
  rewrite IH. apply andb_assoc.
Qed.

Lemma all_ascii_tail c rest : all_ascii (String c rest) = true -> all_ascii rest = true.
Proof. cbn. intros H. apply andb_prop in H. tauto. Qed.

Lemma lstrip_ascii s : all_ascii s = true -> all_ascii (Str.lstrip s) = true.
Proof.
  induction s as [|c rest IH]; [reflexivity|].
  intros H. cbn [Str.lstrip]. destruct (Str.is_space c); [|exact H].
  apply IH. exact (all_ascii_tail _ _ H).
Qed.

Lemma rstrip_ascii s : all_ascii s = true -> all_ascii (Str.rstrip s) = true.
Proof.
  induction s as [|c rest IH]; [reflexivity|].
  intros H. cbn [Str.rstrip]. destruct (Str.all_space (String c rest)); [reflexivity|].
  cbn in *. apply andb_prop in H. destruct H as [Hc Hrest].
  rewrite Hc, (IH Hrest). reflexivity.
Qed.

Lemma strip_ascii s : all_ascii s = true -> all_ascii (Str.strip s) = true.
Proof. intros H. unfold Str.strip. apply rstrip_ascii, lstrip_ascii, H. Qed.

Lemma snoc_ascii cur c :
  all_ascii cur = true -> is_ascii c = true -> all_ascii (cur ++ String c EmptyString) = true.
Proof.
  intros Hcur Hc. rewrite all_ascii_app, Hcur. cbn. rewrite Hc. reflexivity.
Qed.

Lemma splitlines_aux_ascii n :
  forall s cur, String.length s <= n ->
  all_ascii cur = true -> all_ascii s = true ->
  forallb all_ascii (Str.splitlines_aux cur s) = true.
Proof.
  induction n as [|n IH]; intros s cur Hlen Hcur Hs.
  - destruct s; [|cbn in Hlen; lia]. cbn.
    destruct (Str.is_empty cur); cbn; [reflexivity|]. rewrite Hcur. reflexivity.
  - destruct s as [|c rest].
    + cbn. destruct (Str.is_empty cur); cbn; [reflexivity|]. rewrite Hcur. reflexivity.
    + cbn in Hlen. cbn in Hs. apply andb_prop in Hs. destruct Hs as [Hc Hrest].
      assert (Hnext : forallb all_ascii (cur :: Str.splitlines_aux EmptyString rest) = true).
      { cbn. rewrite Hcur. cbn. apply IH; [lia|reflexivity|exact Hrest]. }
      cbn [Str.splitlines_aux].
      destruct (Str.is_linebreak c).
      * destruct rest as [|c' rest'].
        -- destruct (nat_of_ascii c) as [|[|[|[|[|[|[|[|[|[|[|[|[|[|k]]]]]]]]]]]]]];
             exact Hnext.
        -- destruct (nat_of_ascii c) as [|[|[|[|[|[|[|[|[|[|[|[|[|[|k]]]]]]]]]]]]]];
             try exact Hnext.
           destruct (nat_of_ascii c' =? 10)%nat; [|exact Hnext].
           cbn. rewrite Hcur. cbn. apply IH; [cbn in Hlen; lia|reflexivity|].
           exact (all_ascii_tail _ _ Hrest).
      * apply IH; [lia| |exact Hrest]. apply snoc_ascii; assumption.
Qed.

Lemma splitlines_ascii s :
  all_ascii s = true -> forallb all_ascii (Str.splitlines s) = true.
Proof.
  intros H. unfold Str.splitlines.
  apply (splitlines_aux_ascii (String.length s)); [lia|reflexivity|exact H].
Qed.

Lemma split2_aux_ascii n :
  forall s cur, String.length s <= n ->
  all_ascii cur = true -> all_ascii s = true ->
  forallb all_ascii (Str.split2_aux cur s) = true.
Proof.
  induction n as [|n IH]; intros s cur Hlen Hcur Hs.
  - destruct s; [|cbn in Hlen; lia]. cbn. rewrite Hcur. reflexivity.
  - destruct s as [|c rest].
    + cbn. rewrite Hcur. reflexivity.
    + cbn in Hlen. cbn in Hs. apply andb_prop in Hs. destruct Hs as [Hc Hrest].
      cbn [Str.split2_aux]. destruct rest as [|c' rest'].
      * cbn. rewrite (snoc_ascii cur c Hcur Hc). reflexivity.
      * destruct ((nat_of_ascii c =? 32)%nat && (nat_of_ascii c' =? 32)%nat).
        -- cbn [forallb]. rewrite Hcur. cbn [andb].
           apply IH; [cbn in Hlen; lia|reflexivity|exact (all_ascii_tail _ _ Hrest)].
        -- apply IH; [lia|apply snoc_ascii; assumption|exact Hrest].
Qed.

Lemma split_two_spaces_ascii s :
  all_ascii s = true -> forallb all_ascii (Str.split_two_spaces s) = true.
Proof.
  intros H. unfold Str.split_two_spaces.
  apply (split2_aux_ascii (String.length s)); [lia|reflexivity|exact H].
Qed.

Lemma join_ascii sep parts :
  all_ascii sep = true -> forallb all_ascii parts = true ->
  all_ascii (Str.join sep parts) = true.
Proof.
  intros Hsep. induction parts as [|p rest IH]; [reflexivity|].
  intros H. cbn in H. apply andb_prop in H. destruct H as [Hp Hrest].
  cbn [Str.join]. destruct rest as [|q rest']; [exact Hp|].
  rewrite !all_ascii_app, Hp, Hsep, (IH Hrest). reflexivity.
Qed.

Lemma remove_urls_aux_ascii s :
  forall skip in_url, all_ascii s = true ->
  all_ascii (Str.remove_urls_aux skip in_url s) = true.
Proof.
  induction s as [|c rest IH]; intros skip in_url H; [reflexivity|].
  pose proof (all_ascii_tail _ _ H) as Hrest.
  cbn [Str.remove_urls_aux]. destruct skip as [|k]; [|apply IH; exact Hrest].
  destruct (in_url && negb (Str.is_space c)); [apply IH; exact Hrest|].
  destruct (Str.url_prefix (String c rest)); [|apply IH; exact Hrest].
  cbn in *. apply andb_prop in H. destruct H as [Hc _].
  rewrite Hc, (IH 0 false Hrest). reflexivity.
Qed.

Lemma collapse_aux_ascii s :
  forall prev, all_ascii s = true -> all_ascii (Str.collapse_aux prev s) = true.
Proof.
  induction s as [|c rest IH]; intros prev H; [reflexivity|].
  pose proof (all_ascii_tail _ _ H) as Hrest.
  cbn [Str.collapse_aux]. destruct (Str.is_space c).
  - destruct prev; [apply IH; exact Hrest|]. cbn. apply IH. exact Hrest.
  - cbn in *. apply andb_prop in H. destruct H as [Hc _].
    rewrite Hc, (IH false Hrest). reflexivity.
Qed.

Lemma forallb_flat_map {A B : Type} (p : B -> bool) (f : A -> list B) (l : list A) :
  (forall a, In a l -> forallb p (f a) = true) -> forallb p (flat_map f l) = true.
Proof.
  induction l as [|a rest IH]; intros H; [reflexivity|].
  cbn. rewrite forallb_app, (H a (or_introl eq_refl)). cbn.
  apply IH. intros b Hb. apply H. right. exact Hb.
Qed.

Lemma forallb_map_strip l :
  forallb all_ascii l = true -> forallb all_ascii (map Str.strip l) = true.
Proof.
  induction l as [|s rest IH]; [reflexivity|].
  cbn. intros H. apply andb_prop in H. destruct H as [Hs Hrest].
  rewrite (strip_ascii s Hs), (IH Hrest). reflexivity.
Qed.

Lemma forallb_filter {A : Type} (p q : A -> bool) (l : list A) :
  forallb p l = true -> forallb p (filter q l) = true.
Proof.
  induction l as [|a rest IH]; [reflexivity|].
  cbn. intros H. apply andb_prop in H. destruct H as [Ha Hrest].
  destruct (q a); cbn; [rewrite Ha|]; auto.
Qed.

Lemma chunks_ascii text :
  all_ascii text = true -> forallb all_ascii (CompanyScraper.chunks text) = true.
Proof.
  intros H. unfold CompanyScraper.chunks.
  apply forallb_filter. apply forallb_flat_map.
  intros line Hline. apply forallb_map_strip. apply split_two_spaces_ascii.
  pose proof (forallb_map_strip _ (splitlines_ascii text H)) as Hlines.
  rewrite forallb_forall in Hlines. apply Hlines. exact Hline.
Qed.

(** X18: for a page that [BeautifulSoup] could parse and whose text is
    plain ASCII, the text that [_clean_html_content] returns is plain ASCII
    again and in normal form: it neither starts nor ends with white space,
    its only white-space characters are single spaces (no line break, no
    tab, no two spaces in a row), and cleaning its white space once more
    changes nothing.  (Beyond ASCII the statement is not made: Python
    treats further characters as white space.) *)
Theorem cleaned_text_is_in_normal_form env html_content text :
  soup_get_text env html_content = Some text ->
  all_ascii text = true ->
  let cleaned := CompanyScraper._clean_html_content env html_content in
  all_ascii cleaned = true /\
  starts_clean cleaned = true /\
  ends_clean cleaned = true /\
  collapsed false cleaned = true /\
  Str.strip (Str.collapse_spaces cleaned) = cleaned.
Proof.
  intros Hparse Hascii. unfold CompanyScraper._clean_html_content. rewrite Hparse. cbv zeta.
  assert (Hjoined : all_ascii (Str.remove_urls (Str.join " " (CompanyScraper.chunks text)))
                    = true).
  { unfold Str.remove_urls. apply remove_urls_aux_ascii.
    apply join_ascii; [reflexivity|apply chunks_ascii; exact Hascii]. }
  set (joined := Str.remove_urls _) in *.
  assert (Hstart : starts_clean (Str.strip (Str.collapse_spaces joined)) = true).
  { unfold Str.strip. apply rstrip_starts_clean, lstrip_starts_clean. }
  assert (Hend : ends_clean (Str.strip (Str.collapse_spaces joined)) = true).
  { unfold Str.strip. apply rstrip_ends_clean. }
  assert (Hcol : collapsed false (Str.strip (Str.collapse_spaces joined)) = true).
  { unfold Str.strip. apply collapsed_rstrip. apply (collapsed_lstrip _ false).
    apply collapse_aux_collapsed. }
  split.
  { apply strip_ascii. unfold Str.collapse_spaces. apply collapse_aux_ascii. exact Hjoined. }
  split; [exact Hstart|]. split; [exact Hend|]. split; [exact Hcol|].
  unfold Str.collapse_spaces at 1. rewrite (collapsed_fixed _ false Hcol).
  apply strip_fixed; assumption.
Qed.

Lemma cleaned_text_example :
  let cleaned :=
    CompanyScraper._clean_html_content (Examples.all_up 0%Q) Examples.raw_text in
  all_ascii cleaned = true /\
  starts_clean cleaned = true /\
  ends_clean cleaned = true /\
  collapsed false cleaned = true /\
  Str.strip (Str.collapse_spaces cleaned) = cleaned.
Proof.
  apply (cleaned_text_is_in_normal_form (Examples.all_up 0%Q) Examples.raw_text
           Examples.raw_text).
  - reflexivity.
  - reflexivity.
Defined.

(** ** The dashboard's filter *)

Lemma scan_pending_value pending lead :
  (exists b, App.scan_pending pending lead = Ok b) \/
  (exists e, App.scan_pending pending lead = Raise e).
Proof.
  destruct (App.scan_pending pending lead); eauto.
Qed.

(** [check_duplicate_lead] reads and never writes; what it raises is
    [NameError]. *)
Lemma check_duplicate_lead_reads_only env pending lead st :
  exists r,
    App.check_duplicate_lead env pending lead st = (r, st, []) /\
    ((exists b, r = Ok b) \/ r = Raise NameError).
Proof.
  unfold App.check_duplicate_lead, getitem. unfold_m.
  destruct (lead_url lead) as [url|]; [|eauto].
  call_step. cbn.
  destruct existing as [doc|]; [eauto|].
  destruct (lead_company lead) as [company|]; [|eauto].
  destruct (lead_title lead) as [title|]; [|eauto].
  call_step. cbn.
  destruct dup as [m|]; [eauto|].
  destruct pending as [pending_leads|]; [|eauto].
  destruct (App.scan_pending pending_leads lead); cbn; eauto.
Qed.

(** X19: [filter_duplicates] reads and never writes.  It returns the leads
    on which [check_duplicate_lead] answered [False], in the order of the
    batch; and when the check raises on any lead of the batch (as it does
    for a lead without [url], [company] or [title]: its handler raises
    [NameError]), the whole filter raises [NameError] and no list is
    returned. *)
Theorem filter_duplicates_keeps_the_order_or_raises env pending batch st :
  App.filter_duplicates env pending batch st
  = (if existsb (check_raises env pending st) batch
     then Raise NameError
     else Ok (filter (kept env pending st) batch),
     st, []).
Proof.
  induction batch as [|lead rest IH]; [reflexivity|].
  cbn [App.filter_duplicates existsb filter]. unfold bind.
  unfold check_raises at 1, kept at 1, value_of.
  destruct (check_duplicate_lead_reads_only env pending lead st) as (r & -> & [[b ->] | ->]);
    cbn [fst orb]; [|reflexivity].
  rewrite IH.
  destruct (existsb (check_raises env pending st) rest); [reflexivity|].
  unfold ret. destruct b; reflexivity.
Qed.

Lemma filter_duplicates_example :
  App.filter_duplicates (Examples.all_up 0%Q) None
    [Examples.lead_a; Examples.lead_b] (store_of MoreExamples.inserted_run)
  = (Ok [Examples.lead_b], store_of MoreExamples.inserted_run, []) /\
  App.filter_duplicates (Examples.all_up 0%Q) None
    [Examples.lead_b; Examples.lead_without_url] Examples.empty_store
  = (Raise NameError, Examples.empty_store, []).
Proof.
  split.
  - rewrite (filter_duplicates_keeps_the_order_or_raises (Examples.all_up 0%Q) None
               [Examples.lead_a; Examples.lead_b] (store_of MoreExamples.inserted_run)).
    vm_compute. reflexivity.
  - rewrite (filter_duplicates_keeps_the_order_or_raises (Examples.all_up 0%Q) None
               [Examples.lead_b; Examples.lead_without_url] Examples.empty_store).
    vm_compute. reflexivity.
Defined.

(** ** TechCrunch *)

Lemma collect_parsed articles :
  forall found, TechCrunchScraper.collect articles found = (found ++ parsed articles)%list.
Proof.
  induction articles as [|element rest IH]; intros found; cbn.
  - rewrite app_nil_r. reflexivity.
  - destruct (TechCrunchScraper._parse_article element).
    + rewrite IH, <- app_assoc. reflexivity.
    + apply IH.
Qed.

Lemma parse_article_reads element article :
  TechCrunchScraper._parse_article element = Some article -> parsed_from element article.
Proof.
  unfold TechCrunchScraper._parse_article, parsed_from, getitem, bind_result.
  destruct (TechCrunchScraper.el_title element); [|discriminate].
  destruct (TechCrunchScraper.el_href element); [|discriminate].
  destruct (TechCrunchScraper.el_datetime element); [|discriminate].
  intros H. injection H as <-. cbn. repeat split; reflexivity.
Qed.

Lemma parsed_sound articles article :
  In article (parsed articles) ->
  exists element, In element articles /\ parsed_from element article.
Proof.
  unfold parsed. intros Hin. apply in_flat_map in Hin.
  destruct Hin as (element & Hel & Hin). exists element. split; [exact Hel|].
  destruct (TechCrunchScraper._parse_article element) as [a|] eqn:Hparse; [|destruct Hin].
  destruct Hin as [<- | []]. apply parse_article_reads. exact Hparse.
Qed.

(** X20: [TechCrunchScraper.scrape] always returns a list, after one, two
    or three requests: it sends another request only after a
    [RequestException], and never a fourth.  What it returns is decided by
    the answer to its last request: for a page, the articles of the blocks
    that have a title, a link and a time, in the order of the page, each
    with source "TechCrunch" and category "startup"; for anything else,
    the empty list. *)
Theorem techcrunch_scrape_stops_after_three_requests site :
  exists found requests,
    TechCrunchScraper.scrape site = (Some found, S requests) /\
    requests < 3 /\
    (forall k, k < requests -> site k = TechCrunchScraper.RequestFailed) /\
    (requests < 2 -> site requests <> TechCrunchScraper.RequestFailed) /\
    found = match site requests with
            | TechCrunchScraper.Page articles => parsed articles
            | _ => []
            end /\
    (forall article, In article found ->
       exists articles element,
         site requests = TechCrunchScraper.Page articles /\
         In element articles /\ parsed_from element article).
Proof.
  assert (Hlast : forall n found,
            found = match site n with
                    | TechCrunchScraper.Page articles => parsed articles
                    | _ => []
                    end ->
            forall article, In article found ->
              exists articles element,
                site n = TechCrunchScraper.Page articles /\
                In element articles /\ parsed_from element article).
  { intros n found -> article Hin.
    destruct (site n) as [| |articles]; try destruct Hin.
    destruct (parsed_sound articles article Hin) as (element & Hel & Hfrom).
    exists articles, element. auto. }
  unfold TechCrunchScraper.scrape, TechCrunchScraper.MAX_RETRIES.
  cbn [TechCrunchScraper.scrape_loop Nat.ltb Nat.leb].
  destruct (site 0) as [| |page0] eqn:H0.
  - destruct (site 1) as [| |page1] eqn:H1.
    + exists (match site 2 with
              | TechCrunchScraper.Page articles => parsed articles
              | _ => []
              end), 2.
      split; [|split; [lia|split; [|split; [lia|split; [reflexivity|]]]]].
      * destruct (site 2); try reflexivity. rewrite collect_parsed. reflexivity.
      * intros k Hk. destruct k as [|[|k]]; [assumption|assumption|lia].
      * apply Hlast. reflexivity.
    + exists [], 1.
      split; [reflexivity|]. split; [lia|]. split; [|split; [|split]].
      * intros k Hk. destruct k; [assumption|lia].
      * intros _. rewrite H1. discriminate.
      * rewrite H1. reflexivity.
      * intros ? [].
    + exists (parsed page1), 1.
      split; [rewrite collect_parsed; reflexivity|]. split; [lia|]. split; [|split; [|split]].
      * intros k Hk. destruct k; [assumption|lia].
      * intros _. rewrite H1. discriminate.
      * rewrite H1. reflexivity.
      * apply (Hlast 1). rewrite H1. reflexivity.
  - exists [], 0.
    split; [reflexivity|]. split; [lia|]. split; [|split; [|split]].
    + intros k Hk. lia.
    + intros _. rewrite H0. discriminate.
    + rewrite H0. reflexivity.
    + intros ? [].
  - exists (parsed page0), 0.
    split; [rewrite collect_parsed; reflexivity|]. split; [lia|]. split; [|split; [|split]].
    + intros k Hk. lia.
    + intros _. rewrite H0. discriminate.
    + rewrite H0. reflexivity.
    + apply (Hlast 0). rewrite H0. reflexivity.
Qed.

Lemma techcrunch_scrape_example :
  exists found requests,
    TechCrunchScraper.scrape MoreExamples.flaky_site = (Some found, S requests) /\
    requests < 3 /\
    (forall k, k < requests ->
       MoreExamples.flaky_site k = TechCrunchScraper.RequestFailed) /\
    (requests < 2 ->
       MoreExamples.flaky_site requests <> TechCrunchScraper.RequestFailed) /\
    found = match MoreExamples.flaky_site requests with
            | TechCrunchScraper.Page articles => parsed articles
            | _ => []
            end /\
    (forall article, In article found ->
       exists articles element,
         MoreExamples.flaky_site requests = TechCrunchScraper.Page articles /\
         In element articles /\ parsed_from element article).
Proof.
  exact (techcrunch_scrape_stops_after_three_requests MoreExamples.flaky_site).
Defined.

(** ** One cycle *)

Lemma forall2_nil_left {A B : Type} (R : A -> B -> Prop) (l : list B) :
  Forall2 R [] l -> l = [].
Proof. intros H. inversion H. reflexivity. Qed.

(** X21: [start] and [run_scraping_cycle] never raise and return the number
    of leads committed in the cycle, which is the number of successful
    upserts into the vector index; they keep every url at one record at
    most.  The cycle scrapes without naming a company, so what it processes
    is what the feed holds under the words [name], [companies] and
    [description]: when no entry under these words passes the ingestion
    gates, the cycle returns 0 and writes nothing, whatever the feed holds
    for the tracked companies. *)
Theorem start_processes_what_the_feed_holds_for_the_keys env st :
  (exists n st' ev,
     Cycle.start env st = (Ok n, st', ev) /\
     Cycle.run_scraping_cycle env st = (Ok n, st', ev) /\
     n = upserts_ok ev /\
     (forall u, count_url u (leads st) <= 1 -> count_url u (leads st') <= 1))
  /\
  ((forall key, In key ["name"; "companies"; "description"] ->
      filter (qualifies env key) (looked_at env key "7d") = []) ->
   Cycle.start env st = (Ok 0, st, [])).
Proof.
  unfold Cycle.start, Cycle.run_scraping_cycle. unfold bind, try_except, ret.
  destruct (scrape_exact env None "7d" st) as (found & -> & Hfrom & _).
  split.
  - destruct found as [|lead rest]; cbn [VectorStore.is_nil].
    + exists 0, (mkStore (leads st) (index st) (drawn st + 0)), []. cbn.
      repeat split; auto.
    + destruct (process_leads_total env (lead :: rest)
                  (mkStore (leads st) (index st) (drawn st + length (lead :: rest))))
        as (n & st' & ev & -> & _ & Hup & Hinv).
      exists n, st', ev. cbn. repeat split; auto.
  - intros Hnothing.
    assert (Hnone : harvest env (Scrape.companies_to_scrape None) "7d" = []).
    { cbn [Scrape.companies_to_scrape]. unfold harvest.
      change Scrape.every_company
        with ["name"; "companies"; "description"; "name"; "companies"; "description";
              "name"; "companies"; "description"].
      cbn [flat_map].
      rewrite !Hnothing by (cbn; auto). reflexivity. }
    rewrite Hnone in Hfrom. apply forall2_nil_left in Hfrom. subst found.
    cbn. rewrite Nat.add_0_r. destruct st. reflexivity.
Qed.

Lemma start_example :
  Cycle.start MoreExamples.tracked_only Examples.empty_store
  = (Ok 0, Examples.empty_store, []).
Proof.
  apply (proj2 (start_processes_what_the_feed_holds_for_the_keys
                  MoreExamples.tracked_only Examples.empty_store)).
  intros key Hkey. cbn in Hkey.
  destruct Hkey as [<- | [<- | [<- | []]]]; reflexivity.
Defined.
